(** * Connect4: rule engine, bot and matchmaking, embedded from the JavaScript
    sources

    - [GameEngine]  : backend/src/engines/GameEngine.js
    - [BotEngine]   : backend/src/engines/BotEngine.js
    - [Matchmaking] : backend/src/services/MatchmakingService.js
    - [Handlers]    : the move and disconnect handlers of the socket layer

    Numbers are [Z]; JavaScript arrays are lists read with stdpp's lookup
    and written with stdpp's insert; [Map] objects that the code iterates
    are association lists in insertion order. *)

From Stdlib Require Import ZArith Lia Sorted.
From stdpp Require Import base tactics option list strings gmap.

Local Open Scope Z_scope.

(** ** Outcomes of a method call *)

(** A call either returns, throws, or (for the model of an unbounded
    [while]) uses up the iteration budget it was given.  A throw carries no
    state: the properties below show that no call made through the handlers
    ever throws past them. *)
Inductive outcome (A : Type) : Type :=
| Done (a : A)
| Raised (e : string)
| Unfinished.

Arguments Done {A} a.
Arguments Raised {A} e.
Arguments Unfinished {A}.

(** Sequencing, through stdpp's monad classes: [x ← m; k] runs [k] on the
    value [m] returns and passes on a throw or an exhausted budget. *)
#[global] Instance outcome_ret : MRet outcome := fun A a => Done a.
#[global] Instance outcome_bind : MBind outcome := fun A B k m =>
  match m with
  | Done a => k a
  | Raised e => Raised e
  | Unfinished => Unfinished
  end.

(** ** GameEngine.js *)

Module GameEngine.

Definition ROWS : Z := 6.
Definition COLS : Z := 7.
Definition EMPTY : Z := 0.
Definition PLAYER1 : Z := 1.
Definition PLAYER2 : Z := 2.

(** [board[r][c]]: row 0 is the top row. *)
Abbreviation board := (list (list Z)) (only parsing).

Record move : Type := Move { mv_row : Z; mv_col : Z; mv_player : Z }.

(** The mutable fields of a [GameEngine] instance; [winner = None] is
    JavaScript's [null]. *)
Record t : Type := Engine {
  brd : board;
  currentPlayer : Z;
  moveHistory : list move;
  gameOver : bool;
  winner : option Z;
  isDraw : bool
}.

Definition with_board (s : t) (b : board) : t :=
  Engine b (currentPlayer s) (moveHistory s) (gameOver s) (winner s) (isDraw s).
Definition with_currentPlayer (s : t) (p : Z) : t :=
  Engine (brd s) p (moveHistory s) (gameOver s) (winner s) (isDraw s).
Definition with_moveHistory (s : t) (h : list move) : t :=
  Engine (brd s) (currentPlayer s) h (gameOver s) (winner s) (isDraw s).
Definition with_gameOver (s : t) (g : bool) : t :=
  Engine (brd s) (currentPlayer s) (moveHistory s) g (winner s) (isDraw s).
Definition with_winner (s : t) (w : option Z) : t :=
  Engine (brd s) (currentPlayer s) (moveHistory s) (gameOver s) w (isDraw s).
Definition with_isDraw (s : t) (d : bool) : t :=
  Engine (brd s) (currentPlayer s) (moveHistory s) (gameOver s) (winner s) d.

(** [initializeBoard()] *)
Definition initializeBoard : board :=
  replicate (Z.to_nat ROWS) (replicate (Z.to_nat COLS) EMPTY).

(** [new GameEngine()] *)
Definition new : t := Engine initializeBoard PLAYER1 [] false None false.

(** [reset()] *)
Definition reset (s : t) : t := new.

(** Shape of every board the constructor builds and the methods keep:
    six rows of seven cells. *)
Definition wf_board (b : board) : Prop :=
  length b = Z.to_nat ROWS /\ Forall (fun rw => length rw = Z.to_nat COLS) b.

(** A read [board[r][c]].  [None] is JavaScript's [undefined], the value
    of an index outside the row.  On a board of six rows the engine only
    reads rows 0..5, so the row itself always exists. *)
Definition get_cell (b : board) (r c : Z) : option Z :=
  if (r <? 0) || (c <? 0) then None
  else match b !! Z.to_nat r with
       | Some rw => rw !! Z.to_nat c
       | None => None
       end.

(** The test [board[r][c] === v]. *)
Definition cell_is (b : board) (r c v : Z) : bool :=
  match get_cell b r c with
  | Some x => x =? v
  | None => false
  end.

(** The write [board[r][c] = v].  A missing row throws a TypeError.  The
    engine only writes a cell it has just read as EMPTY, so the column is
    always inside the row; a write outside the row (which JavaScript would
    answer by growing the array) is reported as [Raised] as well. *)
Definition set_cell (b : board) (r c v : Z) : outcome board :=
  if (r <? 0) || (c <? 0) then Raised "TypeError"
  else match b !! Z.to_nat r with
       | Some rw =>
           if (Z.to_nat c <? length rw)%nat
           then Done (<[Z.to_nat r := <[Z.to_nat c := v]> rw]> b)
           else Raised "write outside the row"
       | None => Raised "TypeError"
       end.

(** [for (let r = n - 1; r >= 0; r--) if (board[r][col] === EMPTY) { row = r; break; }]
    with [row] initialised to -1. *)
Fixpoint lowest_empty (b : board) (col : Z) (n : nat) : Z :=
  match n with
  | O => -1
  | S k => if cell_is b (Z.of_nat k) col EMPTY then Z.of_nat k
           else lowest_empty b col k
  end.

Definition landing_row (b : board) (col : Z) : Z :=
  lowest_empty b col (Z.to_nat ROWS).

(** The loop guard [r >= 0 && r < ROWS && c >= 0 && c < COLS]. *)
Definition in_bounds (r c : Z) : bool :=
  (0 <=? r) && (r <? ROWS) && (0 <=? c) && (c <? COLS).

(** One [while] loop of [countConsecutive]: starting at [(r, c)], step by
    [(dr, dc)] and increment [count] while the cell is in bounds and holds
    [player].  The source loop has no bound (it does not end for
    [dr = dc = 0] on a matching cell), so the model carries a budget and
    answers [Unfinished] when it is used up. *)
Fixpoint scan (budget : nat) (b : board) (player dr dc : Z) (count r c : Z)
  : outcome Z :=
  match budget with
  | O => Unfinished
  | S k =>
      if in_bounds r c then
        if cell_is b r c player
        then scan k b player dr dc (count + 1) (r + dr) (c + dc)
        else Done count
      else Done count
  end.

Definition scan_budget : nat := Z.to_nat (ROWS + COLS).

(** [countConsecutive(row, col, dr, dc, player)]; the second loop steps by
    [(-dr, -dc)]. *)
Definition countConsecutive (b : board) (row col dr dc player : Z) : outcome Z :=
  count ← scan scan_budget b player dr dc 1 (row + dr) (col + dc);
  scan scan_budget b player (- dr) (- dc) count (row - dr) (col - dc).

(** [checkWin(row, col, player)] *)
Definition checkWin (b : board) (row col player : Z) : outcome bool :=
  h ← countConsecutive b row col 0 1 player;
  if h >=? 4 then Done true else
  v ← countConsecutive b row col 1 0 player;
  if v >=? 4 then Done true else
  d ← countConsecutive b row col 1 1 player;
  if d >=? 4 then Done true else
  a ← countConsecutive b row col 1 (-1) player;
  if a >=? 4 then Done true else Done false.

(** The column indices [0 .. COLS-1] in the order of
    [for (let col = 0; col < COLS; col++)]. *)
Definition columns : list Z := seqZ 0 COLS.

(** [isBoardFull()] *)
Definition isBoardFull (b : board) : bool :=
  forallb (fun col => negb (cell_is b 0 col EMPTY)) columns.

(** [getValidMoves()] *)
Definition getValidMoves (b : board) : list Z :=
  List.filter (fun col => cell_is b 0 col EMPTY) columns.

(** What [dropPiece] returns: [{success: false, error}] or
    [{success: true, row, col, gameOver, winner?, isDraw?}]; an absent
    [winner] is [None] and an absent [isDraw] is [false]. *)
Inductive drop_result : Type :=
| Failure (error : string)
| Placed (row col : Z) (over : bool) (won : option Z) (draw : bool).

(** [dropPiece(col)] *)
Definition dropPiece (s : t) (col : Z) : outcome (drop_result * t) :=
  if (col <? 0) || (col >=? COLS) then Done (Failure "Invalid column", s)
  else if negb (cell_is (brd s) 0 col EMPTY) then Done (Failure "Column is full", s)
  else
    let row := landing_row (brd s) col in
    let p := currentPlayer s in
    b' ← set_cell (brd s) row col p;
    let s1 := with_moveHistory (with_board s b') (moveHistory s ++ [Move row col p]) in
    hasWon ← checkWin b' row col p;
    if (hasWon : bool) then
      Done (Placed row col true (Some p) false,
            with_winner (with_gameOver s1 true) (Some p))
    else if isBoardFull b' then
      Done (Placed row col true None true,
            with_isDraw (with_gameOver s1 true) true)
    else
      Done (Placed row col false None false,
            with_currentPlayer s1 (if p =? PLAYER1 then PLAYER2 else PLAYER1)).

(** [countAdjacentPieces(row, col, player)] *)
Definition directions : list (Z * Z) :=
  [(0, 1); (0, -1); (1, 0); (-1, 0); (1, 1); (-1, -1); (1, -1); (-1, 1)].

Definition countAdjacentPieces (b : board) (row col player : Z) : Z :=
  fold_left
    (fun count '(dr, dc) =>
       let nr := row + dr in
       let nc := col + dc in
       if in_bounds nr nc then
         if cell_is b nr nc player then count + 1 else count
       else count)
    directions 0.

(** [evaluateMove(col, player)]: the landing cell is written with
    [player], then with the opponent, then with EMPTY again. *)
Definition evaluateMove (s : t) (col player : Z) : outcome (Z * t) :=
  let row := landing_row (brd s) col in
  if row =? -1 then Done (-1000, s)
  else
    b1 ← set_cell (brd s) row col player;
    wins ← checkWin b1 row col player;
    if (wins : bool) then
      b2 ← set_cell b1 row col EMPTY;
      Done (10000, with_board s b2)
    else
      let opponent := if player =? PLAYER1 then PLAYER2 else PLAYER1 in
      b2 ← set_cell b1 row col opponent;
      blocks ← checkWin b2 row col opponent;
      if (blocks : bool) then
        b3 ← set_cell b2 row col EMPTY;
        Done (8000, with_board s b3)
      else
        b3 ← set_cell b2 row col EMPTY;
        let centerDistance := Z.abs (col - 3) in
        let score := 0 + (3 - centerDistance) * 100 in
        Done (score + countAdjacentPieces b3 row col player * 50,
              with_board s b3).

(** Plays the listed columns in order from [s]; the results are in the
    order of the moves. *)
Fixpoint play (s : t) (cols : list Z) : outcome (list drop_result * t) :=
  match cols with
  | [] => Done ([], s)
  | col :: rest =>
      '(r, s1) ← dropPiece s col;
      '(rs, s2) ← play s1 rest;
      Done (r :: rs, s2)
  end.

End GameEngine.

(** ** BotEngine.js *)

Module BotEngine.
Import GameEngine.

(** A [BotEngine] keeps a reference to the engine of its session, so each
    method takes that engine's state and hands it back. *)

(** [for (const col of validMoves) { const score = evaluateMove(col, player);
      if (score >= 10000) return col; }]: [Some col] is the early return. *)
Fixpoint first_decisive (s : t) (player : Z) (cols : list Z)
  : outcome (option Z * t) :=
  match cols with
  | [] => Done (None, s)
  | col :: rest =>
      '(score, s1) ← evaluateMove s col player;
      if score >=? 10000 then Done (Some col, s1)
      else first_decisive s1 player rest
  end.

(** [for (const col of validMoves) { const score = evaluateMove(col, player);
      if (score > bestScore) { bestScore = score; bestCol = col; } }] *)
Fixpoint best_of (s : t) (player : Z) (cols : list Z) (bestCol bestScore : Z)
  : outcome (Z * Z * t) :=
  match cols with
  | [] => Done (bestCol, bestScore, s)
  | col :: rest =>
      '(score, s1) ← evaluateMove s col player;
      if score >? bestScore then best_of s1 player rest col score
      else best_of s1 player rest bestCol bestScore
  end.

(** [getBestMove()] *)
Definition getBestMove (s : t) : outcome (Z * t) :=
  let validMoves := getValidMoves (brd s) in
  match validMoves with
  | [] => Done (-1, s)
  | first :: _ =>
      let botPlayer := PLAYER2 in
      let opponent := PLAYER1 in
      '(won, s1) ← first_decisive s botPlayer validMoves;
      match won with
      | Some col => Done (col, s1)
      | None =>
          '(blocked, s2) ← first_decisive s1 opponent validMoves;
          match blocked with
          | Some col => Done (col, s2)
          | None =>
              '(bestScore, s3) ← evaluateMove s2 first botPlayer;
              '(bestCol, _, s4) ← best_of s3 botPlayer validMoves first bestScore;
              Done (bestCol, s4)
          end
      end
  end.

(** [makeMove()] *)
Definition makeMove (s : t) : outcome (drop_result * t) :=
  '(col, s1) ← getBestMove s;
  if col =? -1 then Raised "No valid moves available"
  else dropPiece s1 col.

End BotEngine.

(** ** MatchmakingService.js *)

Module Matchmaking.

(** *** A JavaScript [Map] with string keys

    Entries are kept in insertion order, which is the order [entries()]
    and [values()] iterate in; [set] on a present key replaces the value
    in place, on an absent key appends. *)
Section JsMap.
Context {V : Type}.

Fixpoint map_get (m : list (string * V)) (k : string) : option V :=
  match m with
  | [] => None
  | (k', v) :: rest => if String.eqb k' k then Some v else map_get rest k
  end.

Definition map_has (m : list (string * V)) (k : string) : bool :=
  match map_get m k with Some _ => true | None => false end.

Fixpoint map_set (m : list (string * V)) (k : string) (v : V)
  : list (string * V) :=
  match m with
  | [] => [(k, v)]
  | (k', v') :: rest =>
      if String.eqb k' k then (k', v) :: rest
      else (k', v') :: map_set rest k v
  end.

Definition map_delete (m : list (string * V)) (k : string)
  : list (string * V) :=
  List.filter (fun kv => negb (String.eqb (fst kv) k)) m.
End JsMap.

(** *** Timers of the event loop

    [setTimeout] returns a fresh handle and registers the callback with
    the time it becomes due; [clearTimeout] forgets the handle.  The three
    closures the sources pass to [setTimeout] are the constructors of
    [callback]. *)
Inductive callback : Type :=
| SpawnBot (socketId : string)
| ForfeitGame (sessionId : string) (isPlayer1 : bool)
| BotReply (sessionId : string).

Record timer : Type := Timer { due : Z; action : callback }.

Record timer_heap : Type := TimerHeap {
  pending : gmap nat timer;
  next_handle : nat
}.

Definition setTimeout (tm : timer_heap) (now delay : Z) (cb : callback)
  : nat * timer_heap :=
  (next_handle tm,
   TimerHeap (<[next_handle tm := Timer (now + delay) cb]> (pending tm))
             (S (next_handle tm))).

Definition clearTimeout (tm : timer_heap) (h : nat) : timer_heap :=
  TimerHeap (delete h (pending tm)) (next_handle tm).

(** *** Records of the service *)

(** An entry of [waitingPlayers].  The socket object kept beside these
    fields is only used to join the Socket.IO room of the new session,
    which lies outside the service's state. *)
Record waiting : Type := Waiting {
  w_socketId : string;
  w_username : string;
  w_gameMode : string;
  w_timestamp : Z
}.

(** [session.player1] / [session.player2]; [None] is [null] (or a field
    that was never set). *)
Record participant : Type := Participant {
  socketId : option string;
  username : string;
  isBot : bool;
  connected : bool;
  disconnectTime : option Z;
  reconnectTimeout : option nat
}.

(** A session.  [botEngine] is not a field of its own here: when
    [isVsBot] holds it is a [BotEngine] over the very same [gameEngine]
    object. *)
Record session : Type := Session {
  sessionId : string;
  player1 : participant;
  player2 : participant;
  isVsBot : bool;
  gameEngine : GameEngine.t;
  startTime : Z;
  endTime : option Z;
  result : option string;
  winner : option string;
  createdAt : Z
}.

(** The service instance together with the timers it has running. *)
Record t : Type := Service {
  waitingPlayers : list (string * waiting);
  activeSessions : list (string * session);
  matchmakingTimeouts : gmap string nat;
  timers : timer_heap
}.

(** [new MatchmakingService(io)] *)
Definition new : t := Service [] [] ∅ (TimerHeap ∅ 0).

Definition with_waitingPlayers (st : t) (w : list (string * waiting)) : t :=
  Service w (activeSessions st) (matchmakingTimeouts st) (timers st).
Definition with_activeSessions (st : t) (a : list (string * session)) : t :=
  Service (waitingPlayers st) a (matchmakingTimeouts st) (timers st).
Definition with_matchmakingTimeouts (st : t) (m : gmap string nat) : t :=
  Service (waitingPlayers st) (activeSessions st) m (timers st).
Definition with_timers (st : t) (tm : timer_heap) : t :=
  Service (waitingPlayers st) (activeSessions st) (matchmakingTimeouts st) tm.

Definition with_player1 (s : session) (p : participant) : session :=
  Session (sessionId s) p (player2 s) (isVsBot s) (gameEngine s)
          (startTime s) (endTime s) (result s) (winner s) (createdAt s).
Definition with_player2 (s : session) (p : participant) : session :=
  Session (sessionId s) (player1 s) p (isVsBot s) (gameEngine s)
          (startTime s) (endTime s) (result s) (winner s) (createdAt s).
Definition with_gameEngine (s : session) (g : GameEngine.t) : session :=
  Session (sessionId s) (player1 s) (player2 s) (isVsBot s) g
          (startTime s) (endTime s) (result s) (winner s) (createdAt s).
(** [session.endTime = e; session.result = r; session.winner = w] *)
Definition with_ending (s : session) (e : option Z) (r w : option string)
  : session :=
  Session (sessionId s) (player1 s) (player2 s) (isVsBot s) (gameEngine s)
          (startTime s) e r w (createdAt s).

(** [a === b] for a field that may be [null] and a string. *)
Definition same_socket (field : option string) (id : string) : bool :=
  match field with
  | Some x => String.eqb x id
  | None => false
  end.

(** The number JavaScript's subtraction makes of a time field: [null]
    becomes 0. *)
Definition to_number (time : option Z) : Z :=
  match time with
  | Some x => x
  | None => 0
  end.

(** *** Methods

    [now] is the value of [Date.now()] during the call and [fresh] the
    string [generateSessionId()] returns in it. *)

(** [createSession(player1SocketId, player1Username, player2SocketId,
    player2Username, isVsBot)] *)
Definition createSession (st : t) (now : Z) (fresh : string)
    (player1SocketId player1Username player2SocketId player2Username : string)
    (vsBot : bool) : session * t :=
  let s :=
    Session fresh
      (Participant (Some player1SocketId) player1Username false true None None)
      (if vsBot
       then Participant None player2Username true true None None
       else Participant (Some player2SocketId) player2Username false true None None)
      vsBot GameEngine.new now None None None now in
  (s, with_activeSessions st (map_set (activeSessions st) fresh s)).

(** [getSession(sessionId)] *)
Definition getSession (st : t) (id : string) : option session :=
  map_get (activeSessions st) id.

(** [getSessionByPlayerId(socketId)]: the first session, in the order of
    the map, one of whose participants has this socket id; returned with
    the key it is stored under. *)
Definition getSessionByPlayerId (st : t) (id : string)
  : option (string * session) :=
  List.find (fun kv => same_socket (socketId (player1 (snd kv))) id
                       || same_socket (socketId (player2 (snd kv))) id)
            (activeSessions st).

(** [spawnBotOpponent(playerSocketId)]; [None] is the [null] it returns
    for a player who is not waiting. *)
Definition spawnBotOpponent (st : t) (now : Z) (fresh : string)
    (playerSocketId : string) : option session * t :=
  match map_get (waitingPlayers st) playerSocketId with
  | None => (None, st)
  | Some player =>
      let st1 := with_waitingPlayers st
                   (map_delete (waitingPlayers st) playerSocketId) in
      let st2 := with_matchmakingTimeouts st1
                   (delete playerSocketId (matchmakingTimeouts st1)) in
      let '(s, st3) := createSession st2 now fresh playerSocketId
                         (w_username player) "BOT" "ConnectBot" true in
      (Some s, st3)
  end.

(** [if (matchmakingTimeouts.has(id)) { clearTimeout(matchmakingTimeouts.get(id));
      matchmakingTimeouts.delete(id); }] *)
Definition cancel_wait_timer (st : t) (id : string) : t :=
  match matchmakingTimeouts st !! id with
  | Some h =>
      with_matchmakingTimeouts (with_timers st (clearTimeout (timers st) h))
                               (delete id (matchmakingTimeouts st))
  | None => st
  end.

(** [tryPairPlayers(socketId)]: [Some (sessionId, opponent)] or [None]
    for [null].  [currentPlayer.username] throws when the caller is not
    in the map. *)
Definition tryPairPlayers (st : t) (now : Z) (fresh : string) (id : string)
  : outcome (option (string * string) * t) :=
  let currentPlayer := map_get (waitingPlayers st) id in
  match List.find (fun kv => negb (String.eqb (fst kv) id)) (waitingPlayers st) with
  | None => Done (None, st)
  | Some (otherId, otherPlayer) =>
      let st1 := with_waitingPlayers st
                   (map_delete (map_delete (waitingPlayers st) id) otherId) in
      let st2 := cancel_wait_timer st1 otherId in
      let st3 := cancel_wait_timer st2 id in
      match currentPlayer with
      | None => Raised "TypeError"
      | Some current =>
          let '(s, st4) := createSession st3 now fresh id (w_username current)
                             otherId (w_username otherPlayer) false in
          Done (Some (sessionId s, w_username otherPlayer), st4)
      end
  end.

(** What [joinQueue] returns: [{sessionId: null, error}],
    [{sessionId, paired: false, isVsBot: true}],
    [{sessionId, paired: true, opponent}] or
    [{sessionId: null, paired: false, isVsBot: false}]. *)
Inductive join_result : Type :=
| JoinError (error : string)
| JoinBot (sessionId : string)
| JoinPaired (sessionId opponent : string)
| JoinWaiting.

(** Whether some session in [activeSessions] has [name] as the username
    of one of its participants. *)
Definition username_in_game (st : t) (name : string) : bool :=
  existsb (fun kv => String.eqb (username (player1 (snd kv))) name
                     || String.eqb (username (player2 (snd kv))) name)
          (activeSessions st).

(** [joinQueue(socketId, username, socket, gameMode)] *)
Definition joinQueue (st : t) (now : Z) (fresh : string)
    (id name gameMode : string) : outcome (join_result * t) :=
  if map_has (waitingPlayers st) id
  then Done (JoinError "Already in queue", st)
  else if username_in_game st name
  then Done (JoinError "Username already in game", st)
  else
    let st1 := with_waitingPlayers st
                 (map_set (waitingPlayers st) id (Waiting id name gameMode now)) in
    if String.eqb gameMode "bot" then
      match spawnBotOpponent st1 now fresh id with
      | (Some s, st2) => Done (JoinBot (sessionId s), st2)
      | (None, _) => Raised "TypeError"
      end
    else
      '(paired, st2) ← tryPairPlayers st1 now fresh id;
      match paired with
      | Some (sid, opponent) => Done (JoinPaired sid opponent, st2)
      | None =>
          let '(h, tm) := setTimeout (timers st2) now 10000 (SpawnBot id) in
          Done (JoinWaiting,
                with_matchmakingTimeouts (with_timers st2 tm)
                  (<[id := h]> (matchmakingTimeouts st2)))
      end.

(** [markDisconnected(socketId)] *)
Definition markDisconnected (st : t) (now : Z) (id : string)
  : option session * t :=
  match getSessionByPlayerId st id with
  | None => (None, st)
  | Some (key, s) =>
      let isPlayer1 := same_socket (socketId (player1 s)) id in
      let player := if isPlayer1 then player1 s else player2 s in
      let '(h, tm) := setTimeout (timers st) now 30000
                        (ForfeitGame (sessionId s) isPlayer1) in
      let player' := Participant (socketId player) (username player)
                       (isBot player) false (Some now) (Some h) in
      let s' := if isPlayer1 then with_player1 s player'
                else with_player2 s player' in
      (Some s', with_timers (with_activeSessions st
                               (map_set (activeSessions st) key s')) tm)
  end.

(** What [reconnect] returns: [{success: false, error}] or
    [{success: true, session}]. *)
Inductive reconnect_result : Type :=
| ReconnectError (error : string)
| Reconnected (s : session).

(** [reconnect(socketId, username, sessionId)] *)
Definition reconnect (st : t) (now : Z) (id name sid : string)
  : reconnect_result * t :=
  match map_get (activeSessions st) sid with
  | None => (ReconnectError "Session not found", st)
  | Some s =>
      let isPlayer1 := String.eqb (username (player1 s)) name in
      let isPlayer2 := String.eqb (username (player2 s)) name in
      if negb isPlayer1 && negb isPlayer2
      then (ReconnectError "Username does not match session", st)
      else
        let player := if isPlayer1 then player1 s else player2 s in
        let timeSinceDisconnect := now - to_number (disconnectTime player) in
        if timeSinceDisconnect >? 30000
        then (ReconnectError "Reconnection window expired (30 seconds)", st)
        else
          let player' := Participant (Some id) (username player)
                           (isBot player) true None None in
          let tm := match reconnectTimeout player with
                    | Some h => clearTimeout (timers st) h
                    | None => timers st
                    end in
          let s' := if isPlayer1 then with_player1 s player'
                    else with_player2 s player' in
          (Reconnected s',
           with_timers (with_activeSessions st
                          (map_set (activeSessions st) sid s')) tm)
  end.

(** [forfeitGame(sessionId, isPlayer1)]; [None] is the [undefined] of the
    early return. *)
Definition forfeitGame (st : t) (now : Z) (sid : string) (isPlayer1 : bool)
  : option session * t :=
  match map_get (activeSessions st) sid with
  | None => (None, st)
  | Some s =>
      if GameEngine.gameOver (gameEngine s) then (None, st)
      else
        let s1 := with_gameEngine s
                    (GameEngine.with_gameOver (gameEngine s) true) in
        let s2 := with_ending s1 (Some now) (Some "forfeit")
                    (Some (if isPlayer1 then username (player2 s)
                           else username (player1 s))) in
        (Some s2, with_activeSessions st (map_set (activeSessions st) sid s2))
  end.

End Matchmaking.

(** ** The socket handlers (GameSocketHandlers) and the event loop

    Each handler is taken as one uninterrupted step; what a handler does
    after an [await] only concerns the session it serves and the timer of
    the bot's reply.  The messages a handler emits to sockets, Kafka and the
    database are not part of the state; the error a handler emits to the
    caller is its result. *)

Module Handlers.
Import Matchmaking.

Definition update_session (st : t) (key : string) (s : session) : t :=
  with_activeSessions st (map_set (activeSessions st) key s).

(** What [onMakeMove] tells the caller: an ['error'] message, or the
    result of the accepted [dropPiece]. *)
Inductive move_reply : Type :=
| MoveError (message : string)
| MoveDone (moveResult : GameEngine.drop_result).

(** [onMakeMove(socket, {sessionId, column})], [sock] being [socket.id]. *)
Definition onMakeMove (st : t) (now : Z) (sock sid : string) (column : Z)
  : outcome (move_reply * t) :=
  match getSession st sid with
  | None => Done (MoveError "Game session not found", st)
  | Some s =>
      if (column <? 0) || (column >=? 7)
      then Done (MoveError "Invalid column", st)
      else
        let isPlayer1 := same_socket (socketId (player1 s)) sock in
        let isPlayer2 := same_socket (socketId (player2 s)) sock in
        if negb isPlayer1 && negb isPlayer2
        then Done (MoveError "Not your game", st)
        else
          let playerNumber :=
            if isPlayer1 then GameEngine.PLAYER1 else GameEngine.PLAYER2 in
          if negb (GameEngine.currentPlayer (gameEngine s) =? playerNumber)
          then Done (MoveError "Not your turn", st)
          else
            '(moveResult, g) ← GameEngine.dropPiece (gameEngine s) column;
            let s1 := with_gameEngine s g in
            match moveResult with
            | GameEngine.Failure e =>
                Done (MoveError e, update_session st sid s1)
            | GameEngine.Placed row col over won draw =>
                if over then
                  let s2 :=
                    with_ending s1 (Some now)
                      (Some (if draw then "draw" else "win")%string)
                      (match won with
                       | Some w =>
                           if w =? 0 then None
                           else Some (if w =? GameEngine.PLAYER1
                                      then username (player1 s)
                                      else username (player2 s))
                       | None => None
                       end) in
                  Done (MoveDone moveResult, update_session st sid s2)
                else if isVsBot s then
                  let '(_, tm) := setTimeout (timers st) now 500 (BotReply sid) in
                  Done (MoveDone moveResult,
                        with_timers (update_session st sid s1) tm)
                else
                  Done (MoveDone moveResult, update_session st sid s1)
            end
  end.

(** The callback [onMakeMove] schedules for the bot's reply.  Its closure
    holds the session object, which is the one stored under its id.  The
    body runs inside [try { } catch], so a throw leaves the state as it
    is: [makeMove] throws before it writes anything. *)
Definition onBotReply (st : t) (now : Z) (sid : string) : outcome t :=
  match getSession st sid with
  | None => Done st
  | Some s =>
      if negb (isVsBot s) then Done st
      else
        match BotEngine.makeMove (gameEngine s) with
        | Unfinished => Unfinished
        | Raised _ => Done st
        | Done (botMoveResult, g) =>
            let s1 := with_gameEngine s g in
            match botMoveResult with
            | GameEngine.Placed row col true won draw =>
                let s2 :=
                  with_ending s1 (Some now)
                    (Some (if draw then "draw" else "win")%string)
                    (Some (match won with
                           | Some w =>
                               if w =? GameEngine.PLAYER2 then "ConnectBot"%string
                               else username (player1 s)
                           | None => username (player1 s)
                           end)) in
                Done (update_session st sid s2)
            | _ => Done (update_session st sid s1)
            end
        end
  end.

(** [onDisconnect(socket)] *)
Definition onDisconnect (st : t) (now : Z) (sock : string) : t :=
  if map_has (waitingPlayers st) sock then
    let st1 := with_waitingPlayers st (map_delete (waitingPlayers st) sock) in
    match matchmakingTimeouts st1 !! sock with
    | Some h =>
        with_matchmakingTimeouts (with_timers st1 (clearTimeout (timers st1) h))
                                 (delete sock (matchmakingTimeouts st1))
    | None => st1
    end
  else
    match getSessionByPlayerId st sock with
    | None => st
    | Some _ => snd (markDisconnected st now sock)
    end.

(** [onReconnect(socket, {username, sessionId})]; after a successful
    [reconnect] the handler stores [socket.id] once more. *)
Definition onReconnect (st : t) (now : Z) (sock name sid : string)
  : reconnect_result * t :=
  match reconnect st now sock name sid with
  | (ReconnectError e, st1) => (ReconnectError e, st1)
  | (Reconnected s, st1) =>
      let again p := Participant (Some sock) (username p) (isBot p)
                       (connected p) (disconnectTime p) (reconnectTimeout p) in
      let s' := if String.eqb (username (player1 s)) name
                then with_player1 s (again (player1 s))
                else with_player2 s (again (player2 s)) in
      (Reconnected s', update_session st1 sid s')
  end.

(** [onJoinQueue(socket, {username, gameMode = 'bot'})]; the length test
    counts the characters of an ASCII name. *)
Definition onJoinQueue (st : t) (now : Z) (fresh sock name gameMode : string)
  : outcome (join_result * t) :=
  if (String.length name <? 2)%nat || (20 <? String.length name)%nat
  then Done (JoinError "Username must be 2-20 characters", st)
  else joinQueue st now fresh sock name gameMode.

(** What the event loop can deliver to the server. *)
Inductive event : Type :=
| EvJoinQueue (sock name gameMode fresh : string)
| EvMakeMove (sock sid : string) (column : Z)
| EvDisconnect (sock : string)
| EvReconnect (sock name sid : string)
| EvTimer (h : nat) (fresh : string).

(** A timer fires once, when it is still pending and due; [fresh] is the
    session id drawn if its callback creates a session. *)
Definition fire (st : t) (now : Z) (h : nat) (fresh : string) : outcome t :=
  match pending (timers st) !! h with
  | None => Done st
  | Some tmr =>
      if now <? due tmr then Done st
      else
        let st1 := with_timers st (clearTimeout (timers st) h) in
        match action tmr with
        | SpawnBot sock => Done (snd (spawnBotOpponent st1 now fresh sock))
        | ForfeitGame sid isPlayer1 => Done (snd (forfeitGame st1 now sid isPlayer1))
        | BotReply sid => onBotReply st1 now sid
        end
  end.

(** One turn of the event loop at time [now]. *)
Definition deliver (st : t) (now : Z) (ev : event) : outcome t :=
  match ev with
  | EvJoinQueue sock name gameMode fresh =>
      '(_, st1) ← onJoinQueue st now fresh sock name gameMode; Done st1
  | EvMakeMove sock sid column =>
      '(_, st1) ← onMakeMove st now sock sid column; Done st1
  | EvDisconnect sock => Done (onDisconnect st now sock)
  | EvReconnect sock name sid => Done (snd (onReconnect st now sock name sid))
  | EvTimer h fresh => fire st now h fresh
  end.

(** The states the server can be in: those reached from a new service by
    delivering events. *)
Inductive reachable : t -> Prop :=
| reachable_new : reachable new
| reachable_deliver st now ev st' :
    reachable st -> deliver st now ev = Done st' -> reachable st'.

End Handlers.

(** ** The rules in the specification's words

    These definitions do not come from the code: they say what a legal
    column, a lowest empty cell and four in a line are, for the statements
    below to compare the code with. *)

Module Rules.
Import GameEngine.

(** Cell [(r, c)] lies on the grid and holds mark [p]. *)
Definition holds (b : board) (p r c : Z) : Prop :=
  in_bounds r c = true /\ get_cell b r c = Some p.

(** Along the axis [(dr, dc)] there is a stretch of contiguous cells,
    from offset [lo] to offset [hi] around [(row, col)] and containing
    it, all holding [p], of at least four cells. *)
Definition line_of_four (b : board) (row col dr dc p : Z) : Prop :=
  exists lo hi : Z,
    lo <= 0 <= hi /\ 4 <= hi - lo + 1 /\
    forall k : Z, lo <= k <= hi -> holds b p (row + k * dr) (col + k * dc).

(** Four in a line through [(row, col)] on one of the four axes:
    horizontal, vertical, and the two diagonals. *)
Definition four_connected (b : board) (row col p : Z) : Prop :=
  line_of_four b row col 0 1 p \/ line_of_four b row col 1 0 p \/
  line_of_four b row col 1 1 p \/ line_of_four b row col 1 (-1) p.

(** Column [c] exists and its top cell is empty. *)
Definition legal (b : board) (c : Z) : Prop :=
  0 <= c < COLS /\ get_cell b 0 c = Some EMPTY.

(** The top cell of column [c] holds a mark. *)
Definition top_occupied (b : board) (c : Z) : Prop :=
  exists x : Z, get_cell b 0 c = Some x /\ x <> EMPTY.

(** No column has an empty top cell. *)
Definition board_full (b : board) : Prop :=
  forall c : Z, 0 <= c < COLS -> get_cell b 0 c <> Some EMPTY.

(** [row] is the lowest empty cell of column [col]: it is empty and every
    cell below it (a larger row index) is not. *)
Definition lowest_empty_cell (b : board) (col row : Z) : Prop :=
  0 <= row < ROWS /\ get_cell b row col = Some EMPTY /\
  forall r : Z, row < r < ROWS -> get_cell b r col <> Some EMPTY.

(** Board [b'] is board [b] with the one cell [(row, col)] now holding
    [v]. *)
Definition one_cell_written (b b' : board) (row col v : Z) : Prop :=
  get_cell b' row col = Some v /\
  forall r c : Z, (r <> row \/ c <> col) -> get_cell b' r c = get_cell b r c.

(** Mark [p], dropped into column [c], lands on a cell that completes
    four in a line for [p] according to the engine's own [checkWin]. *)
Definition wins_by_landing (b : board) (c p : Z) : Prop :=
  exists b' : board,
    set_cell b (landing_row b c) c p = Done b' /\
    checkWin b' (landing_row b c) c p = Done true.

End Rules.

(** ** The session lifecycle in the specification's words *)

Module Lifecycle.
Import Matchmaking.

(** The participant of [s] that the identity [name] stands for: the
    first of [player1], [player2] with that username. *)
Definition participant_named (s : session) (name : string)
  : option participant :=
  if String.eqb (username (player1 s)) name then Some (player1 s)
  else if String.eqb (username (player2 s)) name then Some (player2 s)
  else None.

(** The length of the grace window, in ms. *)
Definition grace_window : Z := 30000.

(** Time elapsed at [now] since the disconnect time on record for [p];
    a participant with no time on record ([null]) counts from 0. *)
Definition since_disconnect (now : Z) (p : participant) : Z :=
  now - to_number (disconnectTime p).

(** The participant of [s] other than the one [isPlayer1] points at. *)
Definition other_participant (s : session) (isPlayer1 : bool) : participant :=
  if isPlayer1 then player2 s else player1 s.
Definition this_participant (s : session) (isPlayer1 : bool) : participant :=
  if isPlayer1 then player1 s else player2 s.

(** The identity [name] takes part in the session. *)
Definition plays_in (s : session) (name : string) : Prop :=
  username (player1 s) = name \/ username (player2 s) = name.

(** A wait timer for socket [x] is pending. *)
Definition wait_timer_pending (st : t) (x : string) : Prop :=
  exists h d, pending (timers st) !! h = Some (Timer d (SpawnBot x)).

End Lifecycle.

(** ** Auxiliary definitions of the proofs *)

Module Aux.
Import GameEngine.

(** A quantity that every step of a [scan] lowers while it stays on the
    grid, for a direction other than [(0, 0)]. *)
Definition potential (dr dc r c : Z) : Z :=
  if 0 <? dr then ROWS - r
  else if dr <? 0 then r + 1
  else if 0 <? dc then COLS - c
  else c + 1.

(** The score [evaluateMove] returns, as a plain number. *)
Definition score_of (s : t) (col player : Z) : Z :=
  match evaluateMove s col player with
  | Done (score, _) => score
  | _ => 0
  end.

End Aux.

Module Invariants.
Import Matchmaking.

(** Every pending wait timer belongs to a socket that is still in the
    queue and is the one [matchmakingTimeouts] records for it; handles
    not yet handed out are not pending. *)
Definition tracked (w : list (string * waiting)) (mt : gmap string nat)
    (tm : timer_heap) : Prop :=
  (forall h d x, pending tm !! h = Some (Timer d (SpawnBot x)) ->
                 map_has w x = true /\ mt !! x = Some h) /\
  (forall h, (next_handle tm <= h)%nat -> pending tm !! h = None).

Definition wait_timers_tracked (st : t) : Prop :=
  tracked (waitingPlayers st) (matchmakingTimeouts st) (timers st).

End Invariants.

(** ** States used as examples *)

Module Examples.

(** The value a call returned, [d] standing in for a call that did not
    return. *)
Definition returned {A : Type} (d : A) (o : outcome A) : A :=
  match o with
  | Done a => a
  | _ => d
  end.

(** The engine after the moves 0,1,0,1,0,1: three marks of each player in
    columns 0 and 1. *)
Definition three_each : GameEngine.t :=
  Eval vm_compute in
    snd (returned ([], GameEngine.new)
           (GameEngine.play GameEngine.new [0; 1; 0; 1; 0; 1])).

(** The engine after the moves 0,1,0,1,0,1,0: the first player has four
    in column 0. *)
Definition won_vertical : GameEngine.t :=
  Eval vm_compute in
    snd (returned ([], GameEngine.new)
           (GameEngine.play GameEngine.new [0; 1; 0; 1; 0; 1; 0])).

(** The service after socket s1 joined as alice in human mode at time 0
    and found nobody to pair with. *)
Definition alice_waiting : Matchmaking.t :=
  Eval vm_compute in
    snd (returned (Matchmaking.JoinWaiting, Matchmaking.new)
           (Matchmaking.joinQueue Matchmaking.new 0 "g1" "s1" "alice" "human")).

(** The service after socket s1 joined as alice in bot mode at time 0:
    session g1 against the bot. *)
Definition alice_playing : Matchmaking.t :=
  Eval vm_compute in
    snd (returned (Matchmaking.JoinWaiting, Matchmaking.new)
           (Matchmaking.joinQueue Matchmaking.new 0 "g1" "s1" "alice" "bot")).

(** [alice_waiting] after socket s2 joined as bob in human mode at time 1
    and was paired with alice in session g2. *)
Definition alice_bob_paired : Matchmaking.t :=
  Eval vm_compute in
    snd (returned (Matchmaking.JoinWaiting, Matchmaking.new)
           (Matchmaking.joinQueue alice_waiting 1 "g2" "s2" "bob" "human")).

(** [alice_playing] after socket s1 dropped at time 1000. *)
Definition alice_dropped : Matchmaking.t :=
  Eval vm_compute in snd (Matchmaking.markDisconnected alice_playing 1000 "s1").

End Examples.

(** ** Positions: what the engine keeps true of its board *)

Module Position.
Import GameEngine Rules.

(** Cell [(r, c)] holds a mark. *)
Definition occupied (b : board) (r c : Z) : Prop :=
  exists x : Z, get_cell b r c = Some x /\ x <> EMPTY.

(** Marks rest on the bottom row or on another mark. *)
Definition settled (b : board) : Prop :=
  forall r c : Z, occupied b r c -> r + 1 < ROWS -> occupied b (r + 1) c.

(** Every cell is empty or holds the mark of one of the two players. *)
Definition marks_valid (b : board) : Prop :=
  forall r c x : Z, get_cell b r c = Some x ->
                    x = EMPTY \/ x = PLAYER1 \/ x = PLAYER2.

(** The 42 coordinates of the grid, row by row. *)
Definition cells : list (Z * Z) :=
  flat_map (fun r => List.map (fun c => (r, c)) (seqZ 0 COLS)) (seqZ 0 ROWS).

(** The number of cells of the grid that are not empty. *)
Definition count_marks (b : board) : nat :=
  length (List.filter (fun rc => negb (cell_is b (fst rc) (snd rc) EMPTY)) cells).

(** Somewhere on the board mark [p] has four in a line. *)
Definition has_four (b : board) (p : Z) : Prop :=
  exists row col : Z, holds b p row col /\ four_connected b row col p.

(** The engine states that calls of [dropPiece] lead to from a new
    engine. *)
Definition played (s : t) : Prop :=
  exists (cols : list Z) (rs : list drop_result), play new cols = Done (rs, s).

(** The other player's mark, as [dropPiece] computes it at the end of a
    move. *)
Definition next_player (p : Z) : Z :=
  if p =? PLAYER1 then PLAYER2 else PLAYER1.

(** The move log and the board agree: as many recorded moves as marks,
    each recorded cell holding the recorded mark. *)
Definition log_agrees (s : t) : Prop :=
  length (moveHistory s) = count_marks (brd s) /\
  (forall m, In m (moveHistory s) ->
     get_cell (brd s) (mv_row m) (mv_col m) = Some (mv_player m) /\
     (mv_player m = PLAYER1 \/ mv_player m = PLAYER2)).

(** What every engine of a session satisfies, whether or not the session
    was ended from outside: a six-by-seven board of valid, settled marks,
    the turn of player 1 or 2, and a move log that agrees with the board. *)
Definition sound (s : t) : Prop :=
  wf_board (brd s) /\ marks_valid (brd s) /\ settled (brd s) /\
  (currentPlayer s = PLAYER1 \/ currentPlayer s = PLAYER2) /\
  log_agrees s.

End Position.

(** ** MatchmakingService.js, the remaining methods *)

Module Housekeeping.
Import Matchmaking.

(** [getWaitingPlayerCount()] *)
Definition getWaitingPlayerCount (st : t) : nat := length (waitingPlayers st).

(** The truth value JavaScript gives [gameEngine.winner]: [null] and 0
    are false. *)
Definition truthy (w : option Z) : bool :=
  match w with
  | Some x => negb (x =? 0)
  | None => false
  end.

(** [endGame(sessionId)]; [None] is the [null] it returns for a missing
    session. *)
Definition endGame (st : t) (now : Z) (sid : string) : option session * t :=
  match map_get (activeSessions st) sid with
  | None => (None, st)
  | Some s =>
      let s1 := with_ending s (Some now) (result s) (winner s) in
      let s2 :=
        if GameEngine.isDraw (gameEngine s1)
        then with_ending s1 (endTime s1) (Some "draw"%string) (winner s1)
        else if truthy (GameEngine.winner (gameEngine s1))
        then
          let winnerIsPlayer1 :=
            GameEngine.currentPlayer (gameEngine s1) =? GameEngine.PLAYER1 in
          with_ending s1 (endTime s1) (Some "win"%string)
            (Some (if winnerIsPlayer1 then username (player1 s1)
                   else username (player2 s1)))
        else s1 in
      (Some s2, with_activeSessions st (map_set (activeSessions st) sid s2))
  end.

(** The test of [cleanupOldSessions] on one session:
    [session.gameEngine.gameOver && (now - session.endTime) > maxAgeMs]. *)
Definition expired (now maxAgeMs : Z) (s : session) : bool :=
  GameEngine.gameOver (gameEngine s) && (now - to_number (endTime s) >? maxAgeMs).

(** [cleanupOldSessions(maxAgeMs)]: the loop runs over the entries of the
    map and deletes from the map, by key, each entry that passes the
    test. *)
Definition cleanupOldSessions (st : t) (now maxAgeMs : Z) : t :=
  with_activeSessions st
    (fold_left
       (fun m kv => if expired now maxAgeMs (snd kv) then map_delete m (fst kv) else m)
       (activeSessions st) (activeSessions st)).

End Housekeeping.

(** ** What the server keeps true of its state *)

Module ServerState.
Import Matchmaking.

(** The keys of a map, in its order. *)
Definition keys {V : Type} (m : list (string * V)) : list string := List.map fst m.

(** Every session is stored once, under its own id, and its engine is
    sound. *)
Definition sessions_sound (st : t) : Prop :=
  NoDup (keys (activeSessions st)) /\
  forall key s, In (key, s) (activeSessions st) ->
                sessionId s = key /\ Position.sound (gameEngine s).

(** At most one socket is waiting, under its own id, and not in bot
    mode. *)
Definition queue_sound (st : t) : Prop :=
  (length (waitingPlayers st) <= 1)%nat /\
  forall key w, In (key, w) (waitingPlayers st) ->
                w_socketId w = key /\ w_gameMode w <> "bot"%string.

(** The session id an event brings along for a session it may create. *)
Definition fresh_id (ev : Handlers.event) : option string :=
  match ev with
  | Handlers.EvJoinQueue _ _ _ fresh => Some fresh
  | Handlers.EvTimer _ fresh => Some fresh
  | _ => None
  end.

(** The parts of a session that say who plays in it and since when. *)
Definition same_game (s s' : session) : Prop :=
  sessionId s' = sessionId s /\
  username (player1 s') = username (player1 s) /\
  username (player2 s') = username (player2 s) /\
  isVsBot s' = isVsBot s /\ startTime s' = startTime s.

(** How one event may change the engine of a session: not at all, by
    the flag a forfeit sets, or by one call of [dropPiece]. *)
Definition engine_moves (g g' : GameEngine.t) : Prop :=
  g' = g \/ g' = GameEngine.with_gameOver g true \/
  exists col r, GameEngine.dropPiece g col = Done (r, g').

(** How one event may change the map of sessions: not at all, by storing
    a new session under the id the event brings, or by storing a session
    of the map again under its key. *)
Definition sessions_change (ev : Handlers.event)
    (m m' : list (string * session)) : Prop :=
  m' = m \/
  (exists f s, fresh_id ev = Some f /\ sessionId s = f /\
               gameEngine s = GameEngine.new /\ m' = map_set m f s) \/
  (exists key s0 s, In (key, s0) m /\ same_game s0 s /\
                    engine_moves (gameEngine s0) (gameEngine s) /\
                    m' = map_set m key s).

End ServerState.

(** ** Scenes: states the server reaches through a few events *)

Module Scenes.
Import Matchmaking Handlers Examples.

(** Delivers the events in order, each at its time. *)
Fixpoint deliver_all (st : t) (evs : list (Z * event)) : outcome t :=
  match evs with
  | [] => Done st
  | (now, ev) :: rest => st1 ← deliver st now ev; deliver_all st1 rest
  end.

(** [alice_bob_paired] after bob (socket s2, player 1) and alice (socket
    s1, player 2) played columns 0 and 1 three times each in session g2. *)
Definition three_each_paired : t :=
  Eval vm_compute in
    returned new
      (deliver_all alice_bob_paired
         [(10, EvMakeMove "s2" "g2" 0); (11, EvMakeMove "s1" "g2" 1);
          (12, EvMakeMove "s2" "g2" 0); (13, EvMakeMove "s1" "g2" 1);
          (14, EvMakeMove "s2" "g2" 0); (15, EvMakeMove "s1" "g2" 1)]).

(** [alice_dropped] after the grace timer of alice fired at time 31000:
    session g1 is forfeited. *)
Definition alice_forfeited : t :=
  Eval vm_compute in
    returned new (deliver_all alice_dropped [(31000, EvTimer 0 "g9")]).

End Scenes.


(** * Properties *)

Lemma bind_Done {A B} (a : A) (k : A -> outcome B) : (Done a ≫= k) = k a.
Proof. reflexivity. Qed.

Section EngineFacts.
Import GameEngine Rules.

Lemma cell_is_spec b r c v : cell_is b r c v = true <-> get_cell b r c = Some v.
Proof.
  unfold cell_is. destruct (get_cell b r c) as [x|]; [|naive_solver].
  rewrite Z.eqb_eq. naive_solver.
Qed.

Lemma cell_is_false b r c v : cell_is b r c v = false <-> get_cell b r c <> Some v.
Proof.
  rewrite <- cell_is_spec. destruct (cell_is b r c v); naive_solver.
Qed.

Lemma lowest_empty_spec b col n :
  (lowest_empty b col n = -1 /\
   forall r, 0 <= r < Z.of_nat n -> get_cell b r col <> Some EMPTY) \/
  (0 <= lowest_empty b col n < Z.of_nat n /\
   get_cell b (lowest_empty b col n) col = Some EMPTY /\
   forall r, lowest_empty b col n < r < Z.of_nat n ->
             get_cell b r col <> Some EMPTY).
Proof.
  induction n as [|n IH]; simpl lowest_empty.
  - left. split; [done|]. intros r Hr. lia.
  - destruct (cell_is b (Z.of_nat n) col EMPTY) eqn:E.
    + right. apply cell_is_spec in E. split; [lia|]. split; [done|].
      intros r Hr. lia.
    + apply cell_is_false in E.
      destruct IH as [[H1 H2]|(H1 & H2 & H3)].
      * left. split; [done|]. intros r Hr.
        destruct (decide (r = Z.of_nat n)) as [->|]; [done|]. apply H2. lia.
      * right. split; [lia|]. split; [done|]. intros r Hr.
        destruct (decide (r = Z.of_nat n)) as [->|]; [done|]. apply H3. lia.
Qed.

Lemma get_cell_Some b r c x :
  get_cell b r c = Some x ->
  0 <= r /\ 0 <= c /\
  exists rw, b !! Z.to_nat r = Some rw /\ rw !! Z.to_nat c = Some x.
Proof.
  unfold get_cell. destruct (r <? 0) eqn:Hr, (c <? 0) eqn:Hc; simpl; try done.
  destruct (b !! Z.to_nat r) as [rw|] eqn:E; [|done].
  intros H. repeat split; [lia..|]. eauto.
Qed.

Lemma set_cell_existing b r c x v :
  get_cell b r c = Some x ->
  exists b', set_cell b r c v = Done b' /\ one_cell_written b b' r c v /\
             (wf_board b -> wf_board b').
Proof.
  intros H. destruct (get_cell_Some _ _ _ _ H) as (Hr & Hc & rw & Hrw & Hx).
  unfold set_cell.
  replace ((r <? 0) || (c <? 0)) with false by (symmetry; apply orb_false_intro; lia).
  rewrite Hrw.
  pose proof (lookup_lt_Some _ _ _ Hx) as Hlen.
  pose proof (lookup_lt_Some _ _ _ Hrw) as Hlen'.
  replace (Z.to_nat c <? length rw)%nat with true by (symmetry; apply Nat.ltb_lt; lia).
  eexists. split; [done|]. split; [split|].
  - unfold get_cell.
    replace ((r <? 0) || (c <? 0)) with false by (symmetry; apply orb_false_intro; lia).
    rewrite list_lookup_insert_eq by done.
    by rewrite list_lookup_insert_eq.
  - intros r' c' Hne. unfold get_cell.
    destruct ((r' <? 0) || (c' <? 0)) eqn:E; [done|].
    apply orb_false_elim in E as [E1 E2].
    destruct (decide (r' = r)) as [->|Hrr].
    + rewrite list_lookup_insert_eq by done. rewrite Hrw.
      apply list_lookup_insert_ne. lia.
    + rewrite list_lookup_insert_ne by lia. done.
  - intros [Hl Hall]. split; [by rewrite length_insert|].
    apply Forall_insert; [done|]. rewrite length_insert.
    by eapply Forall_lookup_1 in Hall.
Qed.
End EngineFacts.

Section ScanFacts.
Import GameEngine Rules Aux.

Lemma set_cell_same b r c x :
  get_cell b r c = Some x -> set_cell b r c x = Done b.
Proof.
  intros H. destruct (get_cell_Some _ _ _ _ H) as (Hr & Hc & rw & Hrw & Hx).
  unfold set_cell.
  replace ((r <? 0) || (c <? 0)) with false by (symmetry; apply orb_false_intro; lia).
  rewrite Hrw.
  pose proof (lookup_lt_Some _ _ _ Hx) as Hlen.
  replace (Z.to_nat c <? length rw)%nat with true by (symmetry; apply Nat.ltb_lt; lia).
  f_equal. rewrite (list_insert_id rw) by done. by apply list_insert_id.
Qed.

Lemma set_cell_twice b r c v w b1 :
  set_cell b r c v = Done b1 -> set_cell b1 r c w = set_cell b r c w.
Proof.
  unfold set_cell. destruct ((r <? 0) || (c <? 0)) eqn:E; [done|].
  destruct (b !! Z.to_nat r) as [rw|] eqn:Hrw; [|done].
  destruct (Z.to_nat c <? length rw)%nat eqn:Hlen; [|done].
  intros [= <-]. pose proof (lookup_lt_Some _ _ _ Hrw) as Hl.
  rewrite list_lookup_insert_eq by done. rewrite length_insert, Hlen.
  by rewrite !list_insert_insert_eq.
Qed.

(** What one [while] loop of [countConsecutive] computes: it adds to
    [count] the number [m] of cells holding [player] it walked over, and
    the cell after them does not hold [player]. *)
Lemma scan_spec budget b p dr dc : forall count r c n,
  scan budget b p dr dc count r c = Done n ->
  exists m : Z, 0 <= m /\ n = count + m /\
    (forall k, 0 <= k < m -> holds b p (r + k * dr) (c + k * dc)) /\
    ~ holds b p (r + m * dr) (c + m * dc).
Proof.
  induction budget as [|budget IH]; intros count r c n; simpl; [done|].
  destruct (in_bounds r c) eqn:Hb.
  - destruct (cell_is b r c p) eqn:Hc.
    + intros H. apply IH in H as (m & Hm & -> & Hall & Hstop).
      exists (m + 1). split; [lia|]. split; [lia|]. split.
      * intros k Hk. destruct (decide (k = 0)) as [->|].
        -- rewrite !Z.mul_0_l, !Z.add_0_r. split; [done|]. by apply cell_is_spec.
        -- replace (r + k * dr) with (r + dr + (k - 1) * dr) by ring.
           replace (c + k * dc) with (c + dc + (k - 1) * dc) by ring.
           apply Hall. lia.
      * replace (r + (m + 1) * dr) with (r + dr + m * dr) by ring.
        replace (c + (m + 1) * dc) with (c + dc + m * dc) by ring. done.
    + intros [= <-]. exists 0. split; [lia|]. split; [lia|]. split; [intros; lia|].
      rewrite !Z.mul_0_l, !Z.add_0_r. intros [_ Hh].
      apply cell_is_spec in Hh. congruence.
  - intros [= <-]. exists 0. split; [lia|]. split; [lia|]. split; [intros; lia|].
    rewrite !Z.mul_0_l, !Z.add_0_r. intros [Hh _]. congruence.
Qed.

Lemma scan_returns b p dr dc : dr <> 0 \/ dc <> 0 ->
  forall budget count r c,
    (in_bounds r c = true -> potential dr dc r c < Z.of_nat budget) ->
    (1 <= budget)%nat ->
    exists n, scan budget b p dr dc count r c = Done n.
Proof.
  intros Hdir. induction budget as [|budget IH]; intros count r c Hpot Hpos; [lia|].
  simpl. destruct (in_bounds r c) eqn:Hb; [|eauto].
  destruct (cell_is b r c p); [|eauto].
  specialize (Hpot eq_refl).
  unfold in_bounds, ROWS, COLS in Hb.
  apply andb_prop in Hb as [Hb Hb4]. apply andb_prop in Hb as [Hb Hb3].
  apply andb_prop in Hb as [Hb1 Hb2].
  apply IH.
  - intros Hb'. unfold in_bounds, ROWS, COLS in Hb'.
    apply andb_prop in Hb' as [Hb' Hb4']. apply andb_prop in Hb' as [Hb' Hb3'].
    apply andb_prop in Hb' as [Hb1' Hb2'].
    unfold potential, ROWS, COLS in *.
    destruct (0 <? dr) eqn:E1; [lia|].
    destruct (dr <? 0) eqn:E2; [lia|].
    destruct (0 <? dc) eqn:E3; [lia|].
    lia.
  - unfold potential, ROWS, COLS in Hpot.
    destruct (0 <? dr) eqn:E1; [lia|].
    destruct (dr <? 0) eqn:E2; [lia|].
    destruct (0 <? dc) eqn:E3; lia.
Qed.

Lemma potential_bound dr dc r c :
  in_bounds r c = true -> potential dr dc r c < Z.of_nat scan_budget.
Proof.
  unfold in_bounds, potential, scan_budget, ROWS, COLS. intros Hb.
  apply andb_prop in Hb as [Hb Hb4]. apply andb_prop in Hb as [Hb Hb3].
  apply andb_prop in Hb as [Hb1 Hb2].
  destruct (0 <? dr), (dr <? 0), (0 <? dc); lia.
Qed.

(** [countConsecutive] returns for every direction other than [(0, 0)],
    with the length of the longest stretch of [player] cells around
    [(row, col)]: [fwd] cells ahead, [bwd] cells behind, and the cells
    next to either end do not hold [player]. *)
Lemma countConsecutive_spec b row col dr dc p :
  dr <> 0 \/ dc <> 0 ->
  exists fwd bwd : Z,
    0 <= fwd /\ 0 <= bwd /\
    countConsecutive b row col dr dc p = Done (1 + fwd + bwd) /\
    (forall k, 1 <= k <= fwd -> holds b p (row + k * dr) (col + k * dc)) /\
    ~ holds b p (row + (fwd + 1) * dr) (col + (fwd + 1) * dc) /\
    (forall k, 1 <= k <= bwd -> holds b p (row - k * dr) (col - k * dc)) /\
    ~ holds b p (row - (bwd + 1) * dr) (col - (bwd + 1) * dc).
Proof.
  intros Hdir. unfold countConsecutive.
  destruct (scan_returns b p dr dc Hdir scan_budget 1 (row + dr) (col + dc))
    as [n1 H1]; [apply potential_bound | unfold scan_budget, ROWS, COLS; lia |].
  rewrite H1, bind_Done.
  assert (Hneg : - dr <> 0 \/ - dc <> 0) by lia.
  destruct (scan_returns b p (- dr) (- dc) Hneg scan_budget n1 (row - dr) (col - dc))
    as [n2 H2]; [apply potential_bound | unfold scan_budget, ROWS, COLS; lia |].
  rewrite H2.
  apply scan_spec in H1 as (fwd & Hf & -> & Hfa & Hfs).
  apply scan_spec in H2 as (bwd & Hbk & -> & Hba & Hbs).
  exists fwd, bwd. split; [done|]. split; [done|]. split; [f_equal; lia|].
  split; [|split; [|split]].
  - intros k Hk.
    replace (row + k * dr) with (row + dr + (k - 1) * dr) by ring.
    replace (col + k * dc) with (col + dc + (k - 1) * dc) by ring.
    apply Hfa. lia.
  - replace (row + (fwd + 1) * dr) with (row + dr + fwd * dr) by ring.
    replace (col + (fwd + 1) * dc) with (col + dc + fwd * dc) by ring. done.
  - intros k Hk.
    replace (row - k * dr) with (row - dr + (k - 1) * - dr) by ring.
    replace (col - k * dc) with (col - dc + (k - 1) * - dc) by ring.
    apply Hba. lia.
  - replace (row - (bwd + 1) * dr) with (row - dr + bwd * - dr) by ring.
    replace (col - (bwd + 1) * dc) with (col - dc + bwd * - dc) by ring. done.
Qed.
End ScanFacts.

Section WinFacts.
Import GameEngine Rules Aux.

Lemma count_four_iff b row col dr dc p :
  dr <> 0 \/ dc <> 0 -> holds b p row col ->
  exists n, countConsecutive b row col dr dc p = Done n /\
            (4 <= n <-> line_of_four b row col dr dc p).
Proof.
  intros Hdir Hcell.
  destruct (countConsecutive_spec b row col dr dc p Hdir)
    as (fwd & bwd & Hf & Hb & Hcount & Hfa & Hfs & Hba & Hbs).
  exists (1 + fwd + bwd). split; [done|]. split.
  - intros Hn. exists (- bwd), fwd. split; [lia|]. split; [lia|].
    intros k Hk. destruct (Z.lt_trichotomy k 0) as [Hneg|[->|Hpos]].
    + replace (row + k * dr) with (row - (- k) * dr) by ring.
      replace (col + k * dc) with (col - (- k) * dc) by ring.
      apply Hba. lia.
    + by rewrite !Z.mul_0_l, !Z.add_0_r.
    + apply Hfa. lia.
  - intros (lo & hi & Hlohi & Hlen & Hall).
    assert (hi <= fwd) as Hhi.
    { destruct (Z_le_gt_dec hi fwd) as [|Hgt]; [done|].
      exfalso. apply Hfs, Hall. lia. }
    assert (- bwd <= lo) as Hlo.
    { destruct (Z_le_gt_dec (- bwd) lo) as [|Hgt]; [done|].
      exfalso. apply Hbs.
      replace (row - (bwd + 1) * dr) with (row + (- (bwd + 1)) * dr) by ring.
      replace (col - (bwd + 1) * dc) with (col + (- (bwd + 1)) * dc) by ring.
      apply Hall. lia. }
    lia.
Qed.

Lemma checkWin_returns b row col p : exists v, checkWin b row col p = Done v.
Proof.
  unfold checkWin.
  destruct (countConsecutive_spec b row col 0 1 p) as (f1 & b1 & _ & _ & -> & _); [lia|].
  rewrite bind_Done. destruct (_ >=? 4); [eauto|].
  destruct (countConsecutive_spec b row col 1 0 p) as (f2 & b2 & _ & _ & -> & _); [lia|].
  rewrite bind_Done. destruct (_ >=? 4); [eauto|].
  destruct (countConsecutive_spec b row col 1 1 p) as (f3 & b3 & _ & _ & -> & _); [lia|].
  rewrite bind_Done. destruct (_ >=? 4); [eauto|].
  destruct (countConsecutive_spec b row col 1 (-1) p) as (f4 & b4 & _ & _ & -> & _); [lia|].
  rewrite bind_Done. destruct (_ >=? 4); eauto.
Qed.

Lemma checkWin_spec b row col p :
  holds b p row col ->
  exists v, checkWin b row col p = Done v /\
            (v = true <-> four_connected b row col p).
Proof.
  intros Hcell. unfold checkWin, four_connected.
  destruct (count_four_iff b row col 0 1 p) as (n1 & -> & H1); [lia|done|].
  destruct (count_four_iff b row col 1 0 p) as (n2 & -> & H2); [lia|done|].
  destruct (count_four_iff b row col 1 1 p) as (n3 & -> & H3); [lia|done|].
  destruct (count_four_iff b row col 1 (-1) p) as (n4 & -> & H4); [lia|done|].
  rewrite !bind_Done.
  destruct (n1 >=? 4) eqn:E1; [exists true; split; [done|]; split; [|done]; intros _; left; apply H1; lia|].
  destruct (n2 >=? 4) eqn:E2; [exists true; split; [done|]; split; [|done]; intros _; right; left; apply H2; lia|].
  destruct (n3 >=? 4) eqn:E3; [exists true; split; [done|]; split; [|done]; intros _; right; right; left; apply H3; lia|].
  destruct (n4 >=? 4) eqn:E4; [exists true; split; [done|]; split; [|done]; intros _; right; right; right; apply H4; lia|].
  exists false. split; [done|]. split; [done|].
  intros [H|[H|[H|H]]]; [apply H1 in H|apply H2 in H|apply H3 in H|apply H4 in H]; lia.
Qed.
End WinFacts.

Section DropFacts.
Import GameEngine Rules Aux.

Lemma wf_new : wf_board (brd new).
Proof. split; [done|]. simpl. repeat constructor. Qed.

Lemma wf_get_cell b r c :
  wf_board b -> 0 <= r < ROWS -> 0 <= c < COLS ->
  exists x, get_cell b r c = Some x.
Proof.
  intros [Hlen Hall] Hr Hc. unfold get_cell.
  replace ((r <? 0) || (c <? 0)) with false by (symmetry; apply orb_false_intro; lia).
  destruct (lookup_lt_is_Some_2 b (Z.to_nat r)) as [rw Hrw]; [lia|].
  rewrite Hrw. eapply Forall_lookup_1 in Hall; [|done].
  apply lookup_lt_is_Some_2. lia.
Qed.

Lemma isBoardFull_spec b : isBoardFull b = true <-> board_full b.
Proof.
  unfold isBoardFull, board_full, columns. rewrite forallb_forall. split.
  - intros H c Hc. specialize (H c). rewrite negb_true_iff, cell_is_false in H.
    apply H, list_elem_of_In, elem_of_seqZ. lia.
  - intros H c Hc. apply list_elem_of_In, elem_of_seqZ in Hc.
    rewrite negb_true_iff, cell_is_false. apply H. lia.
Qed.

Lemma landing_row_legal b col :
  get_cell b 0 col = Some EMPTY -> lowest_empty_cell b col (landing_row b col).
Proof.
  intros Htop. unfold landing_row, lowest_empty_cell.
  destruct (lowest_empty_spec b col (Z.to_nat ROWS)) as [[_ Hnone]|(H1 & H2 & H3)].
  - exfalso. apply (Hnone 0); [unfold ROWS; lia | done].
  - unfold ROWS in *. split; [lia|]. split; [done|]. intros r Hr. apply H3. lia.
Qed.
End DropFacts.

Section DropClaim.
Import GameEngine Rules Aux.

(** The full contract of [dropPiece], shared by the statements about
    accepted and rejected moves. *)
Lemma dropPiece_spec (s : t) (col : Z) :
  wf_board (brd s) ->
  exists r s',
    dropPiece s col = Done (r, s') /\
    (r = Failure "Invalid column" <-> ~ (0 <= col < COLS)) /\
    (r = Failure "Column is full" <-> 0 <= col < COLS /\ top_occupied (brd s) col) /\
    ((exists e, r = Failure e) ->
       brd s' = brd s /\ moveHistory s' = moveHistory s /\
       currentPlayer s' = currentPlayer s /\ gameOver s' = gameOver s /\ s' = s) /\
    (legal (brd s) col ->
       exists row over won draw,
         r = Placed row col over won draw /\
         lowest_empty_cell (brd s) col row /\
         one_cell_written (brd s) (brd s') row col (currentPlayer s) /\
         moveHistory s' = moveHistory s ++ [Move row col (currentPlayer s)] /\
         (over = true <-> four_connected (brd s') row col (currentPlayer s)
                          \/ board_full (brd s'))).
Proof.
  intros Hwf. unfold dropPiece.
  destruct ((col <? 0) || (col >=? COLS)) eqn:Hrange.
  { assert (~ (0 <= col < COLS)) as Hout.
    { apply orb_true_iff in Hrange as [H|H]; lia. }
    exists (Failure "Invalid column"), s. split; [done|].
    split; [done|]. split; [split; [done|tauto]|].
    split; [done|]. intros [Hin _]. tauto. }
  apply orb_false_elim in Hrange as [H1 H2].
  assert (0 <= col < COLS) as Hin by lia.
  destruct (wf_get_cell (brd s) 0 col Hwf ltac:(unfold ROWS; lia) Hin) as [x Hx].
  destruct (cell_is (brd s) 0 col EMPTY) eqn:Htop; simpl negb; cbv iota.
  - apply cell_is_spec in Htop.
    pose proof (landing_row_legal _ _ Htop) as Hlow.
    destruct Hlow as (Hrow & Hempty & Hbelow).
    destruct (set_cell_existing (brd s) (landing_row (brd s) col) col EMPTY
                (currentPlayer s) Hempty) as (b' & Hset & Hwritten & _).
    rewrite Hset, bind_Done.
    assert (holds b' (currentPlayer s) (landing_row (brd s) col) col) as Hholds.
    { split; [|apply Hwritten]. unfold in_bounds.
      repeat (apply andb_true_intro; split); lia. }
    destruct (checkWin_spec _ _ _ _ Hholds) as (v & Hv & Hiff).
    rewrite Hv, bind_Done.
    assert (forall over won draw s',
               brd s' = b' ->
               moveHistory s' = moveHistory s ++
                 [Move (landing_row (brd s) col) col (currentPlayer s)] ->
               (over = true <-> four_connected b' (landing_row (brd s) col) col (currentPlayer s)
                                \/ board_full b') ->
               exists r s0,
                 Done (Placed (landing_row (brd s) col) col over won draw, s') = Done (r, s0) /\
                 (r = Failure "Invalid column" <-> ~ (0 <= col < COLS)) /\
                 (r = Failure "Column is full" <-> 0 <= col < COLS /\ top_occupied (brd s) col) /\
                 ((exists e, r = Failure e) ->
                  brd s0 = brd s /\ moveHistory s0 = moveHistory s /\
                  currentPlayer s0 = currentPlayer s /\ gameOver s0 = gameOver s /\ s0 = s) /\
                 (legal (brd s) col ->
                  exists row over won draw,
                    r = Placed row col over won draw /\
                    lowest_empty_cell (brd s) col row /\
                    one_cell_written (brd s) (brd s0) row col (currentPlayer s) /\
                    moveHistory s0 = moveHistory s ++ [Move row col (currentPlayer s)] /\
                    (over = true <-> four_connected (brd s0) row col (currentPlayer s)
                                     \/ board_full (brd s0)))) as Hfinish.
    { intros over won draw s' Hb Hh Hover. eexists _, _. split; [done|].
      split; [split; [done|tauto]|].
      split; [split; [done|]|].
      { intros [_ (y & Hy & Hne)]. congruence. }
      split; [intros [e He]; done|].
      intros _. exists (landing_row (brd s) col), over, won, draw.
      rewrite Hb. done. }
    destruct v.
    + apply Hfinish; [done|done|]. split; [|done]. intros _. left. by apply Hiff.
    + destruct (isBoardFull b') eqn:Hfull.
      * apply Hfinish; [done|done|]. split; [|done]. intros _. right.
        by apply isBoardFull_spec.
      * apply Hfinish; [done|done|]. split; [done|].
        intros [H|H]; [by apply Hiff in H|].
        apply isBoardFull_spec in H. congruence.
  - apply cell_is_false in Htop.
    exists (Failure "Column is full"), s. split; [done|].
    split; [split; [done|tauto]|].
    split; [split; [|done]|].
    { intros _. split; [done|]. exists x. split; [done|]. congruence. }
    split; [done|]. intros [_ Hl]. congruence.
Qed.
(** [dropPiece] keeps the board six by seven, so every board reached from
    a new engine has that shape. *)
Lemma dropPiece_keeps_shape (s : t) (col : Z) r s' :
  wf_board (brd s) -> dropPiece s col = Done (r, s') -> wf_board (brd s').
Proof.
  intros Hwf. unfold dropPiece.
  destruct ((col <? 0) || (col >=? COLS)); [by intros [= <- <-]|].
  destruct (cell_is (brd s) 0 col EMPTY) eqn:Htop; simpl negb; cbv iota;
    [|by intros [= <- <-]].
  apply cell_is_spec in Htop.
  destruct (landing_row_legal _ _ Htop) as (_ & Hempty & _).
  destruct (set_cell_existing _ _ _ _ (currentPlayer s) Hempty) as (b' & -> & _ & Hshape).
  rewrite bind_Done.
  destruct (checkWin b' (landing_row (brd s) col) col (currentPlayer s))
    as [[]| |]; [| |done..]; rewrite bind_Done.
  - intros [= <- <-]. by apply Hshape.
  - destruct (isBoardFull b'); intros [= <- <-]; by apply Hshape.
Qed.

Lemma play_keeps_shape (cols : list Z) : forall s rs s',
  wf_board (brd s) -> play s cols = Done (rs, s') -> wf_board (brd s').
Proof.
  induction cols as [|col cols IH]; intros s rs s' Hwf; simpl.
  - by intros [= <- <-].
  - destruct (dropPiece s col) as [[r s1]| |] eqn:Hdrop; [|done..].
    rewrite bind_Done.
    destruct (play s1 cols) as [[rs1 s2]| |] eqn:Hplay; [|done..].
    rewrite bind_Done. intros [= <- <-].
    eapply IH; [|done]. by eapply dropPiece_keeps_shape.
Qed.

(** C1.  For every engine state with a six-by-seven board and every column
    [col], [dropPiece col] returns the error "Invalid column" exactly when
    [col] is outside [0, 7), and the error "Column is full" exactly when
    [col] is in range and the top cell of the column is occupied; in both
    error cases the board, the move history, the current player and the
    game-over status (indeed the whole engine) are unchanged.  Otherwise it
    writes the current player's mark into the lowest empty cell of the
    column, appends one move record, and returns the landing row together
    with a terminal flag, which is set exactly when the mark completes four
    in a line or the board is full. *)
Theorem dropPiece_contract (s : t) (col : Z) :
  wf_board (brd s) ->
  exists r s',
    dropPiece s col = Done (r, s') /\
    (r = Failure "Invalid column" <-> ~ (0 <= col < COLS)) /\
    (r = Failure "Column is full" <-> 0 <= col < COLS /\ top_occupied (brd s) col) /\
    ((exists e, r = Failure e) ->
       brd s' = brd s /\ moveHistory s' = moveHistory s /\
       currentPlayer s' = currentPlayer s /\ gameOver s' = gameOver s /\ s' = s) /\
    (legal (brd s) col ->
       exists row over won draw,
         r = Placed row col over won draw /\
         lowest_empty_cell (brd s) col row /\
         one_cell_written (brd s) (brd s') row col (currentPlayer s) /\
         moveHistory s' = moveHistory s ++ [Move row col (currentPlayer s)] /\
         (over = true <-> four_connected (brd s') row col (currentPlayer s)
                          \/ board_full (brd s'))).
Proof. exact (dropPiece_spec s col). Qed.

Lemma dropPiece_contract_witness :
  wf_board (brd GameEngine.new) /\
  exists r s',
    dropPiece GameEngine.new 3 = Done (r, s') /\
    (r = Failure "Invalid column" <-> ~ (0 <= 3 < COLS)).
Proof.
  assert (wf_board (brd GameEngine.new)) as Hwf
    by (split; [reflexivity | repeat constructor]).
  split; [exact Hwf|].
  destruct (dropPiece_contract GameEngine.new 3 Hwf) as (r & s' & Hrun & Hinv & _).
  exists r, s'. split; [exact Hrun | exact Hinv].
Defined.

End DropClaim.

Section EvaluateFacts.
Import GameEngine Rules Aux.

Lemma with_board_same s : with_board s (brd s) = s.
Proof. by destruct s. Qed.

Lemma countAdjacentPieces_le b row col p : countAdjacentPieces b row col p <= 8.
Proof.
  unfold countAdjacentPieces.
  assert (forall l acc,
    fold_left (fun count '(dr, dc) =>
       let nr := row + dr in
       let nc := col + dc in
       if in_bounds nr nc then
         if cell_is b nr nc p then count + 1 else count
       else count) l acc <= acc + Z.of_nat (length l)) as H.
  { induction l as [|[dr dc] l IH]; intros acc; simpl fold_left; [simpl; lia|].
    etransitivity; [apply IH|]. simpl length.
    destruct (in_bounds _ _); [destruct (cell_is _ _ _ _)|]; lia. }
  etransitivity; [apply H|]. simpl. lia.
Qed.

(** [evaluateMove] hands the engine back as it received it, whatever it
    wrote in between, and its score tells a winning landing from every
    other. *)
Lemma evaluateMove_result s col p :
  exists score,
    evaluateMove s col p = Done (score, s) /\
    (get_cell (brd s) 0 col = Some EMPTY ->
       (wins_by_landing (brd s) col p /\ score = 10000) \/
       (~ wins_by_landing (brd s) col p /\ score <= 8000)).
Proof.
  unfold evaluateMove, wins_by_landing, landing_row.
  destruct (lowest_empty_spec (brd s) col (Z.to_nat ROWS))
    as [[Hrow Hnone]|(Hrow & Hempty & _)].
  - rewrite Hrow. simpl. exists (-1000). split; [done|].
    intros Htop. exfalso. apply (Hnone 0); [unfold ROWS; lia|done].
  - set (row := lowest_empty (brd s) col (Z.to_nat ROWS)) in *.
    replace (row =? -1) with false by (symmetry; apply Z.eqb_neq; lia).
    destruct (set_cell_existing (brd s) row col EMPTY p Hempty) as (b1 & Hb1 & _).
    rewrite Hb1, bind_Done.
    destruct (checkWin_returns b1 row col p) as [w Hw]. rewrite Hw, bind_Done.
    assert (forall bx v, set_cell (brd s) row col v = Done bx ->
                         set_cell bx row col EMPTY = Done (brd s)) as Hback.
    { intros bx v Hbx. rewrite (set_cell_twice _ _ _ _ _ _ Hbx).
      by apply set_cell_same. }
    destruct w.
    + rewrite (Hback _ _ Hb1), bind_Done, with_board_same.
      exists 10000. split; [done|]. intros _. left. split; [|done]. eauto.
    + set (opp := if p =? PLAYER1 then PLAYER2 else PLAYER1).
      destruct (set_cell_existing (brd s) row col EMPTY opp Hempty) as (b2 & Hb2 & _).
      rewrite (set_cell_twice _ _ _ _ _ _ Hb1), Hb2, bind_Done.
      destruct (checkWin_returns b2 row col opp) as [w2 Hw2]. rewrite Hw2, bind_Done.
      assert (~ (exists b', Done b1 = Done b' /\
                            checkWin b' row col p = Done true)) as Hno.
      { intros (b' & [= <-] & Hwin). congruence. }
      destruct w2; rewrite (Hback _ _ Hb2), bind_Done, with_board_same.
      * exists 8000. split; [done|]. intros _. right. split; [exact Hno|lia].
      * eexists. split; [done|]. intros _. right. split; [exact Hno|].
        pose proof (countAdjacentPieces_le (brd s) row col p). lia.
Qed.
End EvaluateFacts.

Section WinClaims.
Import GameEngine Rules Aux Examples.

(** C2.  For every board (so for every reachable one) and every cell
    [(row, col)] of the grid holding mark [p], [checkWin row col p] returns,
    and returns [true] if and only if on at least one of the four axes
    (horizontal, vertical, the two diagonals) the stretch of contiguous cells
    of mark [p] through [(row, col)], counted in both directions and
    including the cell itself, has at least four cells.  In particular the
    moves into columns 0,1,0,1,0,1,0 from a new engine, marks alternating,
    end with a vertical win of the first mark on the seventh move and on no
    earlier one, its marks in rows 5, 4, 3, 2 of column 0. *)
Theorem checkWin_four_in_line (b : board) (row col p : Z) :
  holds b p row col ->
  (exists v, checkWin b row col p = Done v /\
             (v = true <-> four_connected b row col p)) /\
  (exists s7,
      play new [0; 1; 0; 1; 0; 1; 0] =
        Done ([Placed 5 0 false None false; Placed 5 1 false None false;
               Placed 4 0 false None false; Placed 4 1 false None false;
               Placed 3 0 false None false; Placed 3 1 false None false;
               Placed 2 0 true (Some PLAYER1) false], s7) /\
      get_cell (brd s7) 5 0 = Some PLAYER1 /\
      get_cell (brd s7) 4 0 = Some PLAYER1 /\
      get_cell (brd s7) 3 0 = Some PLAYER1 /\
      get_cell (brd s7) 2 0 = Some PLAYER1 /\
      countConsecutive (brd s7) 2 0 1 0 PLAYER1 = Done 4 /\
      line_of_four (brd s7) 2 0 1 0 PLAYER1 /\
      gameOver s7 = true /\ winner s7 = Some PLAYER1).
Proof.
  intros Hcell. split; [by apply checkWin_spec|].
  eexists. split; [vm_compute; reflexivity|].
  repeat (split; [reflexivity|]). split; [|done].
  exists 0, 3. split; [lia|]. split; [lia|]. intros k Hk.
  assert (k = 0 \/ k = 1 \/ k = 2 \/ k = 3) as [-> | [-> | [-> | ->]]] by lia; by vm_compute.
Qed.

Lemma checkWin_four_in_line_witness :
  holds (brd won_vertical) PLAYER1 2 0 /\
  exists v, checkWin (brd won_vertical) 2 0 PLAYER1 = Done v /\
            (v = true <-> four_connected (brd won_vertical) 2 0 PLAYER1).
Proof.
  assert (holds (brd won_vertical) PLAYER1 2 0) as H by (split; reflexivity).
  split; [exact H|].
  exact (proj1 (checkWin_four_in_line (brd won_vertical) 2 0 PLAYER1 H)).
Defined.

(** C4.  For every engine state with a six-by-seven board, every in-range
    column and every mark, [evaluateMove] returns and leaves the engine as it
    found it: every board cell, the move history, the current player and the
    game-over, winner and draw flags have their values from before the call,
    although the landing cell is written and rewritten in between; so a
    second call on the resulting state returns the same score. *)
Theorem evaluateMove_frame (s : t) (col player : Z) :
  wf_board (brd s) -> 0 <= col < COLS ->
  exists score s',
    evaluateMove s col player = Done (score, s') /\
    (forall r c, get_cell (brd s') r c = get_cell (brd s) r c) /\
    brd s' = brd s /\
    moveHistory s' = moveHistory s /\
    currentPlayer s' = currentPlayer s /\
    gameOver s' = gameOver s /\
    winner s' = winner s /\
    isDraw s' = isDraw s /\
    evaluateMove s' col player = Done (score, s').
Proof.
  intros _ _. destruct (evaluateMove_result s col player) as (score & H & _).
  exists score, s. done.
Qed.

Lemma evaluateMove_frame_witness :
  wf_board (brd three_each) /\ 0 <= 1 < COLS /\
  exists score s',
    evaluateMove three_each 1 PLAYER2 = Done (score, s') /\
    brd s' = brd three_each.
Proof.
  assert (wf_board (brd three_each)) as Hwf
    by (split; [reflexivity | repeat constructor]).
  assert (0 <= 1 < COLS) as Hcol by (unfold COLS; lia).
  split; [exact Hwf|]. split; [exact Hcol|].
  destruct (evaluateMove_frame three_each 1 PLAYER2 Hwf Hcol)
    as (score & s' & Hrun & _ & Hboard & _).
  exists score, s'. split; [exact Hrun | exact Hboard].
Defined.
End WinClaims.

Section BotFacts.
Import GameEngine Rules BotEngine Aux.

Lemma getValidMoves_legal b c : In c (getValidMoves b) <-> legal b c.
Proof.
  unfold getValidMoves, legal, columns. rewrite filter_In, cell_is_spec.
  rewrite <- list_elem_of_In, elem_of_seqZ. unfold COLS. intuition lia.
Qed.

Lemma filter_sorted (f : Z -> bool) l :
  StronglySorted Z.lt l -> StronglySorted Z.lt (List.filter f l).
Proof.
  induction 1 as [|x l Hs IH Hall]; simpl; [constructor|].
  destruct (f x); [|done]. constructor; [done|].
  apply List.Forall_forall. intros y Hy. apply filter_In in Hy as [Hy _].
  by eapply List.Forall_forall in Hall.
Qed.

Lemma getValidMoves_sorted b : StronglySorted Z.lt (getValidMoves b).
Proof.
  apply filter_sorted. unfold columns. vm_compute seqZ.
  repeat (constructor; [|repeat constructor; lia]). constructor.
Qed.

Lemma sorted_after l1 x l2 :
  StronglySorted Z.lt (l1 ++ x :: l2) -> forall y, In y l2 -> x < y.
Proof.
  induction l1 as [|a l1 IH]; simpl; intros Hs y Hy.
  - apply StronglySorted_inv in Hs as [_ Hall].
    by eapply List.Forall_forall in Hall.
  - apply StronglySorted_inv in Hs as [Hs _]. by apply IH.
Qed.

Lemma evaluateMove_score_of s c p :
  evaluateMove s c p = Done (score_of s c p, s).
Proof.
  unfold score_of. destruct (evaluateMove_result s c p) as (v & -> & _). done.
Qed.

Lemma score_of_wins s c p :
  get_cell (brd s) 0 c = Some EMPTY ->
  (10000 <= score_of s c p <-> wins_by_landing (brd s) c p).
Proof.
  intros Htop. destruct (evaluateMove_result s c p) as (v & Hv & Hcases).
  unfold score_of. rewrite Hv. destruct (Hcases Htop) as [[Hw ->]|[Hw Hle]].
  - split; [done|lia].
  - split; [lia|done].
Qed.

(** The first two loops of [getBestMove]: the answer is the first column
    of the list that wins by landing, and [None] when no column does. *)
Lemma first_decisive_spec s p cols :
  (forall c, In c cols -> get_cell (brd s) 0 c = Some EMPTY) ->
  exists r, first_decisive s p cols = Done (r, s) /\
    match r with
    | Some c => wins_by_landing (brd s) c p /\
                exists l1 l2, cols = l1 ++ c :: l2 /\
                  forall c', In c' l1 -> ~ wins_by_landing (brd s) c' p
    | None => forall c', In c' cols -> ~ wins_by_landing (brd s) c' p
    end.
Proof.
  induction cols as [|c cols IH]; intros Hlegal; simpl.
  - exists None. split; [done|]. intros c' [].
  - rewrite evaluateMove_score_of, bind_Done.
    pose proof (score_of_wins s c p (Hlegal c (or_introl eq_refl))) as Hiff.
    destruct (score_of s c p >=? 10000) eqn:E.
    + exists (Some c). split; [done|]. split; [apply Hiff; lia|].
      exists [], cols. split; [done|]. intros c' [].
    + destruct IH as (r & -> & Hr); [intros c' Hc'; apply Hlegal; by right|].
      exists r. split; [done|].
      assert (~ wins_by_landing (brd s) c p) as Hc by (rewrite <- Hiff; lia).
      destruct r as [c0|].
      * destruct Hr as (Hwin & l1 & l2 & -> & Hbefore). split; [done|].
        exists (c :: l1), l2. split; [done|].
        intros c' [<-|Hc']; [done|by apply Hbefore].
      * intros c' [<-|Hc']; [done|by apply Hr].
Qed.

(** The third loop: the answer is the first column of the list whose
    score is the largest, unless the initial candidate scores at least as
    much as every column. *)
Lemma best_of_spec s p cols : forall bestCol bestScore,
  exists r rs, best_of s p cols bestCol bestScore = Done (r, rs, s) /\
    ((r = bestCol /\ rs = bestScore /\
      forall c, In c cols -> score_of s c p <= bestScore) \/
     (exists l1 l2, cols = l1 ++ r :: l2 /\ rs = score_of s r p /\
        bestScore < rs /\
        (forall c, In c l1 -> score_of s c p < rs) /\
        (forall c, In c l2 -> score_of s c p <= rs))).
Proof.
  induction cols as [|c cols IH]; intros bestCol bestScore; simpl.
  - exists bestCol, bestScore. split; [done|]. left. split; [done|]. split; [done|].
    intros c [].
  - rewrite evaluateMove_score_of, bind_Done.
    destruct (score_of s c p >? bestScore) eqn:E.
    + destruct (IH c (score_of s c p)) as (r & rs & -> & Hr).
      exists r, rs. split; [done|]. right.
      destruct Hr as [(-> & -> & Hall)|(l1 & l2 & -> & -> & Hlt & Hb & Ha)].
      * exists [], cols. split; [done|]. split; [done|]. split; [lia|].
        split; [intros c' []|done].
      * exists (c :: l1), l2. split; [done|]. split; [done|]. split; [lia|].
        split; [|done]. intros c' [<-|Hc']; [done|by apply Hb].
    + destruct (IH bestCol bestScore) as (r & rs & -> & Hr).
      exists r, rs. split; [done|].
      destruct Hr as [(-> & -> & Hall)|(l1 & l2 & -> & -> & Hlt & Hb & Ha)].
      * left. split; [done|]. split; [done|].
        intros c' [<-|Hc']; [lia|by apply Hall].
      * right. exists (c :: l1), l2. split; [done|]. split; [done|]. split; [done|].
        split; [|done]. intros c' [<-|Hc']; [lia|by apply Hb].
Qed.
End BotFacts.

Section BotClaim.
Import GameEngine Rules BotEngine Aux Examples.

Lemma first_hit_least (P : Z -> Prop) cols l1 c l2 :
  StronglySorted Z.lt cols -> cols = l1 ++ c :: l2 ->
  (forall c', In c' l1 -> ~ P c') ->
  forall c', In c' cols -> P c' -> c <= c'.
Proof.
  intros Hs -> Hbefore c' Hin HP.
  apply in_app_or in Hin as [Hin|[<-|Hin]].
  - by apply Hbefore in Hin.
  - lia.
  - pose proof (sorted_after _ _ _ Hs c' Hin). lia.
Qed.

(** C3.  For every engine state with a six-by-seven board and at least one
    legal column, [getBestMove] returns a legal column and leaves the engine
    unchanged; the column is: the lowest legal column in which the bot's
    mark (PLAYER2) wins by landing, if there is one; otherwise the lowest
    legal column in which the opposing mark (PLAYER1) would win by landing,
    if there is one; otherwise a legal column with the highest
    [evaluateMove] score for the bot's mark, the lowest such column on a
    tie.  When the board offers a winning column and a different blocking
    column, the answer is a winning column, and it is not the blocking
    column unless that one wins for the bot as well. *)
Theorem getBestMove_priority (s : t) :
  wf_board (brd s) -> (exists c, legal (brd s) c) ->
  exists r,
    getBestMove s = Done (r, s) /\ legal (brd s) r /\
    ((exists c, legal (brd s) c /\ wins_by_landing (brd s) c PLAYER2) ->
       wins_by_landing (brd s) r PLAYER2 /\
       forall c, legal (brd s) c -> wins_by_landing (brd s) c PLAYER2 -> r <= c) /\
    (~ (exists c, legal (brd s) c /\ wins_by_landing (brd s) c PLAYER2) ->
     (exists c, legal (brd s) c /\ wins_by_landing (brd s) c PLAYER1) ->
       wins_by_landing (brd s) r PLAYER1 /\
       forall c, legal (brd s) c -> wins_by_landing (brd s) c PLAYER1 -> r <= c) /\
    (~ (exists c, legal (brd s) c /\ wins_by_landing (brd s) c PLAYER2) ->
     ~ (exists c, legal (brd s) c /\ wins_by_landing (brd s) c PLAYER1) ->
       exists best,
         evaluateMove s r PLAYER2 = Done (best, s) /\
         forall c v, legal (brd s) c ->
                     evaluateMove s c PLAYER2 = Done (v, s) ->
                     v <= best /\ (v = best -> r <= c)) /\
    (forall w k,
       legal (brd s) w -> wins_by_landing (brd s) w PLAYER2 ->
       legal (brd s) k -> wins_by_landing (brd s) k PLAYER1 -> k <> w ->
       wins_by_landing (brd s) r PLAYER2 /\
       (~ wins_by_landing (brd s) k PLAYER2 -> r <> k)).
Proof.
  intros _ [c0 Hc0]. unfold getBestMove.
  pose proof (getValidMoves_sorted (brd s)) as Hsorted.
  pose proof (getValidMoves_legal (brd s)) as Hmem.
  destruct (getValidMoves (brd s)) as [|first rest] eqn:Hvm.
  { apply Hmem in Hc0. destruct Hc0. }
  set (cols := first :: rest) in *.
  assert (forall c, In c cols -> get_cell (brd s) 0 c = Some EMPTY) as Htop.
  { intros c Hc. by apply Hmem in Hc as [_ ?]. }
  destruct (first_decisive_spec s PLAYER2 cols Htop) as (r1 & -> & Hr1).
  rewrite bind_Done. destruct r1 as [c1|].
  { destruct Hr1 as (Hwin & l1 & l2 & Hsplit & Hbefore).
    assert (In c1 cols) as Hin by (rewrite Hsplit; apply in_elt).
    assert (forall c, legal (brd s) c -> wins_by_landing (brd s) c PLAYER2 -> c1 <= c)
      as Hleast.
    { intros c Hc Hw. apply Hmem in Hc.
      by apply (first_hit_least (fun c => wins_by_landing (brd s) c PLAYER2)
                  cols l1 c1 l2). }
    exists c1. split; [done|]. split; [by apply Hmem|].
    split; [done|]. split; [intros Hno; exfalso; apply Hno; exists c1; split; [by apply Hmem|done]|].
    split; [intros Hno; exfalso; apply Hno; exists c1; split; [by apply Hmem|done]|].
    intros w k _ _ _ _ _. split; [done|]. intros Hk ->. done. }
  assert (~ (exists c, legal (brd s) c /\ wins_by_landing (brd s) c PLAYER2)) as Hno2.
  { intros (c & Hc & Hw). apply Hmem in Hc. by apply Hr1 in Hc. }
  destruct (first_decisive_spec s PLAYER1 cols Htop) as (r2 & -> & Hr2).
  rewrite bind_Done. destruct r2 as [c2|].
  { destruct Hr2 as (Hwin & l1 & l2 & Hsplit & Hbefore).
    assert (In c2 cols) as Hin by (rewrite Hsplit; apply in_elt).
    exists c2. split; [done|]. split; [by apply Hmem|].
    split; [done|]. split.
    { intros _ _. split; [done|]. intros c Hc Hw. apply Hmem in Hc.
      by apply (first_hit_least (fun c => wins_by_landing (brd s) c PLAYER1)
                  cols l1 c2 l2). }
    split; [intros _ Hno; exfalso; apply Hno; exists c2; split; [by apply Hmem|done]|].
    intros w k Hw Hww _ _ _. exfalso. apply Hno2. eauto. }
  assert (~ (exists c, legal (brd s) c /\ wins_by_landing (brd s) c PLAYER1)) as Hno1.
  { intros (c & Hc & Hw). apply Hmem in Hc. by apply Hr2 in Hc. }
  rewrite evaluateMove_score_of, bind_Done.
  destruct (best_of_spec s PLAYER2 cols first (score_of s first PLAYER2))
    as (r & rs & -> & Hr).
  rewrite bind_Done. exists r. split; [done|].
  assert (In r cols /\
          forall c, In c cols ->
            score_of s c PLAYER2 <= score_of s r PLAYER2 /\
            (score_of s c PLAYER2 = score_of s r PLAYER2 -> r <= c)) as [Hin Hbest].
  { destruct Hr as [(-> & -> & Hall)|(l1 & l2 & Hsplit & -> & Hlt & Hb & Ha)].
    - split; [by left|]. intros c Hc. split; [by apply Hall|]. intros _.
      destruct Hc as [<-|Hc]; [lia|].
      apply StronglySorted_inv in Hsorted as [_ Hfirst].
      eapply List.Forall_forall in Hfirst; [|done]. lia.
    - split; [rewrite Hsplit; apply in_elt|]. intros c Hc.
      pose proof Hc as Hc'. rewrite Hsplit in Hc'.
      apply in_app_or in Hc' as [Hc'|[<-|Hc']].
      + apply Hb in Hc'. lia.
      + lia.
      + split; [by apply Ha|]. intros _.
        rewrite Hsplit in Hsorted.
        pose proof (sorted_after _ _ _ Hsorted c Hc'). lia. }
  split; [by apply Hmem|]. split; [intros H; by apply Hno2 in H|].
  split; [intros _ H; by apply Hno1 in H|]. split.
  - intros _ _. exists (score_of s r PLAYER2). split; [apply evaluateMove_score_of|].
    intros c v Hc Hv. rewrite evaluateMove_score_of in Hv. injection Hv as <-.
    apply Hbest. by apply Hmem.
  - intros w k Hw Hww _ _ _. exfalso. apply Hno2. eauto.
Qed.

Lemma getBestMove_priority_witness :
  wf_board (brd three_each) /\ (exists c, legal (brd three_each) c) /\
  wins_by_landing (brd three_each) 0 PLAYER1 /\
  getBestMove three_each = Done (1, three_each).
Proof.
  assert (wf_board (brd three_each)) as Hwf
    by (split; [reflexivity | repeat constructor]).
  assert (exists c, legal (brd three_each) c) as Hex
    by (exists 0; split; [unfold COLS; lia | reflexivity]).
  split; [exact Hwf|]. split; [exact Hex|].
  split; [eexists; split; vm_compute; reflexivity|].
  destruct (getBestMove_priority three_each Hwf Hex) as (r & Hrun & _).
  assert (r = 1) as Hr.
  { assert (getBestMove three_each = Done (1, three_each)) as Hone
      by (vm_compute; reflexivity).
    rewrite Hone in Hrun. injection Hrun as Hrun. symmetry. exact Hrun. }
  rewrite Hr in Hrun. exact Hrun.
Defined.
End BotClaim.

Section JsMapFacts.
Import Matchmaking.
Context {V : Type}.
Implicit Types (m : list (string * V)) (k : string) (v : V).

Lemma map_get_set_eq m k v : map_get (map_set m k v) k = Some v.
Proof.
  induction m as [|[k' v'] m IH]; simpl.
  - by rewrite String.eqb_refl.
  - destruct (String.eqb k' k) eqn:E; simpl; rewrite E; [done|apply IH].
Qed.

Lemma map_get_set_ne m k k' v :
  k <> k' -> map_get (map_set m k v) k' = map_get m k'.
Proof.
  intros Hne. apply String.eqb_neq in Hne.
  induction m as [|[k0 v0] m IH]; simpl.
  - by rewrite Hne.
  - destruct (String.eqb k0 k) eqn:E; simpl.
    + apply String.eqb_eq in E as ->. by rewrite Hne.
    + by rewrite IH.
Qed.

Lemma map_get_delete_eq m k : map_get (map_delete m k) k = None.
Proof.
  induction m as [|[k0 v0] m IH]; simpl; [done|].
  destruct (String.eqb k0 k) eqn:E; simpl; [done|]. by rewrite E.
Qed.

Lemma map_get_delete_ne m k k' :
  k <> k' -> map_get (map_delete m k) k' = map_get m k'.
Proof.
  intros Hne. apply String.eqb_neq in Hne.
  induction m as [|[k0 v0] m IH]; simpl; [done|].
  destruct (String.eqb k0 k) eqn:E; simpl.
  - apply String.eqb_eq in E as ->. by rewrite Hne.
  - by rewrite IH.
Qed.


Lemma map_has_spec m k : map_has m k = true <-> exists v, map_get m k = Some v.
Proof. unfold map_has. destruct (map_get m k); [split; eauto|split; [done|intros [? ?]; done]]. Qed.

Lemma map_has_false m k : map_has m k = false <-> map_get m k = None.
Proof. unfold map_has. destruct (map_get m k); naive_solver. Qed.
End JsMapFacts.

Section ReconnectClaims.
Import Matchmaking Lifecycle Examples.

(** C5.  Every call [reconnect(socketId, username, sessionId)] at time
    [now]: fails with "Session not found" when no session is stored under
    the id; otherwise fails with "Username does not match session" when the
    username is that of neither participant; otherwise fails with
    "Reconnection window expired (30 seconds)" when, at the time of the
    call, more than 30000 ms have passed since the disconnect time on record
    for the participant (a participant with none on record counts from 0);
    a failing call changes nothing.  Otherwise the participant is marked
    connected, its disconnect time and timer handle are cleared, its grace
    timer is no longer pending, and the session is returned with its engine
    (board, turn, move log) untouched. *)
Theorem reconnect_cases (st : t) (now : Z) (id name sid : string) :
  exists r st',
    reconnect st now id name sid = (r, st') /\
    (getSession st sid = None ->
       r = ReconnectError "Session not found" /\ st' = st) /\
    (forall s, getSession st sid = Some s -> participant_named s name = None ->
       r = ReconnectError "Username does not match session" /\ st' = st) /\
    (forall s p, getSession st sid = Some s -> participant_named s name = Some p ->
       grace_window < since_disconnect now p ->
       r = ReconnectError "Reconnection window expired (30 seconds)" /\ st' = st) /\
    (forall s p, getSession st sid = Some s -> participant_named s name = Some p ->
       since_disconnect now p <= grace_window ->
       exists s' p',
         r = Reconnected s' /\ getSession st' sid = Some s' /\
         participant_named s' name = Some p' /\
         connected p' = true /\ disconnectTime p' = None /\
         reconnectTimeout p' = None /\ socketId p' = Some id /\
         (forall h, reconnectTimeout p = Some h -> pending (timers st') !! h = None) /\
         GameEngine.brd (gameEngine s') = GameEngine.brd (gameEngine s) /\
         GameEngine.currentPlayer (gameEngine s') = GameEngine.currentPlayer (gameEngine s) /\
         GameEngine.moveHistory (gameEngine s') = GameEngine.moveHistory (gameEngine s) /\
         gameEngine s' = gameEngine s /\ sessionId s' = sessionId s).
Proof.
  unfold reconnect, getSession, participant_named, since_disconnect, grace_window.
  destruct (map_get (activeSessions st) sid) as [s|] eqn:Hget.
  2:{ eexists _, _. split; [done|]. split; [done|]. repeat split; intros; done. }
  destruct (String.eqb (username (player1 s)) name) eqn:E1.
  - simpl negb. cbv iota. simpl andb. cbv iota.
    destruct (now - to_number (disconnectTime (player1 s)) >? 30000) eqn:Ht.
    + eexists _, _. split; [done|]. split; [done|].
      split; [intros s0 [= <-]; rewrite E1; done|].
      split; [intros s0 p [= <-]; rewrite E1; done|].
      intros s0 p [= <-]. rewrite E1. intros [= <-]. lia.
    + eexists _, _. split; [done|]. split; [done|].
      split; [intros s0 [= <-]; rewrite E1; done|].
      split; [intros s0 p [= <-]; rewrite E1; intros [= <-]; lia|].
      intros s0 p [= <-]. rewrite E1. intros [= <-] _.
      eexists _, _. split; [done|]. simpl activeSessions.
      rewrite map_get_set_eq. split; [done|]. simpl. rewrite E1.
      split; [done|]. repeat (split; [done|]). split; [|done].
      intros h ->. simpl. apply lookup_delete_eq.
  - destruct (String.eqb (username (player2 s)) name) eqn:E2.
    + simpl negb. simpl andb. cbv iota.
      destruct (now - to_number (disconnectTime (player2 s)) >? 30000) eqn:Ht.
      * eexists _, _. split; [done|]. split; [done|].
        split; [intros s0 [= <-]; rewrite E1, E2; done|].
        split; [intros s0 p [= <-]; rewrite E1, E2; done|].
        intros s0 p [= <-]. rewrite E1, E2. intros [= <-]. lia.
      * eexists _, _. split; [done|]. split; [done|].
        split; [intros s0 [= <-]; rewrite E1, E2; done|].
        split; [intros s0 p [= <-]; rewrite E1, E2; intros [= <-]; lia|].
        intros s0 p [= <-]. rewrite E1, E2. intros [= <-] _.
        eexists _, _. split; [done|]. simpl activeSessions.
        rewrite map_get_set_eq. split; [done|]. simpl. rewrite E1, E2.
        split; [done|]. repeat (split; [done|]). split; [|done].
        intros h ->. simpl. apply lookup_delete_eq.
    + simpl. eexists _, _. split; [done|]. split; [done|].
      split; [done|].
      split; intros s0 p [= <-]; rewrite E1, E2; done.
Qed.

Lemma reconnect_cases_witness :
  exists r st' s' p',
    reconnect alice_dropped 2000 "s2" "alice" "g1" = (r, st') /\
    r = Reconnected s' /\ getSession st' "g1" = Some s' /\
    participant_named s' "alice" = Some p' /\ connected p' = true.
Proof.
  destruct (reconnect_cases alice_dropped 2000 "s2" "alice" "g1")
    as (r & st' & Hrun & _ & _ & _ & Hok).
  edestruct Hok as (s' & p' & Hr & Hget & Hnamed & Hconn & _).
  - reflexivity.
  - reflexivity.
  - unfold since_disconnect, grace_window. simpl. lia.
  - exists r, st', s', p'. split; [exact Hrun|]. split; [exact Hr|].
    split; [exact Hget|]. split; [exact Hnamed | exact Hconn].
Defined.
End ReconnectClaims.

Section Totality.
Import Matchmaking Lifecycle Handlers Invariants.

(** [dropPiece] returns on every engine state: the write it makes goes
    to a cell it has just read, and the win check ends. *)
Lemma dropPiece_returns s col :
  exists r s', GameEngine.dropPiece s col = Done (r, s').
Proof.
  unfold GameEngine.dropPiece.
  destruct ((col <? 0) || (col >=? GameEngine.COLS)); [eauto|].
  destruct (GameEngine.cell_is (GameEngine.brd s) 0 col GameEngine.EMPTY) eqn:Htop;
    [|simpl; eauto].
  apply cell_is_spec in Htop. simpl negb. cbv iota.
  destruct (landing_row_legal _ _ Htop) as (_ & Hempty & _).
  destruct (set_cell_existing _ _ _ _ (GameEngine.currentPlayer s) Hempty)
    as (b' & -> & _).
  rewrite bind_Done.
  destruct (checkWin_returns b' (GameEngine.landing_row (GameEngine.brd s) col) col
              (GameEngine.currentPlayer s)) as [v ->].
  rewrite bind_Done. destruct v; [eauto|].
  destruct (GameEngine.isBoardFull b'); eauto.
Qed.

Lemma getBestMove_returns s : exists r, BotEngine.getBestMove s = Done (r, s).
Proof.
  unfold BotEngine.getBestMove.
  pose proof (getValidMoves_legal (GameEngine.brd s)) as Hmem.
  destruct (GameEngine.getValidMoves (GameEngine.brd s)) as [|first rest]; [eauto|].
  assert (forall c, In c (first :: rest) ->
            GameEngine.get_cell (GameEngine.brd s) 0 c = Some GameEngine.EMPTY) as Htop.
  { intros c Hc. by apply Hmem in Hc as [_ ?]. }
  destruct (first_decisive_spec s GameEngine.PLAYER2 _ Htop) as (r1 & -> & _).
  rewrite bind_Done. destruct r1; [eauto|].
  destruct (first_decisive_spec s GameEngine.PLAYER1 _ Htop) as (r2 & -> & _).
  rewrite bind_Done. destruct r2; [eauto|].
  rewrite evaluateMove_score_of, bind_Done.
  destruct (best_of_spec s GameEngine.PLAYER2 (first :: rest) first
              (Aux.score_of s first GameEngine.PLAYER2)) as (r & rs & -> & _).
  rewrite bind_Done. eauto.
Qed.

Lemma makeMove_returns_or_throws s : BotEngine.makeMove s <> Unfinished.
Proof.
  unfold BotEngine.makeMove. destruct (getBestMove_returns s) as [r ->].
  rewrite bind_Done. destruct (r =? -1); [done|].
  by destruct (dropPiece_returns s r) as (res & s' & ->).
Qed.

Lemma joinQueue_returns st now fresh id name mode :
  exists r st', joinQueue st now fresh id name mode = Done (r, st').
Proof.
  unfold joinQueue.
  destruct (map_has (waitingPlayers st) id); [eauto|].
  destruct (username_in_game st name); [eauto|].
  destruct (String.eqb mode "bot").
  - unfold spawnBotOpponent. simpl. rewrite map_get_set_eq. simpl. eauto.
  - unfold tryPairPlayers. simpl. rewrite map_get_set_eq.
    destruct (List.find _ _) as [[otherId other]|]; rewrite ?bind_Done; simpl; eauto.
Qed.

(** Every event is handled to the end: the handlers neither throw past
    the event loop nor run without end, so [reachable] leaves out no state
    of the server. *)
Lemma deliver_returns st now ev : exists st', deliver st now ev = Done st'.
Proof.
  destruct ev as [sock name mode fresh|sock sid column|sock|sock name sid|h fresh]; simpl.
  - unfold onJoinQueue. destruct (_ || _); [eauto|].
    destruct (joinQueue_returns st now fresh sock name mode) as (r & st' & ->). eauto.
  - unfold onMakeMove.
    destruct (getSession st sid) as [s|]; [|eauto].
    destruct (_ || _); [eauto|]. destruct (negb _ && negb _); [eauto|].
    destruct (negb (_ =? _)); [eauto|].
    destruct (dropPiece_returns (gameEngine s) column) as (r & g & ->).
    rewrite bind_Done. destruct r as [e|row col [] won draw]; [eauto..|].
    destruct (isVsBot s); eauto.
  - eauto.
  - eauto.
  - unfold fire. destruct (pending (timers st) !! h) as [[d cb]|]; [|eauto].
    simpl. destruct (now <? d); [eauto|]. destruct cb as [x|sid0 flag|sid0]; [eauto..|].
    unfold onBotReply. destruct (getSession _ sid0) as [s|]; [|eauto].
    destruct (negb (isVsBot s)); [eauto|].
    pose proof (makeMove_returns_or_throws (gameEngine s)) as Hmm.
    destruct (BotEngine.makeMove (gameEngine s)) as [[res g]| |]; [|eauto|done].
    destruct res as [e|row col [] won draw]; eauto.
Qed.
End Totality.

Section ForfeitClaims.
Import Matchmaking Lifecycle Examples.

Lemma find_some_pred {A} (f : A -> bool) l x : List.find f l = Some x -> f x = true.
Proof. intros H. by apply find_some in H as [_ ?]. Qed.

(** [markDisconnected] marks the participant whose socket dropped and
    starts a grace timer whose callback names that participant. *)
Lemma markDisconnected_timer st sock now0 s0 st0 :
  markDisconnected st now0 sock = (Some s0, st0) ->
  exists h flag,
    pending (timers st0) !! h =
      Some (Timer (now0 + grace_window) (ForfeitGame (sessionId s0) flag)) /\
    reconnectTimeout (this_participant s0 flag) = Some h /\
    connected (this_participant s0 flag) = false /\
    disconnectTime (this_participant s0 flag) = Some now0 /\
    socketId (this_participant s0 flag) = Some sock.
Proof.
  unfold markDisconnected.
  destruct (getSessionByPlayerId st sock) as [[key s]|] eqn:Hfind; [|done].
  apply find_some_pred in Hfind. simpl in Hfind.
  destruct (same_socket (socketId (player1 s)) sock) eqn:E1; simpl in *.
  - intros [= <- <-]. exists (next_handle (timers st)), true. simpl.
    split; [apply lookup_insert_eq|]. repeat (split; [done|]).
    unfold same_socket in E1.
    destruct (socketId (player1 s)); [|done]. by apply String.eqb_eq in E1 as ->.
  - intros [= <- <-]. exists (next_handle (timers st)), false. simpl.
    split; [apply lookup_insert_eq|]. repeat (split; [done|]).
    unfold same_socket in Hfind.
    destruct (socketId (player2 s)); [|done]. by apply String.eqb_eq in Hfind as ->.
Qed.

(** C6.  [forfeitGame] takes effect at most once per session.  A call on
    a session whose game is not over marks the game over, records the end
    time, sets the result to "forfeit" and makes the winner the participant
    other than the one the call names, touching nothing else of the session
    and no other session; a call for a missing session id or for a session
    whose game is over changes nothing; and after any call, every further
    call for that session id changes nothing.  The grace timer that
    [markDisconnected] starts names the participant it has just marked
    disconnected, so the winner is the other one. *)
Theorem forfeitGame_at_most_once
    (st : t) (now : Z) (sid : string) (isPlayer1 : bool) :
  exists r st1,
    forfeitGame st now sid isPlayer1 = (r, st1) /\
    (forall s, getSession st sid = Some s ->
               GameEngine.gameOver (gameEngine s) = false ->
       exists s',
         r = Some s' /\ getSession st1 sid = Some s' /\
         GameEngine.gameOver (gameEngine s') = true /\
         endTime s' = Some now /\ result s' = Some "forfeit"%string /\
         winner s' = Some (username (other_participant s isPlayer1)) /\
         player1 s' = player1 s /\ player2 s' = player2 s /\
         GameEngine.brd (gameEngine s') = GameEngine.brd (gameEngine s) /\
         (forall k, k <> sid -> getSession st1 k = getSession st k)) /\
    (getSession st sid = None \/
     (exists s, getSession st sid = Some s /\
                GameEngine.gameOver (gameEngine s) = true) ->
       r = None /\ st1 = st) /\
    (forall now' isPlayer1', forfeitGame st1 now' sid isPlayer1' = (None, st1)) /\
    (forall sock now0 s0 st0,
       markDisconnected st now0 sock = (Some s0, st0) ->
       exists h flag,
         pending (timers st0) !! h =
           Some (Timer (now0 + grace_window) (ForfeitGame (sessionId s0) flag)) /\
         reconnectTimeout (this_participant s0 flag) = Some h /\
         connected (this_participant s0 flag) = false /\
         disconnectTime (this_participant s0 flag) = Some now0 /\
         socketId (this_participant s0 flag) = Some sock).
Proof.
  unfold forfeitGame, getSession.
  destruct (map_get (activeSessions st) sid) as [s|] eqn:Hget.
  2:{ exists None, st. split; [done|]. split; [done|]. split; [done|].
      split; [intros; by rewrite Hget|]. apply markDisconnected_timer. }
  pose proof (markDisconnected_timer st) as Hmark.
  destruct (GameEngine.gameOver (gameEngine s)) eqn:Hover.
  - exists None, st. split; [done|]. split; [intros s0 [= <-]; congruence|].
    split; [done|]. split; [|done]. intros. by rewrite Hget, Hover.
  - eexists _, _. split; [done|]. split.
    { intros s0 [= <-] _. eexists. split; [done|]. simpl.
      rewrite map_get_set_eq. split; [done|]. repeat (split; [done|]).
      split; [by destruct isPlayer1|]. repeat (split; [done|]).
      intros k Hk. by apply map_get_set_ne. }
    split; [intros [?|(s0 & [= <-] & ?)]; congruence|].
    split; [|done]. intros now' p'. simpl. by rewrite map_get_set_eq.
Qed.

Lemma forfeitGame_at_most_once_witness :
  exists r st1 s',
    forfeitGame alice_dropped 31000 "g1" true = (r, st1) /\
    r = Some s' /\ winner s' = Some "ConnectBot"%string /\
    forfeitGame st1 31001 "g1" true = (None, st1).
Proof.
  destruct (forfeitGame_at_most_once alice_dropped 31000 "g1" true)
    as (r & st1 & Hrun & Hfirst & _ & Hagain & _).
  edestruct Hfirst as (s' & Hr & _ & _ & _ & _ & Hwinner & _).
  - reflexivity.
  - reflexivity.
  - exists r, st1, s'. split; [exact Hrun|]. split; [exact Hr|].
    split; [exact Hwinner | exact (Hagain 31001 true)].
Defined.

(** C10.  A reconnect for a participant of an existing session who was
    never marked disconnected fails: its [disconnectTime] is [null], which
    is the value [createSession] gives both participants, so the elapsed
    time computed is the clock value itself, and for any clock value above
    30000 the call returns "Reconnection window expired (30 seconds)" and
    changes nothing. *)
Theorem reconnect_never_disconnected
    (st : t) (now : Z) (id name sid : string) (s : session) (p : participant) :
  grace_window < now ->
  getSession st sid = Some s -> participant_named s name = Some p ->
  disconnectTime p = None ->
  since_disconnect now p = now /\
  reconnect st now id name sid =
    (ReconnectError "Reconnection window expired (30 seconds)", st) /\
  (forall st0 now0 fresh a an b bn vsBot,
     disconnectTime (player1 (fst (createSession st0 now0 fresh a an b bn vsBot))) = None /\
     disconnectTime (player2 (fst (createSession st0 now0 fresh a an b bn vsBot))) = None).
Proof.
  unfold grace_window, getSession, participant_named, since_disconnect, reconnect.
  intros Hnow -> Hp Hnull. rewrite Hnull. simpl to_number.
  split; [lia|]. split.
  - destruct (String.eqb (username (player1 s)) name) eqn:E1.
    + injection Hp as <-. simpl. rewrite Hnull. simpl.
      by replace (now - 0 >? 30000) with true by lia.
    + destruct (String.eqb (username (player2 s)) name) eqn:E2; [|done].
      injection Hp as <-. simpl. rewrite Hnull. simpl.
      by replace (now - 0 >? 30000) with true by lia.
  - intros. unfold createSession. simpl. by destruct vsBot.
Qed.

Lemma reconnect_never_disconnected_witness :
  grace_window < 40000 /\
  reconnect alice_playing 40000 "s1" "alice" "g1" =
    (ReconnectError "Reconnection window expired (30 seconds)", alice_playing).
Proof.
  assert (grace_window < 40000) as Hnow by (unfold grace_window; lia).
  split; [exact Hnow|].
  refine (proj1 (proj2 (reconnect_never_disconnected alice_playing 40000
                          "s1" "alice" "g1" _ _ Hnow _ _ _))).
  - reflexivity.
  - reflexivity.
  - reflexivity.
Defined.
End ForfeitClaims.

Section GameOverClaims.
Import Matchmaking Lifecycle Handlers.
Import GameEngine Rules Examples.

(** C9.  Accepting a move never looks at the terminal status.  In every
    engine state with a six-by-seven board in which [gameOver] is already
    true, [dropPiece] on a legal column (in range, top cell empty) succeeds:
    it writes the current player's mark into a cell that was empty, appends
    to the move history, and when the move wins it sets the winner anew.
    The winner can change that way: after 0,1,0,1,0,1,0 the first player has
    won, and the further moves 6 and 1 make the second player the winner.
    [onMakeMove] does not reject the move either: sent by the participant
    whose turn it is, it passes the move to [dropPiece] and stores the
    result. *)
Theorem moves_accepted_after_game_over (s : GameEngine.t) (col : Z) :
  wf_board (brd s) -> gameOver s = true -> legal (brd s) col ->
  (exists row over won draw s',
      dropPiece s col = Done (Placed row col over won draw, s') /\
      get_cell (brd s) row col = Some EMPTY /\
      get_cell (brd s') row col = Some (currentPlayer s) /\
      (currentPlayer s <> EMPTY -> brd s' <> brd s) /\
      moveHistory s' = moveHistory s ++ [Move row col (currentPlayer s)] /\
      (over = true -> draw = false ->
         won = Some (currentPlayer s) /\
         GameEngine.winner s' = Some (currentPlayer s))) /\
  (exists s7 r7 s9 r9,
      play GameEngine.new [0; 1; 0; 1; 0; 1; 0] = Done (r7, s7) /\
      gameOver s7 = true /\ GameEngine.winner s7 = Some PLAYER1 /\
      play s7 [6; 1] = Done (r9, s9) /\
      r9 = [Placed 5 6 false None false; Placed 2 1 true (Some PLAYER2) false] /\
      gameOver s9 = true /\ GameEngine.winner s9 = Some PLAYER2) /\
  (forall st now sock sid ss,
      getSession st sid = Some ss -> gameEngine ss = s ->
      (same_socket (socketId (player1 ss)) sock = true /\ currentPlayer s = PLAYER1 \/
       same_socket (socketId (player1 ss)) sock = false /\
       same_socket (socketId (player2 ss)) sock = true /\ currentPlayer s = PLAYER2) ->
      exists moveResult st' ss',
        onMakeMove st now sock sid col = Done (MoveDone moveResult, st') /\
        dropPiece s col = Done (moveResult, gameEngine ss') /\
        getSession st' sid = Some ss').
Proof.
  intros Hwf Hover Hlegal.
  destruct (dropPiece_spec s col Hwf)
    as (r & s' & Hdrop & _ & _ & _ & Hplaced).
  destruct (Hplaced Hlegal) as (row & over & won & draw & -> & Hlow & Hw & Hh & Hflag).
  assert (over = true -> draw = false ->
          won = Some (currentPlayer s) /\
          GameEngine.winner s' = Some (currentPlayer s)) as Hwinner.
  { revert Hdrop. unfold dropPiece.
    destruct ((col <? 0) || (col >=? COLS)); [done|].
    destruct (negb (cell_is (brd s) 0 col EMPTY)); [done|].
    destruct (set_cell (brd s) (landing_row (brd s) col) col (currentPlayer s))
      as [b'| |]; [|done..].
    rewrite bind_Done.
    destruct (checkWin b' (landing_row (brd s) col) col (currentPlayer s))
      as [[]| |]; [| |done..]; rewrite bind_Done.
    - intros [= <- <- <- <- <-]. done.
    - destruct (isBoardFull b'); intros [= <- <- <- <- <-]; done. }
  split; [|split].
  - exists row, over, won, draw, s'. split; [done|].
    destruct Hlow as (_ & Hempty & _). destruct Hw as [Hcell Hothers].
    split; [done|]. split; [done|]. split; [|done].
    intros Hp Heq. rewrite Heq in Hcell. unfold EMPTY in *. congruence.
  - eexists _, _, _, _. split; [vm_compute; reflexivity|].
    split; [reflexivity|]. split; [reflexivity|].
    split; [vm_compute; reflexivity|]. done.
  - intros st now sock sid ss Hget Heng Hturn. unfold onMakeMove.
    rewrite Hget.
    destruct Hlegal as [Hcol _]. unfold COLS in Hcol.
    replace ((col <? 0) || (col >=? 7)) with false
      by (symmetry; apply orb_false_intro; lia).
    rewrite Heng, Hdrop, bind_Done.
    assert (negb (currentPlayer s =?
              (if same_socket (socketId (player1 ss)) sock then PLAYER1 else PLAYER2))
            = false) as ->.
    { destruct Hturn as [[-> ->]|(-> & _ & ->)]; done. }
    assert (negb (same_socket (socketId (player1 ss)) sock)
            && negb (same_socket (socketId (player2 ss)) sock) = false) as ->.
    { destruct Hturn as [[-> _]|(_ & -> & _)]; [done|]. apply andb_false_r. }
    unfold update_session.
    destruct over; [|destruct (isVsBot ss)];
      eexists _, _, _; (split; [done|]); unfold getSession; simpl;
      rewrite map_get_set_eq; (split; [|reflexivity]); reflexivity.
Qed.

Lemma moves_accepted_after_game_over_witness :
  wf_board (brd won_vertical) /\ gameOver won_vertical = true /\
  legal (brd won_vertical) 6 /\
  exists row over won draw s',
    dropPiece won_vertical 6 = Done (Placed row 6 over won draw, s') /\
    moveHistory s' = moveHistory won_vertical ++ [Move row 6 (currentPlayer won_vertical)].
Proof.
  assert (wf_board (brd won_vertical)) as Hwf
    by (split; [reflexivity | repeat constructor]).
  assert (gameOver won_vertical = true) as Hover by reflexivity.
  assert (legal (brd won_vertical) 6) as Hlegal
    by (split; [unfold COLS; lia | reflexivity]).
  split; [exact Hwf|]. split; [exact Hover|]. split; [exact Hlegal|].
  destruct (moves_accepted_after_game_over won_vertical 6 Hwf Hover Hlegal)
    as [(row & over & won & draw & s' & Hrun & _ & _ & _ & Hhist & _) _].
  exists row, over, won, draw, s'. split; [exact Hrun | exact Hhist].
Defined.
End GameOverClaims.

Section DuplicateIdentity.
Import Matchmaking Lifecycle Handlers Examples.

(** What [joinQueue] does refuse: a socket id that is in the wait queue,
    and a username that is a participant of a stored session; a refused
    call changes nothing. *)
Lemma joinQueue_rejects st now fresh id name mode :
  (map_has (waitingPlayers st) id = true ->
     joinQueue st now fresh id name mode = Done (JoinError "Already in queue", st)) /\
  (map_has (waitingPlayers st) id = false ->
   (exists key s, In (key, s) (activeSessions st) /\ plays_in s name) ->
     joinQueue st now fresh id name mode
       = Done (JoinError "Username already in game", st)).
Proof.
  unfold joinQueue. split.
  - by intros ->.
  - intros -> (key & s & Hin & Hplays).
    assert (username_in_game st name = true) as ->; [|done].
    unfold username_in_game. apply existsb_exists. exists (key, s).
    split; [done|]. simpl. apply orb_true_iff.
    destruct Hplays as [<-|<-]; [left|right]; apply String.eqb_refl.
Qed.

(** C8 (where the code departs from it).  [joinQueue] tests the wait queue
    by socket id and the sessions by username, so an identity that already
    has a queue entry or a live session can be admitted again.  Socket s1
    joins as alice in human mode and waits.  When socket s2 then joins as
    alice in human mode, the call returns a pairing: session g2 has alice as
    both participants.  When s2 instead joins as alice in bot mode, the call
    returns the bot session g2, and once the wait timer of s1 fires there is
    a second session g3 of alice, neither game being over.  And a socket
    that is playing as alice in session g1 is admitted again under the name
    bob, which gives the socket a second live session g2. *)
Theorem joinQueue_admits_queued_username :
  exists st1 st2 s,
    joinQueue new 0 "g1" "s1" "alice" "human" = Done (JoinWaiting, st1) /\
    map_has (waitingPlayers st1) "s1" = true /\
    joinQueue st1 1 "g2" "s2" "alice" "human" = Done (JoinPaired "g2" "alice", st2) /\
    getSession st2 "g2" = Some s /\
    username (player1 s) = "alice"%string /\ username (player2 s) = "alice"%string /\
    (exists st2' st3 sa sb,
        joinQueue st1 1 "g2" "s2" "alice" "bot" = Done (JoinBot "g2", st2') /\
        fire st2' 10000 0 "g3" = Done st3 /\
        getSession st3 "g2" = Some sa /\ getSession st3 "g3" = Some sb /\
        username (player1 sa) = "alice"%string /\
        username (player1 sb) = "alice"%string /\
        GameEngine.gameOver (gameEngine sa) = false /\
        GameEngine.gameOver (gameEngine sb) = false) /\
    (exists st4 sa sb,
        joinQueue alice_playing 5 "g2" "s1" "bob" "bot" = Done (JoinBot "g2", st4) /\
        getSession st4 "g1" = Some sa /\ getSession st4 "g2" = Some sb /\
        socketId (player1 sa) = Some "s1"%string /\
        socketId (player1 sb) = Some "s1"%string /\
        GameEngine.gameOver (gameEngine sa) = false /\
        GameEngine.gameOver (gameEngine sb) = false).
Proof.
  eexists _, _, _. split; [vm_compute; reflexivity|].
  split; [reflexivity|]. split; [vm_compute; reflexivity|].
  split; [vm_compute; reflexivity|]. split; [reflexivity|]. split; [reflexivity|].
  split.
  - eexists _, _, _, _. split; [vm_compute; reflexivity|].
    split; [vm_compute; reflexivity|].
    split; [vm_compute; reflexivity|]. split; [vm_compute; reflexivity|].
    done.
  - eexists _, _, _. split; [vm_compute; reflexivity|].
    split; [vm_compute; reflexivity|]. split; [vm_compute; reflexivity|].
    done.
Qed.
End DuplicateIdentity.

Section TimerFacts.
Import Matchmaking Lifecycle Handlers Invariants.

Lemma map_has_set {V} (m : list (string * V)) k k' v :
  map_has m k' = true -> map_has (map_set m k v) k' = true.
Proof.
  intros H. apply map_has_spec in H as [v' Hv']. apply map_has_spec.
  destruct (decide (k = k')) as [->|Hne].
  - rewrite map_get_set_eq. eauto.
  - rewrite map_get_set_ne by done. eauto.
Qed.

Lemma map_has_set_eq {V} (m : list (string * V)) k v :
  map_has (map_set m k v) k = true.
Proof. apply map_has_spec. rewrite map_get_set_eq. eauto. Qed.

Lemma map_has_delete_ne {V} (m : list (string * V)) k k' :
  k <> k' -> map_has (map_delete m k) k' = map_has m k'.
Proof. intros H. unfold map_has. by rewrite map_get_delete_ne. Qed.

Lemma map_has_delete_eq {V} (m : list (string * V)) k :
  map_has (map_delete m k) k = false.
Proof. unfold map_has. by rewrite map_get_delete_eq. Qed.

Lemma tracked_no_timer w mt tm x :
  tracked w mt tm -> map_has w x = false ->
  forall h d, pending tm !! h <> Some (Timer d (SpawnBot x)).
Proof. intros [Ht _] Hx h d Hp. apply Ht in Hp as [? _]. congruence. Qed.

Lemma tracked_clear w mt tm h :
  tracked w mt tm -> tracked w mt (clearTimeout tm h).
Proof.
  intros [Ht Hf]. split; simpl.
  - intros h' d x Hp. apply lookup_delete_Some in Hp as [_ Hp]. eauto.
  - intros h' Hh'. apply lookup_delete_None. right. by apply Hf.
Qed.

Lemma tracked_set_other w mt tm now delay cb :
  tracked w mt tm -> (forall x, cb <> SpawnBot x) ->
  tracked w mt (snd (setTimeout tm now delay cb)).
Proof.
  intros [Ht Hf] Hcb. split; simpl.
  - intros h d x Hp. apply lookup_insert_Some in Hp as [[_ Hp]|[_ Hp]]; [|eauto].
    injection Hp as _ Hp. by apply Hcb in Hp.
  - intros h Hh. rewrite lookup_insert_ne by lia. apply Hf. lia.
Qed.

Lemma tracked_add_waiting w mt tm k v :
  tracked w mt tm -> tracked (map_set w k v) mt tm.
Proof.
  intros [Ht Hf]. split; [|done]. intros h d x Hp.
  apply Ht in Hp as [H1 H2]. split; [by apply map_has_set|done].
Qed.

Lemma tracked_remove w mt tm x :
  tracked w mt tm ->
  (forall h d, pending tm !! h <> Some (Timer d (SpawnBot x))) ->
  tracked (map_delete w x) (delete x mt) tm.
Proof.
  intros [Ht Hf] Hno. split; [|done]. intros h d y Hp.
  assert (x <> y) as Hne by (intros ->; by apply Hno in Hp).
  apply Ht in Hp as [H1 H2].
  rewrite map_has_delete_ne, lookup_delete_ne by done. done.
Qed.

Lemma tracked_new_wait w mt tm now delay x :
  tracked w mt tm -> map_has w x = true ->
  (forall h d, pending tm !! h <> Some (Timer d (SpawnBot x))) ->
  tracked w (<[x := fst (setTimeout tm now delay (SpawnBot x))]> mt)
          (snd (setTimeout tm now delay (SpawnBot x))).
Proof.
  intros [Ht Hf] Hx Hno. split; simpl.
  - intros h d y Hp. apply lookup_insert_Some in Hp as [[<- Hp]|[Hh Hp]].
    + injection Hp as _ <-. split; [done|]. apply lookup_insert_eq.
    + assert (x <> y) as Hne by (intros ->; by apply Hno in Hp).
      apply Ht in Hp as [H1 H2]. by rewrite lookup_insert_ne.
  - intros h Hh. rewrite lookup_insert_ne by lia. apply Hf. lia.
Qed.

(** Removing a socket from the queue together with the timer on record
    for it. *)
Lemma tracked_forget w mt tm x :
  tracked w mt tm ->
  tracked (map_delete w x) (delete x mt)
          (match mt !! x with Some h => clearTimeout tm h | None => tm end).
Proof.
  intros Htr. destruct (mt !! x) as [h|] eqn:Hx.
  - apply tracked_remove; [by apply tracked_clear|].
    intros h' d Hp. simpl in Hp. apply lookup_delete_Some in Hp as [Hne Hp].
    destruct Htr as [Ht _]. apply Ht in Hp as [_ Hp]. congruence.
  - apply tracked_remove; [done|].
    intros h' d Hp. destruct Htr as [Ht _]. apply Ht in Hp as [_ Hp]. congruence.
Qed.
End TimerFacts.

Section StepFacts.
Import Matchmaking Lifecycle Handlers Invariants.

Lemma map_delete_comm {V} (m : list (string * V)) a b :
  map_delete (map_delete m a) b = map_delete (map_delete m b) a.
Proof.
  unfold map_delete. induction m as [|[k v] m IH]; simpl; [done|].
  destruct (String.eqb k a) eqn:Ea, (String.eqb k b) eqn:Eb; simpl;
    rewrite ?Ea, ?Eb; simpl; by rewrite ?IH.
Qed.

Lemma cancel_wait_timer_eq st x :
  cancel_wait_timer st x =
    Service (waitingPlayers st) (activeSessions st)
            (delete x (matchmakingTimeouts st))
            (match matchmakingTimeouts st !! x with
             | Some h => clearTimeout (timers st) h
             | None => timers st
             end).
Proof.
  unfold cancel_wait_timer. destruct (matchmakingTimeouts st !! x) eqn:E; [done|].
  rewrite delete_id by done. by destruct st.
Qed.

Lemma find_other_spec (w : list (string * waiting)) id otherId other :
  List.find (fun kv => negb (String.eqb (fst kv) id)) w = Some (otherId, other) ->
  otherId <> id /\ map_has w otherId = true.
Proof.
  intros H. apply find_some in H as [Hin Hne]. simpl in Hne.
  apply negb_true_iff, String.eqb_neq in Hne. split; [done|].
  apply map_has_spec. clear Hne.
  induction w as [|[k v] w IH]; simpl; [done|].
  destruct (String.eqb k otherId) eqn:E; [eauto|].
  destruct Hin as [[= -> ->]|Hin]; [by rewrite String.eqb_refl in E|by apply IH].
Qed.

(** What a successful pairing leaves behind. *)
Lemma tryPairPlayers_paired st now fresh id sidr opp st' :
  tryPairPlayers st now fresh id = Done (Some (sidr, opp), st') ->
  exists otherId other current,
    otherId <> id /\ map_get (waitingPlayers st) id = Some current /\
    List.find (fun kv => negb (String.eqb (fst kv) id)) (waitingPlayers st)
      = Some (otherId, other) /\
    sidr = fresh /\ opp = w_username other /\
    waitingPlayers st' = map_delete (map_delete (waitingPlayers st) otherId) id /\
    matchmakingTimeouts st' = delete id (delete otherId (matchmakingTimeouts st)) /\
    timers st' =
      (match delete otherId (matchmakingTimeouts st) !! id with
       | Some h => fun tm => clearTimeout tm h
       | None => fun tm => tm
       end)
        (match matchmakingTimeouts st !! otherId with
         | Some h => clearTimeout (timers st) h
         | None => timers st
         end) /\
    activeSessions st' =
      map_set (activeSessions st) fresh
        (Session fresh
           (Participant (Some id) (w_username current) false true None None)
           (Participant (Some otherId) (w_username other) false true None None)
           false GameEngine.new now None None None now).
Proof.
  unfold tryPairPlayers.
  destruct (List.find _ (waitingPlayers st)) as [[otherId other]|] eqn:Hfind; [|done].
  destruct (map_get (waitingPlayers st) id) as [current|] eqn:Hcur; [|done].
  rewrite !cancel_wait_timer_eq. simpl. intros [= <- <- <-].
  destruct (find_other_spec _ _ _ _ Hfind) as [Hne _].
  exists otherId, other, current. simpl.
  split; [done|]. split; [done|]. split; [done|]. split; [done|]. split; [done|].
  split; [apply map_delete_comm|]. split; [done|]. split; [|done].
  by destruct (delete otherId (matchmakingTimeouts st) !! id).
Qed.

Lemma tryPairPlayers_none st now fresh id st' :
  tryPairPlayers st now fresh id = Done (None, st') -> st' = st.
Proof.
  unfold tryPairPlayers.
  destruct (List.find _ (waitingPlayers st)) as [[otherId other]|]; [|by intros [= <-]].
  destruct (map_get (waitingPlayers st) id); [|done].
  by destruct (createSession _ _ _ _ _ _ _ _).
Qed.

Lemma tryPairPlayers_tracked st now fresh id r st' :
  wait_timers_tracked st ->
  tryPairPlayers st now fresh id = Done (r, st') ->
  wait_timers_tracked st'.
Proof.
  intros Htr H. destruct r as [[sidr opp]|].
  - apply tryPairPlayers_paired in H
      as (otherId & other & current & _ & _ & _ & _ & _ & Hw & Hmt & Htm & _).
    unfold wait_timers_tracked. rewrite Hw, Hmt, Htm.
    pose proof (tracked_forget _ _ _ otherId Htr) as H1.
    pose proof (tracked_forget _ _ _ id H1) as H2.
    by destruct (delete otherId (matchmakingTimeouts st) !! id).
  - by apply tryPairPlayers_none in H as ->.
Qed.

Lemma spawnBotOpponent_tracked st now fresh x :
  wait_timers_tracked st ->
  (forall h d, pending (timers st) !! h <> Some (Timer d (SpawnBot x))) ->
  wait_timers_tracked (snd (spawnBotOpponent st now fresh x)).
Proof.
  intros Htr Hno. unfold spawnBotOpponent.
  destruct (map_get (waitingPlayers st) x); [|done].
  simpl. by apply tracked_remove.
Qed.

Lemma joinQueue_tracked st now fresh id name mode r st' :
  wait_timers_tracked st ->
  joinQueue st now fresh id name mode = Done (r, st') ->
  wait_timers_tracked st'.
Proof.
  intros Htr. unfold joinQueue.
  destruct (map_has (waitingPlayers st) id) eqn:Hq; [by intros [= <- <-]|].
  destruct (username_in_game st name); [by intros [= <- <-]|].
  pose proof (tracked_no_timer _ _ _ _ Htr Hq) as Hno.
  set (st1 := with_waitingPlayers st _).
  assert (wait_timers_tracked st1) as Htr1 by (by apply tracked_add_waiting).
  destruct (String.eqb mode "bot").
  - pose proof (spawnBotOpponent_tracked st1 now fresh id Htr1 Hno) as Hsp.
    destruct (spawnBotOpponent st1 now fresh id) as [[s|] st2]; [|done].
    by intros [= <- <-].
  - destruct (tryPairPlayers st1 now fresh id) as [[paired st2]| |] eqn:Hpair; [|done..].
    rewrite bind_Done. destruct paired as [[sidr opp]|].
    + intros [= <- <-]. by eapply tryPairPlayers_tracked.
    + apply tryPairPlayers_none in Hpair as ->. intros [= <- <-].
      apply (tracked_new_wait _ _ _ now 10000 id Htr1); [|done].
      apply map_has_set_eq.
Qed.
End StepFacts.

Section ReachableFacts.
Import Matchmaking Lifecycle Handlers Invariants.

Lemma tracked_sessions st a :
  wait_timers_tracked st -> wait_timers_tracked (with_activeSessions st a).
Proof. done. Qed.

Lemma onMakeMove_tracked st now sock sid column r st' :
  wait_timers_tracked st ->
  onMakeMove st now sock sid column = Done (r, st') ->
  wait_timers_tracked st'.
Proof.
  intros Htr. unfold onMakeMove.
  destruct (getSession st sid) as [s|]; [|by intros [= <- <-]].
  destruct ((column <? 0) || (column >=? 7)); [by intros [= <- <-]|].
  destruct (negb _ && negb _); [by intros [= <- <-]|].
  destruct (negb (_ =? _)); [by intros [= <- <-]|].
  destruct (GameEngine.dropPiece (gameEngine s) column) as [[moveResult g]| |]; [|done..].
  rewrite bind_Done. destruct moveResult as [e|row col over won draw].
  - by intros [= <- <-].
  - destruct over; [by intros [= <- <-]|].
    destruct (isVsBot s); [|by intros [= <- <-]].
    intros [= <- <-].
    by apply (tracked_set_other _ _ _ now 500 (BotReply sid) Htr).
Qed.

Lemma onBotReply_tracked st now sid st' :
  wait_timers_tracked st -> onBotReply st now sid = Done st' ->
  wait_timers_tracked st'.
Proof.
  intros Htr. unfold onBotReply.
  destruct (getSession st sid) as [s|]; [|by intros [= <-]].
  destruct (negb (isVsBot s)); [by intros [= <-]|].
  destruct (BotEngine.makeMove (gameEngine s)) as [[res g]| |]; [|by intros [= <-]|done].
  destruct res as [e|row col [] won draw]; by intros [= <-].
Qed.

Lemma markDisconnected_tracked st now sock :
  wait_timers_tracked st ->
  wait_timers_tracked (snd (markDisconnected st now sock)).
Proof.
  intros Htr. unfold markDisconnected.
  destruct (getSessionByPlayerId st sock) as [[key s]|]; [|done].
  simpl. by apply (tracked_set_other _ _ _ now 30000 _ Htr).
Qed.

Lemma onDisconnect_tracked st now sock :
  wait_timers_tracked st -> wait_timers_tracked (onDisconnect st now sock).
Proof.
  intros Htr. unfold onDisconnect.
  destruct (map_has (waitingPlayers st) sock).
  - pose proof (tracked_forget _ _ _ sock Htr) as Hf. simpl.
    destruct (matchmakingTimeouts st !! sock) eqn:E; [done|].
    by rewrite delete_id in Hf.
  - destruct (getSessionByPlayerId st sock); [|done].
    by apply markDisconnected_tracked.
Qed.

Lemma reconnect_tracked st now sock name sid :
  wait_timers_tracked st ->
  wait_timers_tracked (snd (reconnect st now sock name sid)).
Proof.
  intros Htr. unfold reconnect.
  destruct (map_get (activeSessions st) sid) as [s|]; [|done].
  destruct (negb _ && negb _); [done|].
  destruct (_ >? 30000); [done|]. simpl.
  destruct (reconnectTimeout _); [|done]. by apply tracked_clear.
Qed.

Lemma onReconnect_tracked st now sock name sid :
  wait_timers_tracked st ->
  wait_timers_tracked (snd (onReconnect st now sock name sid)).
Proof.
  intros Htr. unfold onReconnect.
  pose proof (reconnect_tracked st now sock name sid Htr) as H.
  by destruct (reconnect st now sock name sid) as [[e|s] st1].
Qed.

Lemma forfeitGame_tracked st now sid flag :
  wait_timers_tracked st ->
  wait_timers_tracked (snd (forfeitGame st now sid flag)).
Proof.
  intros Htr. unfold forfeitGame.
  destruct (map_get (activeSessions st) sid) as [s|]; [|done].
  by destruct (GameEngine.gameOver (gameEngine s)).
Qed.

Lemma fire_tracked st now h fresh st' :
  wait_timers_tracked st -> fire st now h fresh = Done st' ->
  wait_timers_tracked st'.
Proof.
  intros Htr. unfold fire.
  destruct (pending (timers st) !! h) as [[d cb]|] eqn:Hp; [|by intros [= <-]].
  simpl. destruct (now <? d); [by intros [= <-]|].
  pose proof (tracked_clear _ _ _ h Htr) as Htr1.
  destruct cb as [x|sid flag|sid].
  - intros [= <-]. apply spawnBotOpponent_tracked; [done|].
    intros h' d' Hp'. simpl in Hp'.
    apply lookup_delete_Some in Hp' as [Hne Hp'].
    destruct Htr as [Ht _]. apply Ht in Hp as [_ Hp]. apply Ht in Hp' as [_ Hp'].
    congruence.
  - intros [= <-]. by apply forfeitGame_tracked.
  - by apply onBotReply_tracked.
Qed.

(** The invariant holds in every state the server can reach. *)
Lemma reachable_tracked st : reachable st -> wait_timers_tracked st.
Proof.
  induction 1 as [|st now ev st' _ IH Hstep].
  - split; [intros h d x Hp; done|done].
  - destruct ev as [sock name mode fresh|sock sid column|sock|sock name sid|h fresh];
      simpl in Hstep.
    + unfold onJoinQueue in Hstep.
      destruct (_ || _) in Hstep; [by injection Hstep as <-|].
      destruct (joinQueue st now fresh sock name mode) as [[r st1]| |] eqn:Hj; [|done..].
      injection Hstep as <-. by eapply joinQueue_tracked.
    + destruct (onMakeMove st now sock sid column) as [[r st1]| |] eqn:Hm; [|done..].
      injection Hstep as <-. by eapply onMakeMove_tracked.
    + injection Hstep as <-. by apply onDisconnect_tracked.
    + injection Hstep as <-. by apply onReconnect_tracked.
    + by eapply fire_tracked.
Qed.
End ReachableFacts.

Section PairingClaim.
Import Matchmaking Lifecycle Handlers Invariants Examples.

Lemma spawnBotOpponent_not_waiting st now fresh x :
  map_has (waitingPlayers st) x = false ->
  spawnBotOpponent st now fresh x = (None, st).
Proof.
  intros H. apply map_has_false in H. unfold spawnBotOpponent. by rewrite H.
Qed.

(** C7.  For a queue entry, at most one of pairing and the bot fallback
    takes effect.  In every state the server can reach: when [joinQueue]
    answers with a pairing, the caller and the entry it is matched with are
    both out of the wait queue, neither has a handle left in
    [matchmakingTimeouts], the timers that were on record for them are no
    longer pending, no wait timer for either is pending at all, and
    [spawnBotOpponent] for either returns [null] and changes nothing.  In
    any state whatever, [spawnBotOpponent] for a socket that is not in the
    wait queue returns [null] and changes nothing, and a wait timer firing
    for such a socket creates no session and changes nothing beyond its own
    handle.  And in a reachable state a wait timer is pending only for a
    socket that is still in the queue. *)
Theorem pairing_excludes_bot_fallback (st : t) :
  reachable st ->
  (forall now fresh id name mode sidr opp st',
     joinQueue st now fresh id name mode = Done (JoinPaired sidr opp, st') ->
     exists otherId s,
       otherId <> id /\ map_has (waitingPlayers st) otherId = true /\
       getSession st' sidr = Some s /\
       socketId (player1 s) = Some id /\ socketId (player2 s) = Some otherId /\
       isVsBot s = false /\
       forall x, x = id \/ x = otherId ->
         map_has (waitingPlayers st') x = false /\
         matchmakingTimeouts st' !! x = None /\
         (forall h, matchmakingTimeouts st !! x = Some h ->
                    pending (timers st') !! h = None) /\
         ~ wait_timer_pending st' x /\
         (forall now' fresh', spawnBotOpponent st' now' fresh' x = (None, st'))) /\
  (forall st0 now fresh x,
     map_has (waitingPlayers st0) x = false ->
     spawnBotOpponent st0 now fresh x = (None, st0)) /\
  (forall st0 now fresh h d x,
     pending (timers st0) !! h = Some (Timer d (SpawnBot x)) -> d <= now ->
     map_has (waitingPlayers st0) x = false ->
     fire st0 now h fresh = Done (with_timers st0 (clearTimeout (timers st0) h))) /\
  (forall x, wait_timer_pending st x -> map_has (waitingPlayers st) x = true).
Proof.
  intros Hreach. pose proof (reachable_tracked st Hreach) as Htr.
  split; [|split; [|split]].
  - intros now fresh id name mode sidr opp st' Hjoin.
    pose proof (joinQueue_tracked _ _ _ _ _ _ _ _ Htr Hjoin) as Htr'.
    revert Hjoin. unfold joinQueue.
    destruct (map_has (waitingPlayers st) id) eqn:Hq; [done|].
    destruct (username_in_game st name); [done|].
    set (st1 := with_waitingPlayers st _).
    destruct (String.eqb mode "bot").
    { by destruct (spawnBotOpponent st1 now fresh id) as [[s|] st2]. }
    destruct (tryPairPlayers st1 now fresh id) as [[paired st2]| |] eqn:Hpair; [|done..].
    rewrite bind_Done. destruct paired as [[sidr' opp']|].
    2:{ by destruct (setTimeout _ _ _ _). }
    intros [= -> -> ->].
    apply tryPairPlayers_paired in Hpair
      as (otherId & other & current & Hne & Hcur & Hfind & -> & -> & Hw & Hmt & Htm & Ha).
    apply find_other_spec in Hfind as [_ Hother].
    eexists otherId, _. split; [done|]. split.
    { apply map_has_spec in Hother as [v Hv]. apply map_has_spec. exists v.
      simpl in Hv. by rewrite map_get_set_ne in Hv. }
    unfold getSession. rewrite Ha, map_get_set_eq. split; [done|].
    split; [done|]. split; [done|]. split; [done|].
    intros x Hx.
    assert (map_has (waitingPlayers st') x = false) as Hgone.
    { rewrite Hw. destruct Hx as [->| ->].
      - apply map_has_delete_eq.
      - rewrite map_has_delete_ne by done. apply map_has_delete_eq. }
    split; [done|]. split.
    { rewrite Hmt. destruct Hx as [->| ->].
      - apply lookup_delete_eq.
      - rewrite lookup_delete_ne by done. apply lookup_delete_eq. }
    split.
    { intros h Hh. rewrite Htm. subst st1. unfold with_waitingPlayers.
      cbn [matchmakingTimeouts timers].
      destruct Hx as [->| ->].
      - rewrite lookup_delete_ne, Hh by done.
        destruct (matchmakingTimeouts st !! otherId); simpl; apply lookup_delete_eq.
      - rewrite Hh.
        destruct (delete otherId (matchmakingTimeouts st) !! id); simpl.
        + apply lookup_delete_None. right. apply lookup_delete_eq.
        + apply lookup_delete_eq. }
    split.
    { intros (h & d & Hp). by apply (tracked_no_timer _ _ _ _ Htr' Hgone) in Hp. }
    intros now' fresh'. by apply spawnBotOpponent_not_waiting.
  - intros st0 now fresh x. apply spawnBotOpponent_not_waiting.
  - intros st0 now fresh h d x Hp Hdue Hx. unfold fire. rewrite Hp. simpl.
    replace (now <? d) with false by lia.
    by rewrite spawnBotOpponent_not_waiting.
  - intros x (h & d & Hp). destruct Htr as [Ht _]. by apply Ht in Hp as [? _].
Qed.

Lemma pairing_excludes_bot_fallback_witness :
  reachable alice_waiting /\
  joinQueue alice_waiting 1 "g2" "s2" "bob" "human"
    = Done (JoinPaired "g2" "alice", alice_bob_paired) /\
  ~ wait_timer_pending alice_bob_paired "s1" /\
  spawnBotOpponent alice_bob_paired 10000 "g3" "s1" = (None, alice_bob_paired).
Proof.
  assert (reachable alice_waiting) as Hreach.
  { apply (reachable_deliver new 0 (EvJoinQueue "s1" "alice" "human" "g1"));
      [apply reachable_new | vm_compute; reflexivity]. }
  assert (joinQueue alice_waiting 1 "g2" "s2" "bob" "human"
          = Done (JoinPaired "g2" "alice", alice_bob_paired)) as Hjoin
    by (vm_compute; reflexivity).
  split; [exact Hreach|]. split; [exact Hjoin|].
  destruct (pairing_excludes_bot_fallback alice_waiting Hreach) as [Hpair _].
  destruct (Hpair 1 "g2" "s2" "bob" "human" "g2" "alice" alice_bob_paired Hjoin)%string
    as (otherId & s & _ & _ & Hget & _ & Hsock & _ & Hboth).
  assert (otherId = "s1"%string) as Hother.
  { assert (getSession alice_bob_paired "g2" =
            Some (Session "g2"
                    (Participant (Some "s2") "bob" false true None None)
                    (Participant (Some "s1") "alice" false true None None)
                    false GameEngine.new 1 None None None 1))%string as Hs
      by reflexivity.
    rewrite Hs in Hget. injection Hget as Hget. rewrite <- Hget in Hsock.
    injection Hsock as Hsock. symmetry. exact Hsock. }
  destruct (Hboth "s1"%string (or_intror (eq_sym Hother)))
    as (_ & _ & _ & Hnone & Hspawn).
  split; [exact Hnone | exact (Hspawn 10000 "g3"%string)].
Defined.



End PairingClaim.

(** * Further properties of the engine *)

Section StepOfDropPiece.
Import GameEngine Rules Position.

(** Everything one call of [dropPiece] does, read off its three exits. *)
Lemma dropPiece_step (s : t) (col : Z) r s' :
  dropPiece s col = Done (r, s') ->
  (s' = s /\ exists e, r = Failure e) \/
  exists row b' w,
    legal (brd s) col /\ row = landing_row (brd s) col /\
    lowest_empty_cell (brd s) col row /\
    one_cell_written (brd s) b' row col (currentPlayer s) /\
    checkWin b' row col (currentPlayer s) = Done w /\
    brd s' = b' /\
    moveHistory s' = moveHistory s ++ [Move row col (currentPlayer s)] /\
    ((w = true /\ r = Placed row col true (Some (currentPlayer s)) false /\
      currentPlayer s' = currentPlayer s /\ gameOver s' = true /\
      winner s' = Some (currentPlayer s) /\ isDraw s' = isDraw s) \/
     (w = false /\ isBoardFull b' = true /\ r = Placed row col true None true /\
      currentPlayer s' = currentPlayer s /\ gameOver s' = true /\
      winner s' = winner s /\ isDraw s' = true) \/
     (w = false /\ isBoardFull b' = false /\ r = Placed row col false None false /\
      currentPlayer s' = next_player (currentPlayer s) /\
      gameOver s' = gameOver s /\ winner s' = winner s /\ isDraw s' = isDraw s)).
Proof.
  unfold dropPiece.
  destruct ((col <? 0) || (col >=? COLS)) eqn:Hrange; [intros [= <- <-]; eauto|].
  destruct (cell_is (brd s) 0 col EMPTY) eqn:Htop; simpl negb; cbv iota;
    [|intros [= <- <-]; eauto].
  apply cell_is_spec in Htop. apply orb_false_elim in Hrange as [H1 H2].
  pose proof (landing_row_legal _ _ Htop) as Hlow.
  destruct Hlow as (Hrow & Hempty & Hbelow).
  destruct (set_cell_existing _ _ _ _ (currentPlayer s) Hempty) as (b' & -> & Hw & _).
  rewrite bind_Done.
  destruct (checkWin b' (landing_row (brd s) col) col (currentPlayer s))
    as [w| |] eqn:Hcheck; [|done..].
  rewrite bind_Done. intros Hres. right.
  exists (landing_row (brd s) col), b', w.
  split; [split; [lia|done]|]. split; [done|]. split; [done|]. split; [done|].
  split; [done|].
  destruct w.
  - injection Hres as <- <-. simpl. split; [done|]. split; [done|]. left. done.
  - destruct (isBoardFull b') eqn:Hfull; injection Hres as <- <-; simpl;
      (split; [done|]); (split; [done|]); right; [left|right]; done.
Qed.

(** A property of every state [dropPiece] can lead to from a new engine
    follows from its holding of the new engine and being kept by each
    call. *)
Lemma played_ind (P : t -> Prop) :
  P new ->
  (forall s col r s', P s -> dropPiece s col = Done (r, s') -> P s') ->
  forall s, played s -> P s.
Proof.
  intros Hnew Hstep s (cols & rs & Hplay).
  assert (forall cols s0 rs s1, P s0 -> play s0 cols = Done (rs, s1) -> P s1) as Hgen.
  { clear Hplay Hnew cols rs. intros cols. induction cols as [|col cols IH]; intros s0 rs s1 H0; simpl.
    - by intros [= <- <-].
    - destruct (dropPiece s0 col) as [[r s2]| |] eqn:Hdrop; [|done..].
      rewrite bind_Done.
      destruct (play s2 cols) as [[rs2 s3]| |] eqn:Hplay; [|done..].
      rewrite bind_Done. intros [= <- <-].
      eapply IH; [|done]. by eapply Hstep. }
  by eapply Hgen.
Qed.
End StepOfDropPiece.

Section BoardInvariants.
Import GameEngine Rules Position.

Lemma cells_spec r c : In (r, c) cells <-> 0 <= r < ROWS /\ 0 <= c < COLS.
Proof.
  unfold cells. rewrite in_flat_map. split.
  - intros (r' & Hr' & Hin). apply in_map_iff in Hin as (c' & [= <- <-] & Hc').
    apply list_elem_of_In, elem_of_seqZ in Hr'. apply list_elem_of_In, elem_of_seqZ in Hc'.
    lia.
  - intros [Hr Hc]. exists r. split; [apply list_elem_of_In, elem_of_seqZ; lia|].
    apply in_map_iff. exists c. split; [done|]. apply list_elem_of_In, elem_of_seqZ. lia.
Qed.

Lemma cells_NoDup : NoDup cells.
Proof. apply (bool_decide_unpack _). by vm_compute. Qed.

Lemma occupied_in_grid b r c :
  wf_board b -> occupied b r c -> 0 <= r < ROWS /\ 0 <= c < COLS.
Proof.
  intros [Hlen Hall] (x & Hx & _).
  apply get_cell_Some in Hx as (Hr & Hc & rw & Hrw & Hx).
  pose proof (lookup_lt_Some _ _ _ Hrw) as H1.
  eapply Forall_lookup_1 in Hall; [|done].
  pose proof (lookup_lt_Some _ _ _ Hx) as H2.
  unfold ROWS, COLS in *. lia.
Qed.

Lemma occupied_iff b r c :
  wf_board b -> 0 <= r < ROWS -> 0 <= c < COLS ->
  (occupied b r c <-> get_cell b r c <> Some EMPTY).
Proof.
  intros Hwf Hr Hc. destruct (wf_get_cell b r c Hwf Hr Hc) as [x Hx].
  unfold occupied. rewrite Hx. split.
  - intros (y & [= <-] & Hne). congruence.
  - intros Hne. exists x. split; [done|]. congruence.
Qed.

(** A write into the lowest empty cell of a column keeps the marks
    settled. *)
Lemma settled_written b b' row col p :
  wf_board b -> settled b -> p <> EMPTY ->
  lowest_empty_cell b col row -> 0 <= col < COLS ->
  one_cell_written b b' row col p -> settled b'.
Proof.
  intros Hwf Hset Hp (Hrow & Hempty & Hbelow) Hcol [Hcell Hothers] r c Hocc Hr.
  assert (forall r0 c0, (r0 <> row \/ c0 <> col) ->
            (occupied b' r0 c0 <-> occupied b r0 c0)) as Hsame.
  { intros r0 c0 Hne. unfold occupied. by rewrite Hothers. }
  assert (occupied b' row col) as Hplaced by (by exists p).
  destruct (decide (r + 1 = row /\ c = col)) as [[Hr1 ->]|Hne1].
  { by rewrite Hr1. }
  apply Hsame; [destruct (decide (r + 1 = row)); [right|left]; tauto|].
  destruct (decide (r = row /\ c = col)) as [[-> ->]|Hne].
  - apply occupied_iff; [done|lia|done|]. apply Hbelow. lia.
  - apply Hset; [|done]. apply Hsame; [|done].
    destruct (decide (r = row)); [right|left]; tauto.
Qed.

Lemma marks_valid_written b b' row col p :
  marks_valid b -> p = PLAYER1 \/ p = PLAYER2 ->
  one_cell_written b b' row col p -> marks_valid b'.
Proof.
  intros Hm Hp [Hcell Hothers] r c x Hx.
  destruct (decide (r = row /\ c = col)) as [[-> ->]|Hne].
  - rewrite Hcell in Hx. injection Hx as <-. tauto.
  - rewrite Hothers in Hx; [by eapply Hm|].
    destruct (decide (r = row)); [right|left]; tauto.
Qed.

Lemma next_player_valid p : next_player p = PLAYER1 \/ next_player p = PLAYER2.
Proof. unfold next_player. destruct (p =? PLAYER1); tauto. Qed.

Lemma new_board_empty r c x : get_cell (brd new) r c = Some x -> x = EMPTY.
Proof.
  intros Hx. apply get_cell_Some in Hx as (_ & _ & rw & Hrw & Hx).
  simpl in Hrw. unfold initializeBoard in Hrw.
  apply lookup_replicate in Hrw as [-> _]. by apply lookup_replicate in Hx as [-> _].
Qed.

(** One call of [dropPiece] keeps the shape of the board, the validity of
    its marks, their being settled, and the turn being that of player 1 or
    2. *)
Lemma board_ok_step (s : t) (col : Z) r s' :
  wf_board (brd s) /\ marks_valid (brd s) /\ settled (brd s) /\
  (currentPlayer s = PLAYER1 \/ currentPlayer s = PLAYER2) ->
  dropPiece s col = Done (r, s') ->
  wf_board (brd s') /\ marks_valid (brd s') /\ settled (brd s') /\
  (currentPlayer s' = PLAYER1 \/ currentPlayer s' = PLAYER2).
Proof.
  intros (Hwf & Hmarks & Hset & Hp) Hdrop.
  pose proof (dropPiece_keeps_shape _ _ _ _ Hwf Hdrop) as Hwf'.
  apply dropPiece_step in Hdrop
    as [[-> _]|(row & b' & w & Hlegal & _ & Hlow & Hw & _ & Hb & _ & Hexit)]; [done|].
  rewrite Hb in *. split; [done|].
  assert (currentPlayer s <> EMPTY) as Hne by (unfold EMPTY, PLAYER1, PLAYER2 in *; lia).
  split; [by eapply marks_valid_written|].
  split; [eapply settled_written; [exact Hwf| | | | |]; try done; apply Hlegal|].
  destruct Hexit as [(_ & _ & -> & _)|[(_ & _ & _ & -> & _)|(_ & _ & _ & -> & _)]];
    [done|done|apply next_player_valid].
Qed.

Lemma board_ok_new :
  wf_board (brd new) /\ marks_valid (brd new) /\ settled (brd new) /\
  (currentPlayer new = PLAYER1 \/ currentPlayer new = PLAYER2).
Proof.
  split; [apply wf_new|]. split.
  - intros r c x Hx. left. by eapply new_board_empty.
  - split; [|by left]. intros r c (x & Hx & Hne).
    by apply new_board_empty in Hx.
Qed.

Lemma played_board_ok (s : t) :
  played s ->
  wf_board (brd s) /\ marks_valid (brd s) /\ settled (brd s) /\
  (currentPlayer s = PLAYER1 \/ currentPlayer s = PLAYER2).
Proof.
  revert s. apply played_ind; [apply board_ok_new|].
  intros s col r s' Hok Hdrop. by eapply board_ok_step.
Qed.

(** X1.  In every state that calls of [dropPiece] lead to from a new
    engine, the board is six by seven, every cell is empty or holds the mark
    of player 1 or 2, every mark rests on the bottom row or on another mark,
    and it is the turn of player 1 or 2. *)
Theorem played_board_settled (s : t) :
  played s ->
  wf_board (brd s) /\ marks_valid (brd s) /\ settled (brd s) /\
  (currentPlayer s = PLAYER1 \/ currentPlayer s = PLAYER2).
Proof. exact (played_board_ok s). Qed.

Lemma played_board_settled_witness :
  played Examples.won_vertical /\ settled (brd Examples.won_vertical).
Proof.
  assert (played Examples.won_vertical) as H.
  { exists [0; 1; 0; 1; 0; 1; 0]. eexists. vm_compute. reflexivity. }
  split; [exact H|].
  exact (proj1 (proj2 (proj2 (played_board_settled _ H)))).
Defined.
End BoardInvariants.

Section HistoryInvariants.
Import GameEngine Rules Position.

Lemma play_snoc (cols : list Z) : forall s0 rs s col r s',
  play s0 cols = Done (rs, s) -> dropPiece s col = Done (r, s') ->
  play s0 (cols ++ [col]) = Done (rs ++ [r], s').
Proof.
  induction cols as [|c cols IH]; intros s0 rs s col r s'; simpl.
  - intros [= <- <-] ->. done.
  - destruct (dropPiece s0 c) as [[r0 s1]| |]; [|done..]. rewrite !bind_Done.
    destruct (play s1 cols) as [[rs1 s2]| |] eqn:Hp; [|done..].
    rewrite bind_Done. intros [= <- <-] Hdrop. by rewrite (IH _ _ _ _ _ _ Hp Hdrop).
Qed.

Lemma played_step s col r s' :
  played s -> dropPiece s col = Done (r, s') -> played s'.
Proof.
  intros (cols & rs & Hplay) Hdrop. exists (cols ++ [col]), (rs ++ [r]).
  by eapply play_snoc.
Qed.

Lemma played_flags_ok (s : t) :
  played s ->
  (gameOver s = true <-> winner s <> None \/ isDraw s = true) /\
  (forall w, winner s = Some w -> w = PLAYER1 \/ w = PLAYER2) /\
  (isDraw s = true -> board_full (brd s)) /\
  (gameOver s = false ->
     currentPlayer s = if Nat.even (length (moveHistory s)) then PLAYER1 else PLAYER2).
Proof.
  intros Hplayed.
  assert (played s /\
          (gameOver s = true <-> winner s <> None \/ isDraw s = true) /\
          (forall w, winner s = Some w -> w = PLAYER1 \/ w = PLAYER2) /\
          (isDraw s = true -> board_full (brd s)) /\
          (gameOver s = false ->
           currentPlayer s =
             if Nat.even (length (moveHistory s)) then PLAYER1 else PLAYER2)) as H;
    [|tauto].
  revert s Hplayed. apply played_ind.
  - split; [by exists [], []|]. simpl. split; [split; [done|intros [?|?]; done]|].
    split; [done|]. split; done.
  - intros s col r s' (Hplayed & Hover & Hwin & Hdraw & Hturn) Hdrop.
    split; [by eapply played_step|].
    destruct (played_board_ok s Hplayed) as (_ & _ & _ & Hp).
    apply dropPiece_step in Hdrop
      as [[-> _]|(row & b' & w & Hlegal & _ & _ & _ & _ & Hb & Hh & Hexit)]; [done|].
    assert (isDraw s = false) as Hnodraw.
    { destruct (isDraw s) eqn:E; [|done]. exfalso.
      destruct Hlegal as [Hcol Htop]. by apply (Hdraw eq_refl col Hcol). }
    destruct Hexit as [(_ & _ & Hc & Hg & Hw & Hd)|[(_ & Hfull & _ & Hc & Hg & Hw & Hd)
                      |(_ & Hfull & _ & Hc & Hg & Hw & Hd)]];
      rewrite Hg, Hw, Hd.
    + split; [split; [intros _; by left|done]|]. split; [by intros w0 [= <-]|].
      split; [by rewrite Hnodraw|done].
    + split; [split; [intros _; by right|done]|]. split; [done|].
      split; [|done]. intros _. rewrite Hb. by apply isBoardFull_spec.
    + split; [done|]. split; [done|]. split; [by rewrite Hnodraw|].
      intros Hnot. rewrite Hc, Hh, length_app, (Hturn Hnot). simpl.
      rewrite Nat.add_1_r, Nat.even_succ, <- Nat.negb_even.
      by destruct (Nat.even (length (moveHistory s))).
Qed.

(** X2.  In every state that calls of [dropPiece] lead to from a new
    engine: the game is over exactly when a winner is recorded or the draw
    flag is set, a recorded winner is player 1 or 2, a draw flag means the
    board is full, and as long as the game is not over the players have
    moved in turn, player 1 being to move after an even number of moves. *)
Theorem played_flags (s : t) :
  played s ->
  (gameOver s = true <-> winner s <> None \/ isDraw s = true) /\
  (forall w, winner s = Some w -> w = PLAYER1 \/ w = PLAYER2) /\
  (isDraw s = true -> board_full (brd s)) /\
  (gameOver s = false ->
     currentPlayer s = if Nat.even (length (moveHistory s)) then PLAYER1 else PLAYER2).
Proof. exact (played_flags_ok s). Qed.

Lemma played_flags_witness :
  played Examples.three_each /\
  currentPlayer Examples.three_each = PLAYER1.
Proof.
  assert (played Examples.three_each) as H.
  { exists [0; 1; 0; 1; 0; 1]. eexists. vm_compute. reflexivity. }
  split; [exact H|].
  exact (proj2 (proj2 (proj2 (played_flags _ H))) eq_refl).
Defined.
End HistoryInvariants.

Section MoveLog.
Import GameEngine Rules Position.

Lemma filter_length_flip {A} `{EqDecision A} (f g : A -> bool) (l : list A) (x : A) :
  NoDup l -> x ∈ l -> f x = false -> g x = true ->
  (forall y, y <> x -> g y = f y) ->
  length (List.filter g l) = S (length (List.filter f l)).
Proof.
  intros Hnd Hin Hf Hg Hext. induction l as [|a l IH]; [by apply elem_of_nil in Hin|].
  apply NoDup_cons in Hnd as [Ha Hnd]. simpl.
  destruct (decide (a = x)) as [->|Hne].
  - rewrite Hf, Hg. simpl. f_equal. f_equal. apply filter_ext_in.
    intros y Hy. apply Hext. intros ->. by apply list_elem_of_In in Hy.
  - apply elem_of_cons in Hin as [->|Hin]; [done|].
    rewrite (Hext a Hne). destruct (f a); simpl; by rewrite IH.
Qed.

Lemma count_marks_written b b' row col p :
  0 <= row < ROWS -> 0 <= col < COLS ->
  get_cell b row col = Some EMPTY -> p <> EMPTY ->
  one_cell_written b b' row col p -> count_marks b' = S (count_marks b).
Proof.
  intros Hr Hc Hempty Hp [Hcell Hothers]. unfold count_marks.
  apply (filter_length_flip _ _ cells (row, col)).
  - apply cells_NoDup.
  - apply list_elem_of_In, cells_spec. done.
  - simpl. apply negb_false_iff. by apply cell_is_spec.
  - simpl. apply negb_true_iff, cell_is_false. rewrite Hcell. congruence.
  - intros [r c] Hne. simpl. unfold cell_is. rewrite Hothers; [done|].
    destruct (decide (r = row)) as [->|]; [right|by left]. congruence.
Qed.

Lemma count_marks_le b : (count_marks b <= 42)%nat.
Proof.
  unfold count_marks.
  etransitivity; [apply List.filter_length_le|]. by vm_compute.
Qed.

Lemma log_agrees_step (s : t) (col : Z) r s' :
  currentPlayer s = PLAYER1 \/ currentPlayer s = PLAYER2 ->
  log_agrees s -> dropPiece s col = Done (r, s') -> log_agrees s'.
Proof.
  intros Hp [Hlen Hcells] Hdrop.
  apply dropPiece_step in Hdrop
    as [[-> _]|(row & b' & w & Hlegal & _ & Hlow & Hw & _ & Hb & Hh & _)]; [done|].
  assert (currentPlayer s <> EMPTY) as Hne by (unfold EMPTY, PLAYER1, PLAYER2 in *; lia).
  destruct Hlow as (Hrow & Hempty & _). destruct Hlegal as [Hcol _].
  unfold log_agrees. rewrite Hb, Hh, length_app, Hlen. split.
  - rewrite (count_marks_written _ _ _ _ _ Hrow Hcol Hempty Hne Hw). simpl. lia.
  - destruct Hw as [Hcell Hothers]. intros m Hm.
    apply in_app_or in Hm as [Hm|[<-|[]]]; [|by simpl].
    destruct (Hcells m Hm) as [Hheld Hvalid]. split; [|done].
    rewrite Hothers; [done|].
    destruct (decide (mv_row m = row)) as [Hr|]; [right|by left].
    intros Hc. rewrite Hr, Hc, Hempty in Hheld. injection Hheld as Hheld.
    unfold EMPTY, PLAYER1, PLAYER2 in *. lia.
Qed.

Lemma log_agrees_new : log_agrees new.
Proof. split; [by vm_compute|]. intros m []. Qed.

Lemma played_log_ok (s : t) :
  played s ->
  length (moveHistory s) = count_marks (brd s) /\
  (length (moveHistory s) <= 42)%nat /\
  (forall m, In m (moveHistory s) ->
     get_cell (brd s) (mv_row m) (mv_col m) = Some (mv_player m) /\
     (mv_player m = PLAYER1 \/ mv_player m = PLAYER2)).
Proof.
  intros Hplayed.
  assert (played s /\ log_agrees s) as (_ & Hlen & Hcells).
  2:{ split; [done|]. split; [|done]. rewrite Hlen. apply count_marks_le. }
  revert s Hplayed. apply played_ind.
  - split; [by exists [], []|apply log_agrees_new].
  - intros s col r s' (Hplayed & Hlog) Hdrop.
    split; [by eapply played_step|].
    destruct (played_board_ok s Hplayed) as (_ & _ & _ & Hp).
    by eapply log_agrees_step.
Qed.

(** X3.  In every state that calls of [dropPiece] lead to from a new
    engine the move history and the board agree: there are exactly as many
    recorded moves as marks on the board, so never more than 42, and the
    cell of every recorded move still holds the mark of the player recorded
    for it. *)
Theorem played_history (s : t) :
  played s ->
  length (moveHistory s) = count_marks (brd s) /\
  (length (moveHistory s) <= 42)%nat /\
  (forall m, In m (moveHistory s) ->
     get_cell (brd s) (mv_row m) (mv_col m) = Some (mv_player m) /\
     (mv_player m = PLAYER1 \/ mv_player m = PLAYER2)).
Proof. exact (played_log_ok s). Qed.

Lemma played_history_witness :
  played Examples.won_vertical /\
  length (moveHistory Examples.won_vertical) = count_marks (brd Examples.won_vertical).
Proof.
  assert (played Examples.won_vertical) as H.
  { exists [0; 1; 0; 1; 0; 1; 0]. eexists. vm_compute. reflexivity. }
  split; [exact H|]. exact (proj1 (played_history _ H)).
Defined.
End MoveLog.

Section WinDetection.
Import GameEngine Rules Position.

(** A line of four on the board after a write either was there before or
    runs through the written cell. *)
Lemma line_after_write b b' row col p r0 c0 dr dc q :
  one_cell_written b b' row col p ->
  line_of_four b' r0 c0 dr dc q ->
  (holds b q r0 c0 /\ line_of_four b r0 c0 dr dc q) \/
  (q = p /\ line_of_four b' row col dr dc p).
Proof.
  intros [Hcell Hothers] (lo & hi & Hlohi & Hlen & Hall).
  set (a := Z.max lo (-3)).
  assert (lo <= a /\ a <= 0 /\ 0 <= a + 3 /\ a + 3 <= hi) as (Ha1 & Ha2 & Ha3 & Ha4)
    by (unfold a; lia).
  assert (forall k, a <= k <= a + 3 -> holds b' q (r0 + k * dr) (c0 + k * dc)) as Hwin
    by (intros k Hk; apply Hall; lia).
  assert (forall k, a <= k <= a + 3 ->
            r0 + k * dr = row -> c0 + k * dc = col ->
            q = p /\ line_of_four b' row col dr dc p) as Hthrough.
  { intros k Hk Hr Hc. destruct (Hwin k Hk) as [_ Hq].
    rewrite Hr, Hc, Hcell in Hq. injection Hq as ->. split; [done|].
    exists (a - k), (a + 3 - k). split; [lia|]. split; [lia|]. intros j Hj.
    replace (row + j * dr) with (r0 + (k + j) * dr) by (rewrite <- Hr; ring).
    replace (col + j * dc) with (c0 + (k + j) * dc) by (rewrite <- Hc; ring).
    apply Hwin. lia. }
  assert (forall k, a <= k <= a + 3 ->
            (r0 + k * dr = row /\ c0 + k * dc = col) \/
            holds b q (r0 + k * dr) (c0 + k * dc)) as Hcase.
  { intros k Hk.
    destruct (decide (r0 + k * dr = row /\ c0 + k * dc = col)) as [|Hne]; [by left|].
    right. destruct (Hwin k Hk) as [Hb Hq]. split; [done|].
    rewrite <- Hothers; [done|].
    destruct (decide (r0 + k * dr = row)); [right|left]; tauto. }
  destruct (Hcase a) as [[? ?]|H0]; [lia|right; by apply (Hthrough a); try lia|].
  destruct (Hcase (a + 1)) as [[? ?]|H1]; [lia|right; by apply (Hthrough (a + 1)); try lia|].
  destruct (Hcase (a + 2)) as [[? ?]|H2]; [lia|right; by apply (Hthrough (a + 2)); try lia|].
  destruct (Hcase (a + 3)) as [[? ?]|H3]; [lia|right; by apply (Hthrough (a + 3)); try lia|].
  assert (forall k, a <= k <= a + 3 -> holds b q (r0 + k * dr) (c0 + k * dc)) as Hold.
  { intros k Hk.
    assert (k = a \/ k = a + 1 \/ k = a + 2 \/ k = a + 3) as [-> | [-> | [-> | ->]]]
      by lia; done. }
  left. split.
  - specialize (Hold 0). rewrite !Z.mul_0_l, !Z.add_0_r in Hold. apply Hold. lia.
  - exists a, (a + 3). split; [lia|]. split; [lia|]. done.
Qed.

Lemma has_four_after_write b b' row col p q :
  one_cell_written b b' row col p ->
  has_four b' q -> has_four b q \/ (q = p /\ four_connected b' row col p).
Proof.
  intros Hw (r0 & c0 & _ & Hfour). unfold four_connected in *.
  destruct Hfour as [H|[H|[H|H]]];
    apply (line_after_write _ _ _ _ _ _ _ _ _ _ Hw) in H as [[Hh Hl]|[-> Hl]];
    first [ left; exists r0, c0; split; [exact Hh|]; unfold four_connected; tauto
          | right; split; [reflexivity|tauto] ].
Qed.

Lemma has_four_kept b b' row col p q :
  get_cell b row col = Some EMPTY -> q <> EMPTY ->
  one_cell_written b b' row col p -> has_four b q -> has_four b' q.
Proof.
  intros Hempty Hq [Hcell Hothers] (r0 & c0 & Hh & Hfour).
  assert (forall r c, holds b q r c -> holds b' q r c) as Hkeep.
  { intros r c [Hb Hx]. split; [done|]. rewrite Hothers; [done|].
    destruct (decide (r = row)) as [->|]; [right|by left].
    intros ->. congruence. }
  exists r0, c0. split; [by apply Hkeep|]. unfold four_connected in *.
  assert (forall dr dc, line_of_four b r0 c0 dr dc q -> line_of_four b' r0 c0 dr dc q)
    as Hline.
  { intros dr dc (lo & hi & H1 & H2 & H3). exists lo, hi. split; [done|].
    split; [done|]. intros k Hk. by apply Hkeep, H3. }
  destruct Hfour as [H|[H|[H|H]]]; apply Hline in H; tauto.
Qed.

(** X4.  Checking only the lines through the cell just played is enough.
    In every state that calls of [dropPiece] lead to from a new engine: as
    long as the game is not over, neither player has four in a line anywhere
    on the board, and whenever a winner is recorded, that player has four in
    a line on the board. *)
Theorem played_win_detected (s : t) :
  played s ->
  (gameOver s = false ->
     ~ has_four (brd s) PLAYER1 /\ ~ has_four (brd s) PLAYER2) /\
  (forall p, winner s = Some p -> has_four (brd s) p).
Proof.
  intros Hplayed.
  assert (played s /\
          (gameOver s = false ->
           ~ has_four (brd s) PLAYER1 /\ ~ has_four (brd s) PLAYER2) /\
          (forall p, winner s = Some p -> has_four (brd s) p)) as H; [|tauto].
  revert s Hplayed. apply played_ind.
  - split; [by exists [], []|]. split; [|done]. intros _.
    split; intros (r & c & [_ Hx] & _); by apply new_board_empty in Hx.
  - intros s col r s' (Hplayed & Hnone & Hwon) Hdrop.
    split; [by eapply played_step|].
    destruct (played_board_ok s Hplayed) as (_ & _ & _ & Hp).
    destruct (played_flags_ok s Hplayed) as (_ & Hwinner & _).
    apply dropPiece_step in Hdrop
      as [[-> _]|(row & b' & w & Hlegal & _ & Hlow & Hw & Hcheck & Hb & _ & Hexit)];
      [done|].
    destruct Hlow as (Hrow & Hempty & _). destruct Hlegal as [Hcol _].
    assert (holds b' (currentPlayer s) row col) as Hheld.
    { split; [|apply Hw]. unfold in_bounds.
      repeat (apply andb_true_intro; split); lia. }
    destruct (checkWin_spec _ _ _ _ Hheld) as (v & Hv & Hiff).
    rewrite Hcheck in Hv. injection Hv as <-.
    assert (forall q, winner s = Some q -> has_four b' q) as Hkeep.
    { intros q Hq. eapply has_four_kept; [exact Hempty| |exact Hw|by apply Hwon].
      apply Hwinner in Hq. unfold EMPTY, PLAYER1, PLAYER2 in *. lia. }
    rewrite Hb.
    destruct Hexit as [(-> & _ & _ & Hg & Hwin' & _)|[(_ & _ & _ & _ & Hg & Hwin' & _)
                      |(-> & _ & _ & _ & Hg & Hwin' & _)]];
      rewrite Hg, Hwin'.
    + split; [done|]. intros p [= <-]. exists row, col. split; [done|]. by apply Hiff.
    + split; [done|]. done.
    + split; [|done]. intros Hnot. destruct (Hnone Hnot) as [Hn1 Hn2].
      assert (~ four_connected b' row col (currentPlayer s)) as Hnofour
        by (intros Hf; by apply Hiff in Hf).
      split; intros Hfour;
        apply (has_four_after_write _ _ _ _ _ _ Hw) in Hfour as [?|[_ ?]]; done.
Qed.

Lemma played_win_detected_witness :
  played Examples.won_vertical /\ has_four (brd Examples.won_vertical) PLAYER1.
Proof.
  assert (played Examples.won_vertical) as H.
  { exists [0; 1; 0; 1; 0; 1; 0]. eexists. vm_compute. reflexivity. }
  split; [exact H|]. exact (proj2 (played_win_detected _ H) PLAYER1 eq_refl).
Defined.
End WinDetection.

Section FullBoard.
Import GameEngine Rules Position.

Lemma filter_all_length {A} (f : A -> bool) (l : list A) :
  length (List.filter f l) = length l <-> forall x, In x l -> f x = true.
Proof.
  induction l as [|a l IH]; simpl; [split; [intros _ x []|done]|].
  pose proof (List.filter_length_le f l) as Hle.
  destruct (f a) eqn:E; simpl.
  - split.
    + intros H x [<-|Hx]; [done|]. apply IH; [lia|done].
    + intros H. f_equal. apply IH. intros x Hx. apply H. by right.
  - split; [lia|]. intros H. specialize (H a (or_introl eq_refl)). congruence.
Qed.

Lemma settled_column_full b c :
  wf_board b -> settled b -> 0 <= c < COLS -> occupied b 0 c ->
  forall r, 0 <= r < ROWS -> occupied b r c.
Proof.
  intros Hwf Hset Hc Htop r Hr.
  assert (forall n : nat, Z.of_nat n < ROWS -> occupied b (Z.of_nat n) c) as H.
  { induction n as [|n IH]; intros Hn; [done|].
    rewrite Nat2Z.inj_succ. replace (Z.succ (Z.of_nat n)) with (Z.of_nat n + 1) by lia.
    apply Hset; [apply IH|]; lia. }
  specialize (H (Z.to_nat r)). rewrite Z2Nat.id in H by lia. apply H. lia.
Qed.

Lemma getValidMoves_nil b : getValidMoves b = [] <-> isBoardFull b = true.
Proof.
  rewrite isBoardFull_spec. split.
  - intros Hnil c Hc Hempty.
    assert (In c (getValidMoves b)) as Hin by (by apply getValidMoves_legal).
    by rewrite Hnil in Hin.
  - intros Hfull. destruct (getValidMoves b) as [|c l] eqn:E; [done|].
    assert (legal b c) as [Hc Hempty] by (apply getValidMoves_legal; rewrite E; by left).
    by apply Hfull in Hempty.
Qed.

(** X5.  [isBoardFull] looks at the top row only, and that is enough.  In
    every state that calls of [dropPiece] lead to from a new engine the
    following say the same: [isBoardFull()] is true; [getValidMoves()] is
    empty; every cell of the grid holds a mark; 42 moves are recorded. *)
Theorem board_full_characterised (s : t) :
  played s ->
  (isBoardFull (brd s) = true <-> getValidMoves (brd s) = []) /\
  (isBoardFull (brd s) = true <->
     forall r c, 0 <= r < ROWS -> 0 <= c < COLS -> occupied (brd s) r c) /\
  (isBoardFull (brd s) = true <-> length (moveHistory s) = 42%nat).
Proof.
  intros Hplayed.
  destruct (played_board_ok s Hplayed) as (Hwf & _ & Hset & _).
  destruct (played_log_ok s Hplayed) as (Hlen & _).
  assert (isBoardFull (brd s) = true <->
          forall r c, 0 <= r < ROWS -> 0 <= c < COLS -> occupied (brd s) r c) as Hall.
  { rewrite isBoardFull_spec. split.
    - intros Hfull r c Hr Hc. apply settled_column_full; try done.
      apply occupied_iff; [done|unfold ROWS; lia|done|]. by apply Hfull.
    - intros Hocc c Hc. apply occupied_iff; [done|unfold ROWS; lia|done|].
      apply Hocc; [unfold ROWS; lia|done]. }
  split; [symmetry; apply getValidMoves_nil|]. split; [done|].
  rewrite Hall, Hlen. unfold count_marks.
  change 42%nat with (length cells). rewrite filter_all_length. split.
  - intros Hocc [r c] Hin. apply cells_spec in Hin as [Hr Hc]. simpl.
    apply negb_true_iff, cell_is_false. apply occupied_iff; try done. by apply Hocc.
  - intros Hf r c Hr Hc. apply occupied_iff; try done.
    specialize (Hf (r, c)). simpl in Hf. apply cell_is_false, negb_true_iff, Hf.
    by apply cells_spec.
Qed.

Lemma board_full_characterised_witness :
  played Examples.won_vertical /\ isBoardFull (brd Examples.won_vertical) = false.
Proof.
  assert (played Examples.won_vertical) as H.
  { exists [0; 1; 0; 1; 0; 1; 0]. eexists. vm_compute. reflexivity. }
  split; [exact H|].
  destruct (isBoardFull (brd Examples.won_vertical)) eqn:E; [|reflexivity].
  apply (proj1 (proj2 (proj2 (board_full_characterised _ H)))) in E.
  vm_compute in E. discriminate E.
Defined.

(** X6.  The columns [getValidMoves()] lists are exactly those [dropPiece]
    accepts, in ascending order and each once. *)
Theorem valid_moves_are_the_playable (s : t) :
  wf_board (brd s) ->
  (forall col, In col (getValidMoves (brd s)) <->
     exists row over won draw s',
       dropPiece s col = Done (Placed row col over won draw, s')) /\
  StronglySorted Z.lt (getValidMoves (brd s)) /\
  NoDup (getValidMoves (brd s)).
Proof.
  intros Hwf. split; [|split; [apply getValidMoves_sorted|]].
  - intros col. rewrite getValidMoves_legal. split.
    + intros Hlegal.
      destruct (dropPiece_spec s col Hwf) as (r & s' & Hdrop & _ & _ & _ & Hplaced).
      destruct (Hplaced Hlegal) as (row & over & won & draw & -> & _). eauto 6.
    + intros (row & over & won & draw & s' & Hdrop).
      by apply dropPiece_step in Hdrop as [[_ [e ?]]|(? & ? & ? & ? & _)].
  - unfold getValidMoves. apply NoDup_ListNoDup, List.NoDup_filter, NoDup_ListNoDup.
    apply NoDup_seqZ.
Qed.

Lemma valid_moves_are_the_playable_witness :
  wf_board (brd new) /\ In 3 (getValidMoves (brd new)) /\
  exists row over won draw s', dropPiece new 3 = Done (Placed row 3 over won draw, s').
Proof.
  assert (wf_board (brd new)) as Hwf by (split; [reflexivity | repeat constructor]).
  assert (In 3 (getValidMoves (brd new))) as Hin by (vm_compute; tauto).
  split; [exact Hwf|]. split; [exact Hin|].
  exact (proj1 (proj1 (valid_moves_are_the_playable new Hwf) 3) Hin).
Defined.
End FullBoard.

Section BotMoves.
Import GameEngine Rules Position BotEngine.

Lemma makeMove_spec (s : t) :
  wf_board (brd s) ->
  (isBoardFull (brd s) = true ->
     getBestMove s = Done (-1, s) /\
     makeMove s = Raised "No valid moves available") /\
  (isBoardFull (brd s) = false ->
     exists row col over won draw s',
       getBestMove s = Done (col, s) /\ legal (brd s) col /\
       makeMove s = Done (Placed row col over won draw, s') /\
       dropPiece s col = Done (Placed row col over won draw, s')).
Proof.
  intros Hwf. split.
  - intros Hfull. apply getValidMoves_nil in Hfull.
    unfold makeMove, getBestMove. rewrite Hfull. done.
  - intros Hfull.
    assert (exists c, legal (brd s) c) as Hex.
    { destruct (getValidMoves (brd s)) as [|c l] eqn:E.
      - apply getValidMoves_nil in E. congruence.
      - exists c. apply getValidMoves_legal. rewrite E. by left. }
    destruct (getBestMove_returns s) as [col Hbest].
    assert (legal (brd s) col) as Hlegal.
    { unfold getBestMove in Hbest.
      pose proof (getValidMoves_legal (brd s)) as Hmem.
      destruct (getValidMoves (brd s)) as [|first rest] eqn:E.
      { destruct Hex as [c Hc]. by apply Hmem in Hc. }
      assert (forall c, In c (first :: rest) ->
                get_cell (brd s) 0 c = Some EMPTY) as Htop.
      { intros c Hc. by apply Hmem in Hc as [_ ?]. }
      destruct (first_decisive_spec s PLAYER2 _ Htop) as (r1 & Hr1 & Hs1).
      rewrite Hr1, bind_Done in Hbest. destruct r1 as [c1|].
      { injection Hbest as <-. destruct Hs1 as (_ & l1 & l2 & Hsplit & _).
        apply Hmem. rewrite Hsplit. apply in_elt. }
      destruct (first_decisive_spec s PLAYER1 _ Htop) as (r2 & Hr2 & Hs2).
      rewrite Hr2, bind_Done in Hbest. destruct r2 as [c2|].
      { injection Hbest as <-. destruct Hs2 as (_ & l1 & l2 & Hsplit & _).
        apply Hmem. rewrite Hsplit. apply in_elt. }
      rewrite evaluateMove_score_of, bind_Done in Hbest.
      destruct (best_of_spec s PLAYER2 (first :: rest) first
                  (Aux.score_of s first PLAYER2)) as (r & rs & Hr & Hcases).
      rewrite Hr, bind_Done in Hbest. injection Hbest as <-.
      apply Hmem. destruct Hcases as [(-> & _)|(l1 & l2 & Hsplit & _)].
      - by left.
      - rewrite Hsplit. apply in_elt. }
    destruct (dropPiece_spec s col Hwf) as (r & s' & Hdrop & _ & _ & _ & Hplaced).
    destruct (Hplaced Hlegal) as (row & over & won & draw & -> & _).
    exists row, col, over, won, draw, s'. split; [done|]. split; [done|].
    split; [|done]. unfold makeMove. rewrite Hbest, bind_Done.
    destruct Hlegal as [Hcol _].
    replace (col =? -1) with false by lia. done.
Qed.

(** X7.  [makeMove] never makes a rejected move.  On a six-by-seven board
    that is full it throws "No valid moves available" (what [getBestMove]
    answers is -1), and otherwise it plays the column [getBestMove] chose,
    which [dropPiece] accepts. *)
Theorem makeMove_plays_or_throws (s : t) :
  wf_board (brd s) ->
  (isBoardFull (brd s) = true ->
     getBestMove s = Done (-1, s) /\
     makeMove s = Raised "No valid moves available") /\
  (isBoardFull (brd s) = false ->
     exists row col over won draw s',
       getBestMove s = Done (col, s) /\ legal (brd s) col /\
       makeMove s = Done (Placed row col over won draw, s') /\
       dropPiece s col = Done (Placed row col over won draw, s')).
Proof. exact (makeMove_spec s). Qed.

Lemma makeMove_plays_or_throws_witness :
  wf_board (brd Examples.three_each) /\
  exists row col over won draw s',
    makeMove Examples.three_each = Done (Placed row col over won draw, s').
Proof.
  assert (wf_board (brd Examples.three_each)) as Hwf
    by (split; [reflexivity | repeat constructor]).
  split; [exact Hwf|].
  destruct (proj2 (makeMove_plays_or_throws Examples.three_each Hwf) eq_refl)
    as (row & col & over & won & draw & s' & _ & _ & Hmove & _).
  exists row, col, over, won, draw, s'. exact Hmove.
Defined.
End BotMoves.

Section Scores.
Import GameEngine Rules Position.





End Scores.

Section Counting.
Import GameEngine Rules Position.

Lemma stretch_unique (P : Z -> Prop) (m m' : Z) :
  0 <= m -> 0 <= m' ->
  (forall k, 1 <= k <= m -> P k) -> ~ P (m + 1) ->
  (forall k, 1 <= k <= m' -> P k) -> ~ P (m' + 1) -> m = m'.
Proof.
  intros Hm Hm' Hall Hstop Hall' Hstop'.
  destruct (Z.lt_trichotomy m m') as [Hlt|[->|Hgt]]; [|done|].
  - exfalso. apply Hstop, Hall'. lia.
  - exfalso. apply Hstop', Hall. lia.
Qed.

Lemma in_bounds_spec r c :
  in_bounds r c = true <-> 0 <= r < ROWS /\ 0 <= c < COLS.
Proof.
  unfold in_bounds. rewrite !andb_true_iff. unfold ROWS, COLS. lia.
Qed.

(** X9.  For a cell of the grid and a direction other than [(0, 0)],
    [countConsecutive] returns a count between 1 and 7, and the opposite
    direction gives the same count. *)
Theorem countConsecutive_symmetric (b : board) (row col dr dc p : Z) :
  dr <> 0 \/ dc <> 0 -> in_bounds row col = true ->
  exists n,
    countConsecutive b row col dr dc p = Done n /\
    countConsecutive b row col (- dr) (- dc) p = Done n /\
    1 <= n <= 7.
Proof.
  intros Hdir Hin.
  destruct (countConsecutive_spec b row col dr dc p Hdir)
    as (fwd & bwd & Hf & Hb & Hcount & Hfa & Hfs & Hba & Hbs).
  assert (- dr <> 0 \/ - dc <> 0) as Hdir' by lia.
  destruct (countConsecutive_spec b row col (- dr) (- dc) p Hdir')
    as (fwd' & bwd' & Hf' & Hb' & Hcount' & Hfa' & Hfs' & Hba' & Hbs').
  assert (forall k, row + k * - dr = row - k * dr) as Er by (intros; ring).
  assert (forall k, col + k * - dc = col - k * dc) as Ec by (intros; ring).
  assert (forall k, row - k * - dr = row + k * dr) as Er' by (intros; ring).
  assert (forall k, col - k * - dc = col + k * dc) as Ec' by (intros; ring).
  assert (fwd' = bwd) as ->.
  { apply (stretch_unique (fun k => holds b p (row - k * dr) (col - k * dc)));
      try done.
    - intros k Hk. rewrite <- Er, <- Ec. by apply Hfa'.
    - by rewrite <- Er, <- Ec. }
  assert (bwd' = fwd) as ->.
  { apply (stretch_unique (fun k => holds b p (row + k * dr) (col + k * dc)));
      try done.
    - intros k Hk. rewrite <- Er', <- Ec'. by apply Hba'.
    - by rewrite <- Er', <- Ec'. }
  exists (1 + fwd + bwd). split; [done|]. split; [rewrite Hcount'; f_equal; lia|].
  split; [lia|].
  apply in_bounds_spec in Hin.
  assert (0 <= row + fwd * dr < ROWS /\ 0 <= col + fwd * dc < COLS) as Hfar.
  { destruct (decide (fwd = 0)) as [->|]; [by rewrite !Z.mul_0_l, !Z.add_0_r|].
    apply in_bounds_spec. apply Hfa. lia. }
  assert (0 <= row - bwd * dr < ROWS /\ 0 <= col - bwd * dc < COLS) as Hnear.
  { destruct (decide (bwd = 0)) as [->|]; [by rewrite !Z.mul_0_l, !Z.sub_0_r|].
    apply in_bounds_spec. apply Hba. lia. }
  unfold ROWS, COLS in *.
  destruct Hdir as [Hd|Hd].
  - assert ((fwd + bwd) * dr <= 5 /\ - 5 <= (fwd + bwd) * dr) by nia. nia.
  - assert ((fwd + bwd) * dc <= 6 /\ - 6 <= (fwd + bwd) * dc) by nia. nia.
Qed.

Lemma countConsecutive_symmetric_witness :
  (1 <> 0 \/ 0 <> 0) /\ in_bounds 2 0 = true /\
  countConsecutive (brd Examples.won_vertical) 2 0 (-1) (-0) PLAYER1 = Done 4.
Proof.
  assert (1 <> 0 \/ 0 <> 0) as Hdir by (left; discriminate).
  assert (in_bounds 2 0 = true) as Hin by reflexivity.
  split; [exact Hdir|]. split; [exact Hin|].
  destruct (countConsecutive_symmetric (brd Examples.won_vertical) 2 0 1 0 PLAYER1
              Hdir Hin) as (n & Hfwd & Hbwd & _).
  assert (n = 4) as Hn.
  { assert (countConsecutive (brd Examples.won_vertical) 2 0 1 0 PLAYER1 = Done 4)
      as Hfour by (vm_compute; reflexivity).
    rewrite Hfour in Hfwd. injection Hfwd as Hfwd. symmetry. exact Hfwd. }
  rewrite Hn in Hbwd. exact Hbwd.
Defined.
End Counting.

(** * Further properties of the service *)

Section MapEntries.
Import Matchmaking ServerState.
Context {V : Type}.
Implicit Types (m : list (string * V)) (k : string) (v : V).

Lemma map_get_In m k v : map_get m k = Some v -> In (k, v) m.
Proof.
  induction m as [|[k0 v0] m IH]; simpl; [done|].
  destruct (String.eqb k0 k) eqn:E.
  - apply String.eqb_eq in E as ->. intros [= ->]. by left.
  - intros H. right. by apply IH.
Qed.

Lemma map_get_None m k : map_get m k = None <-> k ∉ keys m.
Proof.
  induction m as [|[k0 v0] m IH]; simpl.
  - split; [intros _; apply not_elem_of_nil|done].
  - rewrite not_elem_of_cons. destruct (String.eqb k0 k) eqn:E.
    + apply String.eqb_eq in E as ->. split; [done|]. intros [? _]. done.
    + apply String.eqb_neq in E. rewrite IH. split; [|tauto]. intros ?. split; [congruence|done].
Qed.

Lemma In_map_get m k v : NoDup (keys m) -> In (k, v) m -> map_get m k = Some v.
Proof.
  induction m as [|[k0 v0] m IH]; simpl; [done|].
  intros Hnd Hin. apply NoDup_cons in Hnd as [Hk0 Hnd].
  destruct Hin as [[= -> ->]|Hin].
  - by rewrite String.eqb_refl.
  - destruct (String.eqb k0 k) eqn:E; [|by apply IH].
    apply String.eqb_eq in E as ->. exfalso. apply Hk0.
    apply list_elem_of_In. unfold keys. apply in_map_iff. by exists (k, v).
Qed.

Lemma In_map_set m k v k' v' :
  In (k', v') (map_set m k v) -> (k' = k /\ v' = v) \/ In (k', v') m.
Proof.
  induction m as [|[k0 v0] m IH]; simpl.
  - intros [[= <- <-]|[]]. by left.
  - destruct (String.eqb k0 k) eqn:E; simpl.
    + apply String.eqb_eq in E as ->. intros [[= <- <-]|Hin]; [by left|right; by right].
    + intros [Heq|Hin]; [right; by left|]. apply IH in Hin as [?|?]; [by left|right; by right].
Qed.

Lemma keys_map_set m k v :
  keys (map_set m k v) = if map_has m k then keys m else keys m ++ [k].
Proof.
  unfold map_has. induction m as [|[k0 v0] m IH]; simpl; [done|].
  destruct (String.eqb k0 k) eqn:E; simpl; [done|]. rewrite IH.
  by destruct (map_get m k).
Qed.

Lemma NoDup_keys_set m k v : NoDup (keys m) -> NoDup (keys (map_set m k v)).
Proof.
  intros Hnd. rewrite keys_map_set. destruct (map_has m k) eqn:E; [done|].
  apply NoDup_app. split; [done|]. split; [|apply NoDup_singleton].
  intros x Hx Hx'. apply list_elem_of_singleton in Hx' as ->.
  apply map_has_false, map_get_None in E. done.
Qed.

Lemma In_map_delete m k k' v' :
  In (k', v') (map_delete m k) <-> In (k', v') m /\ k' <> k.
Proof.
  unfold map_delete. rewrite filter_In. simpl.
  rewrite negb_true_iff, String.eqb_neq. done.
Qed.

Lemma keys_map_delete m k : keys (map_delete m k) = List.filter (fun x => negb (String.eqb x k)) (keys m).
Proof.
  unfold keys, map_delete. induction m as [|[k0 v0] m IH]; simpl; [done|].
  destruct (negb (String.eqb k0 k)); simpl; by rewrite IH.
Qed.

Lemma NoDup_keys_delete m k : NoDup (keys m) -> NoDup (keys (map_delete m k)).
Proof.
  intros Hnd. rewrite keys_map_delete.
  apply NoDup_ListNoDup, List.NoDup_filter, NoDup_ListNoDup. done.
Qed.

Lemma length_map_set m k v : (length (map_set m k v) <= S (length m))%nat.
Proof.
  induction m as [|[k0 v0] m IH]; simpl; [lia|].
  destruct (String.eqb k0 k); simpl; lia.
Qed.

Lemma length_map_delete m k : (length (map_delete m k) <= length m)%nat.
Proof. apply List.filter_length_le. Qed.

Lemma length_map_delete_has m k :
  map_has m k = true -> (length (map_delete m k) < length m)%nat.
Proof.
  unfold map_has, map_delete. induction m as [|[k0 v0] m IH]; simpl; [done|].
  destruct (String.eqb k0 k) eqn:E; simpl.
  - intros _. pose proof (List.filter_length_le (fun kv => negb (String.eqb (fst kv) k)) m). lia.
  - intros H. apply IH in H. lia.
Qed.

Lemma map_delete_absent m k : map_has m k = false -> map_delete m k = m.
Proof.
  unfold map_has, map_delete. induction m as [|[k0 v0] m IH]; simpl; [done|].
  destruct (String.eqb k0 k) eqn:E; simpl; [done|]. intros H. f_equal. by apply IH.
Qed.

Lemma map_delete_set_absent m k v :
  map_has m k = false -> map_delete (map_set m k v) k = m.
Proof.
  unfold map_has, map_delete. induction m as [|[k0 v0] m IH]; simpl.
  - by rewrite String.eqb_refl.
  - destruct (String.eqb k0 k) eqn:E; simpl; [done|]. rewrite E. simpl.
    intros H. f_equal. by apply IH.
Qed.
End MapEntries.

Section EngineSound.
Import GameEngine Position.

Lemma sound_new : sound new.
Proof.
  destruct board_ok_new as (? & ? & ? & ?).
  split; [done|]. split; [done|]. split; [done|]. split; [done|].
  apply log_agrees_new.
Qed.

Lemma sound_step s col r s' :
  sound s -> dropPiece s col = Done (r, s') -> sound s'.
Proof.
  intros (Hwf & Hm & Hs & Hp & Hl) Hd.
  destruct (board_ok_step s col r s' (conj Hwf (conj Hm (conj Hs Hp))) Hd)
    as (? & ? & ? & ?).
  split; [done|]. split; [done|]. split; [done|]. split; [done|].
  exact (log_agrees_step s col r s' Hp Hl Hd).
Qed.

Lemma sound_gameOver s g : sound s -> sound (with_gameOver s g).
Proof. done. Qed.

(** The bot's move is a call of [dropPiece] on the engine as it was. *)
Lemma makeMove_step s r g :
  BotEngine.makeMove s = Done (r, g) ->
  exists col, dropPiece s col = Done (r, g).
Proof.
  unfold BotEngine.makeMove. destruct (getBestMove_returns s) as [col ->].
  rewrite bind_Done. destruct (col =? -1); [done|]. eauto.
Qed.

Lemma sound_moves g g' : ServerState.engine_moves g g' -> sound g -> sound g'.
Proof.
  intros [->|[->|(col & r & Hd)]] Hs; [done|done|by eapply sound_step].
Qed.
End EngineSound.

Section SessionsChange.
Import Matchmaking Handlers ServerState.

Lemma same_game_refl s : same_game s s.
Proof. done. Qed.

Lemma same_game_trans s1 s2 s3 : same_game s1 s2 -> same_game s2 s3 -> same_game s1 s3.
Proof.
  intros (? & ? & ? & ? & ?) (? & ? & ? & ? & ?).
  unfold same_game. repeat split; congruence.
Qed.

Lemma map_set_twice {V} (m : list (string * V)) k v1 v2 :
  map_set (map_set m k v1) k v2 = map_set m k v2.
Proof.
  induction m as [|[k0 v0] m IH]; simpl.
  - by rewrite String.eqb_refl.
  - destruct (String.eqb k0 k) eqn:E; simpl; rewrite E; [done|by rewrite IH].
Qed.

Lemma spawnBotOpponent_sessions st now fresh id r st' :
  spawnBotOpponent st now fresh id = (r, st') ->
  activeSessions st' = activeSessions st \/
  exists s, sessionId s = fresh /\ gameEngine s = GameEngine.new /\
            activeSessions st' = map_set (activeSessions st) fresh s.
Proof.
  unfold spawnBotOpponent. destruct (map_get _ _) as [w|]; [|intros [= <- <-]; by left].
  simpl. intros [= <- <-]. right. eexists. split; [|split].
  3: reflexivity.
  all: reflexivity.
Qed.

Lemma cancel_wait_timer_sessions st id :
  activeSessions (cancel_wait_timer st id) = activeSessions st.
Proof. unfold cancel_wait_timer. by destruct (_ !! _). Qed.

Lemma tryPairPlayers_sessions st now fresh id r st' :
  tryPairPlayers st now fresh id = Done (r, st') ->
  activeSessions st' = activeSessions st \/
  exists s, sessionId s = fresh /\ gameEngine s = GameEngine.new /\
            activeSessions st' = map_set (activeSessions st) fresh s.
Proof.
  unfold tryPairPlayers.
  destruct (List.find _ _) as [[otherId other]|]; [|intros [= <- <-]; by left].
  destruct (map_get _ _) as [cur|]; [|done].
  simpl. intros [= <- <-]. right. eexists. split; [|split].
  3: { simpl. rewrite !cancel_wait_timer_sessions. reflexivity. }
  all: reflexivity.
Qed.

Lemma joinQueue_sessions st now fresh id name mode r st' :
  joinQueue st now fresh id name mode = Done (r, st') ->
  activeSessions st' = activeSessions st \/
  exists s, sessionId s = fresh /\ gameEngine s = GameEngine.new /\
            activeSessions st' = map_set (activeSessions st) fresh s.
Proof.
  unfold joinQueue.
  destruct (map_has _ _); [intros [= <- <-]; by left|].
  destruct (username_in_game _ _); [intros [= <- <-]; by left|].
  destruct (String.eqb mode "bot").
  - destruct (spawnBotOpponent _ _ _ _) as [[s|] st2] eqn:Hs; [|done].
    intros [= <- <-]. by apply spawnBotOpponent_sessions in Hs.
  - destruct (tryPairPlayers _ _ _ _) as [[p st2]| |] eqn:Hp; [|done..].
    rewrite bind_Done. apply tryPairPlayers_sessions in Hp.
    destruct p as [[sid opp]|]; [by intros [= <- <-]|].
    simpl. by intros [= <- <-].
Qed.

Lemma markDisconnected_sessions st now id r st' :
  markDisconnected st now id = (r, st') ->
  activeSessions st' = activeSessions st \/
  exists key s0 s, In (key, s0) (activeSessions st) /\ same_game s0 s /\
                   gameEngine s = gameEngine s0 /\
                   activeSessions st' = map_set (activeSessions st) key s.
Proof.
  unfold markDisconnected, getSessionByPlayerId.
  destruct (List.find _ _) as [[key s]|] eqn:Hf; [|intros [= <- <-]; by left].
  apply find_some in Hf as [Hin _].
  simpl. intros [= <- <-]. right. eexists key, s, _.
  split; [done|]. split; [|split; [|reflexivity]]; by destruct (same_socket _ _).
Qed.

Lemma reconnect_sessions st now id name sid r st' :
  reconnect st now id name sid = (r, st') ->
  (st' = st /\ exists e, r = ReconnectError e) \/
  exists s0 s, map_get (activeSessions st) sid = Some s0 /\ same_game s0 s /\
               gameEngine s = gameEngine s0 /\
               r = Reconnected s /\
               activeSessions st' = map_set (activeSessions st) sid s.
Proof.
  unfold reconnect.
  destruct (map_get _ _) as [s|] eqn:Hg; [|intros [= <- <-]; left; eauto].
  destruct (negb _ && negb _) eqn:Hn; [intros [= <- <-]; left; eauto|].
  destruct (_ >? _); [intros [= <- <-]; left; eauto|].
  intros [= <- <-]. right. eexists s, _. split; [done|].
  split; [|split; [|split; [reflexivity|reflexivity]]].
  - destruct (String.eqb (username (player1 s)) name) eqn:E1; [done|].
    destruct (String.eqb (username (player2 s)) name) eqn:E2; [|done].
    unfold same_game. simpl. by repeat split.
  - by destruct (String.eqb (username (player1 s)) name).
Qed.

Lemma forfeitGame_sessions st now sid flag r st' :
  forfeitGame st now sid flag = (r, st') ->
  activeSessions st' = activeSessions st \/
  exists s0 s, map_get (activeSessions st) sid = Some s0 /\ same_game s0 s /\
               gameEngine s = GameEngine.with_gameOver (gameEngine s0) true /\
               activeSessions st' = map_set (activeSessions st) sid s.
Proof.
  unfold forfeitGame.
  destruct (map_get _ _) as [s|] eqn:Hg; [|intros [= <- <-]; by left].
  destruct (GameEngine.gameOver _); [intros [= <- <-]; by left|].
  intros [= <- <-]. right. eexists s, _. split; [done|].
  split; [|split]. 3: reflexivity. all: done.
Qed.

Lemma onMakeMove_sessions st now sock sid column r st' :
  onMakeMove st now sock sid column = Done (r, st') ->
  activeSessions st' = activeSessions st \/
  exists s0 s res, map_get (activeSessions st) sid = Some s0 /\ same_game s0 s /\
               GameEngine.dropPiece (gameEngine s0) column = Done (res, gameEngine s) /\
               activeSessions st' = map_set (activeSessions st) sid s.
Proof.
  unfold onMakeMove, getSession.
  destruct (map_get _ _) as [s|] eqn:Hg; [|intros [= <- <-]; by left].
  destruct (_ || _); [intros [= <- <-]; by left|].
  destruct (negb _ && negb _); [intros [= <- <-]; by left|].
  destruct (negb (_ =? _)); [intros [= <- <-]; by left|].
  destruct (GameEngine.dropPiece _ _) as [[res g]| |] eqn:Hd; [|done..].
  rewrite bind_Done. intros Hres. right.
  assert (exists s1, same_game s s1 /\ gameEngine s1 = g /\
                     activeSessions st' = map_set (activeSessions st) sid s1)
    as (s1 & Hsame & Hg1 & Hm).
  { destruct res as [e|row c [] won draw]; [| |destruct (isVsBot s)];
      injection Hres as <- <-; eexists; (split; [|split]).
    all: try reflexivity. all: done. }
  exists s, s1, res. by rewrite Hg1.
Qed.

Lemma onBotReply_sessions st now sid st' :
  onBotReply st now sid = Done st' ->
  activeSessions st' = activeSessions st \/
  exists s0 s col res, map_get (activeSessions st) sid = Some s0 /\ same_game s0 s /\
               GameEngine.dropPiece (gameEngine s0) col = Done (res, gameEngine s) /\
               activeSessions st' = map_set (activeSessions st) sid s.
Proof.
  unfold onBotReply, getSession.
  destruct (map_get _ _) as [s|] eqn:Hg; [|intros [= <-]; by left].
  destruct (negb _); [intros [= <-]; by left|].
  destruct (BotEngine.makeMove _) as [[res g]| |] eqn:Hm; [|intros [= <-]; by left|done].
  apply makeMove_step in Hm as [col Hd].
  intros Hres. right.
  assert (exists s1, same_game s s1 /\ gameEngine s1 = g /\
                     activeSessions st' = map_set (activeSessions st) sid s1)
    as (s1 & Hsame & Hg1 & Hm).
  { destruct res as [e|row c [] won draw]; injection Hres as <-;
      eexists; (split; [|split]).
    all: try reflexivity. all: done. }
  exists s, s1, col, res. by rewrite Hg1.
Qed.

Lemma onDisconnect_sessions st now sock :
  activeSessions (onDisconnect st now sock) = activeSessions st \/
  exists key s0 s, In (key, s0) (activeSessions st) /\ same_game s0 s /\
                   gameEngine s = gameEngine s0 /\
                   activeSessions (onDisconnect st now sock)
                     = map_set (activeSessions st) key s.
Proof.
  unfold onDisconnect. destruct (map_has _ _).
  - left. simpl. by destruct (_ !! _).
  - destruct (getSessionByPlayerId st sock); [|by left].
    destruct (markDisconnected st now sock) as [r st'] eqn:Hm.
    by apply markDisconnected_sessions in Hm.
Qed.

Lemma onReconnect_sessions st now sock name sid r st' :
  onReconnect st now sock name sid = (r, st') ->
  activeSessions st' = activeSessions st \/
  exists s0 s, map_get (activeSessions st) sid = Some s0 /\ same_game s0 s /\
               gameEngine s = gameEngine s0 /\
               activeSessions st' = map_set (activeSessions st) sid s.
Proof.
  unfold onReconnect.
  destruct (reconnect st now sock name sid) as [r1 st1] eqn:Hr.
  apply reconnect_sessions in Hr
    as [[-> [e ->]]|(s0 & s & Hg & Hsame & He & -> & Hm)]; [intros [= <- <-]; by left|].
  intros [= <- <-]. right. unfold update_session. simpl. rewrite Hm, map_set_twice.
  eexists s0, _. split; [done|]. split; [|split]. 3: reflexivity.
  - eapply same_game_trans; [exact Hsame|].
    by destruct (String.eqb (username (player1 s)) name).
  - rewrite <- He. by destruct (String.eqb (username (player1 s)) name).
Qed.

Lemma fire_sessions st now h fresh st' :
  fire st now h fresh = Done st' ->
  sessions_change (EvTimer h fresh) (activeSessions st) (activeSessions st').
Proof.
  unfold fire. destruct (_ !! _) as [tmr|]; [|intros [= <-]; by left].
  destruct (now <? due tmr); [intros [= <-]; by left|].
  destruct (action tmr) as [sock|sid flag|sid].
  - intros [= <-].
    destruct (spawnBotOpponent _ now fresh sock) as [r st1] eqn:Hs.
    apply spawnBotOpponent_sessions in Hs as [Hs|(s & Hid & He & Hs)]; simpl in *.
    + by left.
    + right. left. by exists fresh, s.
  - intros [= <-].
    destruct (forfeitGame _ now sid flag) as [r st1] eqn:Hf.
    apply forfeitGame_sessions in Hf as [Hf|(s0 & s & Hg & Hsame & He & Hf)]; simpl in *.
    + by left.
    + right. right. exists sid, s0, s. split; [by apply map_get_In|].
      split; [done|]. split; [|done]. right. by left.
  - intros Hb.
    apply onBotReply_sessions in Hb as [Hb|(s0 & s & col & res & Hg & Hsame & Hd & Hb)];
      simpl in *.
    + by left.
    + right. right. exists sid, s0, s. split; [by apply map_get_In|].
      split; [done|]. split; [|done]. right. right. eauto.
Qed.

(** What one turn of the event loop does to the map of sessions. *)
Lemma deliver_sessions st now ev st' :
  deliver st now ev = Done st' ->
  sessions_change ev (activeSessions st) (activeSessions st').
Proof.
  destruct ev as [sock name mode fresh|sock sid column|sock|sock name sid|h fresh];
    simpl; intros Hstep.
  - unfold onJoinQueue in Hstep.
    destruct (_ || _) in Hstep; [injection Hstep as <-; by left|].
    destruct (joinQueue st now fresh sock name mode) as [[r st1]| |] eqn:Hj; [|done..].
    injection Hstep as <-.
    apply joinQueue_sessions in Hj as [Hj|(s & Hid & He & Hj)]; [by left|].
    right. left. by exists fresh, s.
  - destruct (onMakeMove st now sock sid column) as [[r st1]| |] eqn:Hm; [|done..].
    injection Hstep as <-.
    apply onMakeMove_sessions in Hm as [Hm|(s0 & s & res & Hg & Hsame & Hd & Hm)];
      [by left|].
    right. right. exists sid, s0, s. split; [by apply map_get_In|].
    split; [done|]. split; [|done]. right. right. eauto.
  - injection Hstep as <-.
    destruct (onDisconnect_sessions st now sock)
      as [Hm|(key & s0 & s & Hin & Hsame & He & Hm)]; [by left|].
    right. right. exists key, s0, s. split; [done|].
    split; [done|]. split; [|done]. by left.
  - injection Hstep as <-.
    destruct (onReconnect st now sock name sid) as [r st1] eqn:Hr.
    apply onReconnect_sessions in Hr as [Hm|(s0 & s & Hg & Hsame & He & Hm)];
      [by left|].
    right. right. exists sid, s0, s. split; [by apply map_get_In|].
    split; [done|]. split; [|done]. by left.
  - exact (fire_sessions _ _ _ _ _ Hstep).
Qed.
End SessionsChange.

Section SessionInvariants.
Import Matchmaking Handlers ServerState Examples.

Lemma sessions_sound_change ev st st' :
  sessions_change ev (activeSessions st) (activeSessions st') ->
  sessions_sound st -> sessions_sound st'.
Proof.
  intros Hch [Hnd Hin]. unfold sessions_sound.
  destruct Hch as [->|[(f & s & _ & Hid & He & ->)|(key & s0 & s & Hk & Hsame & Hmv & ->)]].
  - done.
  - split; [by apply NoDup_keys_set|]. intros k v Hkv.
    apply In_map_set in Hkv as [[-> ->]|Hkv]; [|by apply Hin].
    split; [done|]. rewrite He. apply sound_new.
  - split; [by apply NoDup_keys_set|]. intros k v Hkv.
    apply In_map_set in Hkv as [[-> ->]|Hkv]; [|by apply Hin].
    apply Hin in Hk as [Hid Hs]. destruct Hsame as (Hid' & _).
    split; [congruence|]. by eapply sound_moves.
Qed.

Lemma reachable_sessions st : reachable st -> sessions_sound st.
Proof.
  induction 1 as [|st now ev st' _ IH Hstep].
  - split; [apply NoDup_nil_2|]. intros k v [].
  - eapply sessions_sound_change; [|exact IH]. by eapply deliver_sessions.
Qed.

Lemma find_In_key {V} (f : string * V -> bool) (m : list (string * V)) k v :
  NoDup (keys m) -> List.find f m = Some (k, v) -> map_get m k = Some v.
Proof. intros Hnd Hf. apply find_some in Hf as [Hin _]. by apply In_map_get. Qed.

(** X10.  In every state the server can reach, no two sessions are stored
    under the same id, the session stored under an id carries that id, its
    engine has a six-by-seven board of settled, valid marks, the turn of
    player 1 or 2 and a move history that agrees with the board, and the
    session found for a socket is the one stored under the key found with
    it. *)
Theorem reachable_sessions_sound (st : t) :
  reachable st ->
  NoDup (keys (activeSessions st)) /\
  (forall id s, getSession st id = Some s ->
     sessionId s = id /\ Position.sound (gameEngine s)) /\
  (forall sock key s, getSessionByPlayerId st sock = Some (key, s) ->
     getSession st key = Some s /\ sessionId s = key).
Proof.
  intros Hr. apply reachable_sessions in Hr as [Hnd Hin].
  split; [done|]. split.
  - intros id s Hg. apply Hin. by apply map_get_In.
  - intros sock key s Hf. unfold getSessionByPlayerId in Hf. split.
    + by eapply find_In_key.
    + apply find_some in Hf as [Hk _]. by apply Hin in Hk as [? _].
Qed.

Lemma alice_playing_reachable : reachable alice_playing.
Proof.
  apply (reachable_deliver new 0 (EvJoinQueue "s1" "alice" "bot" "g1"));
    [apply reachable_new|reflexivity].
Qed.

Lemma reachable_sessions_sound_witness :
  reachable alice_playing /\
  NoDup (keys (activeSessions alice_playing)) /\
  (forall id s, getSession alice_playing id = Some s ->
     sessionId s = id /\ Position.sound (gameEngine s)) /\
  (forall sock key s, getSessionByPlayerId alice_playing sock = Some (key, s) ->
     getSession alice_playing key = Some s /\ sessionId s = key).
Proof.
  split; [apply alice_playing_reachable|].
  apply (reachable_sessions_sound alice_playing), alice_playing_reachable.
Defined.

Lemma sessions_kept_change ev m m' :
  NoDup (keys m) ->
  (forall f, fresh_id ev = Some f -> map_get m f = None) ->
  sessions_change ev m m' ->
  forall id s, map_get m id = Some s ->
    exists s', map_get m' id = Some s' /\ same_game s s' /\
               engine_moves (gameEngine s) (gameEngine s').
Proof.
  intros Hnd Hfresh Hch id s Hg.
  destruct Hch as [->|[(f & s1 & Hf & Hid & He & ->)|(key & s0 & s1 & Hk & Hsame & Hmv & ->)]].
  - exists s. split; [done|]. split; [apply same_game_refl|by left].
  - exists s. apply Hfresh in Hf.
    rewrite map_get_set_ne by congruence.
    split; [done|]. split; [apply same_game_refl|by left].
  - destruct (decide (key = id)) as [->|Hne].
    + apply (In_map_get _ _ _ Hnd) in Hk. rewrite Hg in Hk. injection Hk as <-.
      exists s1. by rewrite map_get_set_eq.
    + exists s. rewrite map_get_set_ne by done.
      split; [done|]. split; [apply same_game_refl|by left].
Qed.

(** X11.  No event removes a session or changes who plays in it: when the
    id an event brings for a new session is not in use, every session of
    a reachable state is still stored under its id after the event, with
    the same id, usernames, bot flag and start time, and with an engine
    that is the same, or has the game-over flag set, or is one [dropPiece]
    further. *)
Theorem sessions_never_removed (st : t) (now : Z) (ev : event) (st' : t) :
  reachable st ->
  (forall f, fresh_id ev = Some f -> getSession st f = None) ->
  deliver st now ev = Done st' ->
  forall id s, getSession st id = Some s ->
    exists s', getSession st' id = Some s' /\ same_game s s' /\
               engine_moves (gameEngine s) (gameEngine s').
Proof.
  intros Hr Hfresh Hstep. apply reachable_sessions in Hr as [Hnd _].
  apply deliver_sessions in Hstep. unfold getSession.
  by eapply sessions_kept_change.
Qed.

Lemma sessions_never_removed_witness :
  exists s',
    getSession (returned new (deliver alice_playing 1000 (EvDisconnect "s1"))) "g1"
      = Some s' /\
    same_game (Session "g1"
                 (Participant (Some "s1") "alice" false true None None)
                 (Participant None "ConnectBot" true true None None)
                 true GameEngine.new 0 None None None 0) s'.
Proof.
  assert (forall f, fresh_id (EvDisconnect "s1") = Some f ->
                    getSession alice_playing f = None) as Hfresh by done.
  assert (deliver alice_playing 1000 (EvDisconnect "s1")
          = Done (returned new (deliver alice_playing 1000 (EvDisconnect "s1"))))
    as Hstep by reflexivity.
  destruct (sessions_never_removed alice_playing 1000 (EvDisconnect "s1") _
              alice_playing_reachable Hfresh Hstep "g1" _ eq_refl)
    as (s' & Hg & Hsame & _).
  by exists s'.
Defined.
End SessionInvariants.

Section QueueInvariants.
Import Matchmaking Handlers ServerState Housekeeping Examples.

Lemma map_set_absent {V} (m : list (string * V)) k v :
  map_has m k = false -> map_set m k v = m ++ [(k, v)].
Proof.
  unfold map_has. induction m as [|[k0 v0] m IH]; simpl; [done|].
  destruct (String.eqb k0 k); [done|]. intros H. f_equal. by apply IH.
Qed.

Lemma find_append {A} (f : A -> bool) (l1 l2 : list A) :
  List.find f (l1 ++ l2) =
    match List.find f l1 with Some x => Some x | None => List.find f l2 end.
Proof. induction l1 as [|a l1 IH]; simpl; [done|]. by destruct (f a). Qed.

Lemma queue_sound_delete st st' id :
  waitingPlayers st' = map_delete (waitingPlayers st) id ->
  queue_sound st -> queue_sound st'.
Proof.
  intros Hw [Hlen Hin]. unfold queue_sound. rewrite Hw. split.
  - pose proof (length_map_delete (waitingPlayers st) id). lia.
  - intros k w Hk. apply In_map_delete in Hk as [Hk _]. by apply Hin.
Qed.

Lemma queue_sound_same st st' :
  waitingPlayers st' = waitingPlayers st -> queue_sound st -> queue_sound st'.
Proof. unfold queue_sound. by intros ->. Qed.

Lemma tryPairPlayers_none_find st now fresh id st' :
  tryPairPlayers st now fresh id = Done (None, st') ->
  List.find (fun kv => negb (String.eqb (fst kv) id)) (waitingPlayers st) = None.
Proof.
  unfold tryPairPlayers.
  destruct (List.find _ (waitingPlayers st)) as [[otherId other]|]; [|done].
  destruct (map_get (waitingPlayers st) id); [|done].
  by destruct (createSession _ _ _ _ _ _ _ _).
Qed.

(** What [joinQueue] does to the queue, whatever its caller's mode. *)
Lemma joinQueue_waiting st now fresh id name mode r st' :
  joinQueue st now fresh id name mode = Done (r, st') ->
  (st' = st /\ exists e, r = JoinError e) \/
  (map_has (waitingPlayers st) id = false /\
   ((mode = "bot"%string /\ r = JoinBot fresh /\
     waitingPlayers st' = waitingPlayers st) \/
    (mode <> "bot"%string /\
     ((exists otherId other,
         List.find (fun kv => negb (String.eqb (fst kv) id)) (waitingPlayers st)
           = Some (otherId, other) /\
         r = JoinPaired fresh (w_username other) /\
         waitingPlayers st' = map_delete (waitingPlayers st) otherId) \/
      (List.find (fun kv => negb (String.eqb (fst kv) id)) (waitingPlayers st) = None /\
       r = JoinWaiting /\
       waitingPlayers st' = waitingPlayers st ++ [(id, Waiting id name mode now)]))))).
Proof.
  unfold joinQueue.
  destruct (map_has (waitingPlayers st) id) eqn:Hq; [intros [= <- <-]; left; eauto|].
  destruct (username_in_game st name); [intros [= <- <-]; left; eauto|].
  intros Hres. right. split; [done|].
  destruct (String.eqb mode "bot") eqn:Hmode.
  - apply String.eqb_eq in Hmode as ->. left. split; [done|].
    revert Hres. unfold spawnBotOpponent. simpl. rewrite map_get_set_eq. simpl.
    intros [= <- <-]. simpl. split; [done|]. by apply map_delete_set_absent.
  - apply String.eqb_neq in Hmode. right. split; [done|].
    set (st1 := with_waitingPlayers st _) in Hres.
    assert (forall x,
              List.find (fun kv => negb (String.eqb (fst kv) id)) (waitingPlayers st1) = x ->
              List.find (fun kv => negb (String.eqb (fst kv) id)) (waitingPlayers st) = x)
      as Hfind.
    { intros x. unfold st1. simpl. rewrite (map_set_absent _ _ _ Hq).
      rewrite find_append. destruct (List.find _ (waitingPlayers st)); [done|].
      simpl. by rewrite String.eqb_refl. }
    destruct (tryPairPlayers st1 now fresh id) as [[p st2]| |] eqn:Hp; [|done..].
    rewrite bind_Done in Hres. destruct p as [[sid opp]|].
    + injection Hres as <- <-. left.
      apply tryPairPlayers_paired in Hp
        as (otherId & other & cur & Hne & _ & Hf & -> & -> & Hw & _).
      exists otherId, other. split; [by apply Hfind|]. split; [done|].
      rewrite Hw. unfold st1. simpl.
      rewrite map_delete_comm. by rewrite map_delete_set_absent.
    + right. pose proof (tryPairPlayers_none_find _ _ _ _ _ Hp) as Hf.
      apply tryPairPlayers_none in Hp as ->. simpl in Hres. injection Hres as <- <-.
      split; [by apply Hfind|]. split; [done|].
      simpl. by apply map_set_absent.
Qed.

Lemma find_other_none_empty (w : list (string * waiting)) id :
  map_has w id = false ->
  List.find (fun kv => negb (String.eqb (fst kv) id)) w = None -> w = [].
Proof.
  destruct w as [|[k v] w]; [done|]. unfold map_has. simpl.
  destruct (String.eqb k id); [done|]. done.
Qed.

Lemma joinQueue_queue st now fresh id name mode r st' :
  queue_sound st ->
  joinQueue st now fresh id name mode = Done (r, st') -> queue_sound st'.
Proof.
  intros Hq Hj. apply joinQueue_waiting in Hj
    as [[-> _]|[Hno [(_ & _ & Hw)|[Hmode [(o & other & _ & _ & Hw)|(Hf & _ & Hw)]]]]].
  - done.
  - by eapply queue_sound_same.
  - by eapply queue_sound_delete.
  - apply find_other_none_empty in Hf as Hnil; [|done].
    unfold queue_sound. rewrite Hw, Hnil. simpl. split; [lia|].
    intros k w [[= <- <-]|[]]. done.
Qed.

Lemma spawnBotOpponent_waiting st now fresh id :
  waitingPlayers (snd (spawnBotOpponent st now fresh id))
    = map_delete (waitingPlayers st) id.
Proof.
  unfold spawnBotOpponent. destruct (map_get _ _) eqn:Hg; simpl; [done|].
  symmetry. apply map_delete_absent. unfold map_has. by rewrite Hg.
Qed.

Lemma forfeitGame_waiting st now sid flag :
  waitingPlayers (snd (forfeitGame st now sid flag)) = waitingPlayers st.
Proof.
  unfold forfeitGame. destruct (map_get _ _); [|done].
  by destruct (GameEngine.gameOver _).
Qed.

Lemma onBotReply_waiting st now sid st' :
  onBotReply st now sid = Done st' -> waitingPlayers st' = waitingPlayers st.
Proof.
  unfold onBotReply. destruct (getSession _ _) as [s|]; [|by intros [= <-]].
  destruct (negb _); [by intros [= <-]|].
  destruct (BotEngine.makeMove _) as [[res g]| |]; [|by intros [= <-]|done].
  destruct res as [e|row col [] won draw]; by intros [= <-].
Qed.

Lemma onMakeMove_waiting st now sock sid column r st' :
  onMakeMove st now sock sid column = Done (r, st') ->
  waitingPlayers st' = waitingPlayers st.
Proof.
  unfold onMakeMove.
  destruct (getSession st sid) as [s|]; [|by intros [= <- <-]].
  destruct ((column <? 0) || (column >=? 7)); [by intros [= <- <-]|].
  destruct (negb _ && negb _); [by intros [= <- <-]|].
  destruct (negb (_ =? _)); [by intros [= <- <-]|].
  destruct (GameEngine.dropPiece (gameEngine s) column) as [[moveResult g]| |]; [|done..].
  rewrite bind_Done. destruct moveResult as [e|row col over won draw].
  - by intros [= <- <-].
  - destruct over; [by intros [= <- <-]|].
    destruct (isVsBot s); by intros [= <- <-].
Qed.

Lemma markDisconnected_waiting st now sock :
  waitingPlayers (snd (markDisconnected st now sock)) = waitingPlayers st.
Proof.
  unfold markDisconnected. by destruct (getSessionByPlayerId st sock) as [[key s]|].
Qed.

Lemma onReconnect_waiting st now sock name sid :
  waitingPlayers (snd (onReconnect st now sock name sid)) = waitingPlayers st.
Proof.
  unfold onReconnect, reconnect.
  destruct (map_get (activeSessions st) sid) as [s|]; [|done].
  destruct (negb _ && negb _); [done|].
  by destruct (_ >? 30000).
Qed.

Lemma onDisconnect_waiting st now sock :
  waitingPlayers (onDisconnect st now sock) = map_delete (waitingPlayers st) sock.
Proof.
  unfold onDisconnect. destruct (map_has _ _) eqn:Hq.
  - simpl. by destruct (_ !! _).
  - rewrite (map_delete_absent _ _ Hq).
    destruct (getSessionByPlayerId st sock); [|done].
    apply markDisconnected_waiting.
Qed.

Lemma deliver_queue st now ev st' :
  queue_sound st -> deliver st now ev = Done st' -> queue_sound st'.
Proof.
  intros Hq.
  destruct ev as [sock name mode fresh|sock sid column|sock|sock name sid|h fresh];
    simpl; intros Hstep.
  - unfold onJoinQueue in Hstep.
    destruct (_ || _) in Hstep; [by injection Hstep as <-|].
    destruct (joinQueue st now fresh sock name mode) as [[r st1]| |] eqn:Hj; [|done..].
    injection Hstep as <-. by eapply joinQueue_queue.
  - destruct (onMakeMove st now sock sid column) as [[r st1]| |] eqn:Hm; [|done..].
    injection Hstep as <-. apply onMakeMove_waiting in Hm.
    by eapply queue_sound_same.
  - injection Hstep as <-. eapply queue_sound_delete; [|done].
    apply onDisconnect_waiting.
  - injection Hstep as <-. eapply queue_sound_same; [|done].
    apply onReconnect_waiting.
  - unfold fire in Hstep.
    destruct (pending (timers st) !! h) as [[d cb]|]; [|by injection Hstep as <-].
    simpl in Hstep. destruct (now <? d); [by injection Hstep as <-|].
    destruct cb as [x|sid flag|sid].
    + injection Hstep as <-. eapply queue_sound_delete; [|done].
      by rewrite spawnBotOpponent_waiting.
    + injection Hstep as <-. eapply queue_sound_same; [|done].
      by rewrite forfeitGame_waiting.
    + apply onBotReply_waiting in Hstep. by eapply queue_sound_same.
Qed.

Lemma reachable_queue st : reachable st -> queue_sound st.
Proof.
  induction 1 as [|st now ev st' _ IH Hstep].
  - split; [simpl; lia|]. intros k w [].
  - by eapply deliver_queue.
Qed.

(** X12.  In every state the server can reach at most one socket is
    waiting, so [getWaitingPlayerCount] is 0 or 1, and the entry that
    waits is stored under its own socket id and did not ask for the bot. *)
Theorem reachable_queue_sound (st : t) :
  reachable st ->
  (getWaitingPlayerCount st <= 1)%nat /\
  (forall id w, map_get (waitingPlayers st) id = Some w ->
     w_socketId w = id /\ w_gameMode w <> "bot"%string).
Proof.
  intros Hr. apply reachable_queue in Hr as [Hlen Hin]. split; [done|].
  intros id w Hg. apply Hin. by apply map_get_In.
Qed.

Lemma alice_waiting_reachable : reachable alice_waiting.
Proof.
  apply (reachable_deliver new 0 (EvJoinQueue "s1" "alice" "human" "g1"));
    [apply reachable_new|reflexivity].
Qed.

Lemma reachable_queue_sound_witness :
  reachable alice_waiting /\
  (getWaitingPlayerCount alice_waiting <= 1)%nat /\
  (forall id w, map_get (waitingPlayers alice_waiting) id = Some w ->
     w_socketId w = id /\ w_gameMode w <> "bot"%string).
Proof.
  split; [apply alice_waiting_reachable|].
  apply (reachable_queue_sound alice_waiting), alice_waiting_reachable.
Defined.
End QueueInvariants.

Section JoinOutcomes.
Import Matchmaking Handlers ServerState Housekeeping Examples.

(** X13.  A join in bot mode by a socket that is not waiting, under a
    username that is in no session, never waits and never pairs: it
    returns the new session id at once, the session has the caller as
    player 1 and ConnectBot, without a socket, as player 2, and whoever is
    in the queue stays there with the timers as they were. *)
Theorem joinQueue_bot_mode (st : t) (now : Z) (fresh id name : string) :
  map_has (waitingPlayers st) id = false ->
  username_in_game st name = false ->
  exists st',
    joinQueue st now fresh id name "bot" = Done (JoinBot fresh, st') /\
    getSession st' fresh =
      Some (Session fresh
              (Participant (Some id) name false true None None)
              (Participant None "ConnectBot" true true None None)
              true GameEngine.new now None None None now) /\
    (forall k, k <> fresh -> getSession st' k = getSession st k) /\
    waitingPlayers st' = waitingPlayers st /\
    timers st' = timers st /\
    matchmakingTimeouts st' = delete id (matchmakingTimeouts st).
Proof.
  intros Hq Hn. unfold joinQueue. rewrite Hq, Hn. simpl String.eqb. cbv iota.
  unfold spawnBotOpponent. simpl. rewrite map_get_set_eq. simpl.
  eexists. split; [reflexivity|]. unfold getSession. simpl.
  split; [by rewrite map_get_set_eq|].
  split; [intros k Hk; by rewrite map_get_set_ne|].
  split; [by apply map_delete_set_absent|]. done.
Qed.

Lemma joinQueue_bot_mode_witness :
  exists st',
    joinQueue alice_waiting 5 "g2" "s2" "bob" "bot" = Done (JoinBot "g2", st') /\
    waitingPlayers st' = waitingPlayers alice_waiting /\
    timers st' = timers alice_waiting.
Proof.
  assert (map_has (waitingPlayers alice_waiting) "s2" = false) as Hq by reflexivity.
  assert (username_in_game alice_waiting "bob" = false) as Hn by reflexivity.
  destruct (joinQueue_bot_mode alice_waiting 5 "g2" "s2" "bob" Hq Hn)
    as (st' & Hj & _ & _ & Hw & Ht & _).
  by exists st'.
Defined.

(** X14.  A join in another mode than bot, while the queue starts with
    another socket, pairs the caller with that first entry: the new
    session has the caller as player 1 and the one who waited as player
    2, who is told 'Not your turn' if they try to move first; both are off
    the queue and neither has a wait timer on record. *)
Theorem joinQueue_pairs_first_waiting (st : t) (now : Z)
    (fresh id name mode otherId : string) (other : waiting)
    (rest : list (string * waiting)) :
  waitingPlayers st = (otherId, other) :: rest ->
  map_has (waitingPlayers st) id = false ->
  username_in_game st name = false ->
  mode <> "bot"%string ->
  exists st',
    joinQueue st now fresh id name mode
      = Done (JoinPaired fresh (w_username other), st') /\
    getSession st' fresh =
      Some (Session fresh
              (Participant (Some id) name false true None None)
              (Participant (Some otherId) (w_username other) false true None None)
              false GameEngine.new now None None None now) /\
    (forall k, k <> fresh -> getSession st' k = getSession st k) /\
    waitingPlayers st' = map_delete rest otherId /\
    map_has (waitingPlayers st') id = false /\
    map_has (waitingPlayers st') otherId = false /\
    matchmakingTimeouts st' !! id = None /\
    matchmakingTimeouts st' !! otherId = None /\
    (forall now' col, 0 <= col < 7 ->
       onMakeMove st' now' otherId fresh col = Done (MoveError "Not your turn", st')).
Proof.
  intros Hw Hq Hn Hmode.
  assert (otherId <> id) as Hne.
  { intros ->. rewrite Hw in Hq. unfold map_has in Hq. simpl in Hq.
    by rewrite String.eqb_refl in Hq. }
  apply String.eqb_neq in Hne as Hne'.
  unfold joinQueue. rewrite Hq, Hn.
  apply String.eqb_neq in Hmode as ->.
  set (me := Waiting id name mode now).
  set (st1 := with_waitingPlayers st (map_set (waitingPlayers st) id me)).
  assert (waitingPlayers st1 = (otherId, other) :: rest ++ [(id, me)]) as Hw1.
  { unfold st1. simpl. by rewrite (map_set_absent _ _ _ Hq), Hw. }
  assert (map_delete (map_delete (waitingPlayers st1) id) otherId
          = map_delete rest otherId) as Hdel.
  { unfold st1. simpl. rewrite (map_delete_set_absent _ _ _ Hq), Hw.
    unfold map_delete. simpl. by rewrite String.eqb_refl. }
  assert (List.find (fun kv => negb (String.eqb (fst kv) id)) (waitingPlayers st1)
          = Some (otherId, other)) as Hfind.
  { rewrite Hw1. simpl. by rewrite Hne'. }
  unfold tryPairPlayers. rewrite Hfind. cbv iota beta. rewrite Hdel.
  assert (map_get (waitingPlayers st1) id = Some me) as ->.
  { unfold st1. simpl. apply map_get_set_eq. }
  unfold createSession. rewrite bind_Done.
  eexists. split; [reflexivity|].
  unfold getSession. cbn [activeSessions with_activeSessions].
  rewrite !cancel_wait_timer_sessions. cbn [activeSessions with_waitingPlayers st1].
  split; [by rewrite map_get_set_eq|].
  split; [intros k Hk; by rewrite map_get_set_ne|].
  rewrite !cancel_wait_timer_eq.
  cbn [waitingPlayers matchmakingTimeouts with_activeSessions with_waitingPlayers].
  split; [done|].
  assert (map_has rest id = false) as Hrest.
  { rewrite Hw in Hq. unfold map_has in *. simpl in Hq. by rewrite Hne' in Hq. }
  split; [by rewrite map_has_delete_ne|].
  split; [apply map_has_delete_eq|].
  split; [apply lookup_delete_eq|].
  split; [rewrite lookup_delete_ne by done; apply lookup_delete_eq|].
  intros now' col Hcol. unfold onMakeMove, getSession.
  cbn [activeSessions with_activeSessions]. rewrite map_get_set_eq.
  assert ((col <? 0) || (col >=? 7) = false) as -> by lia.
  cbn [player1 player2 socketId same_socket gameEngine].
  rewrite String.eqb_refl. rewrite String.eqb_sym, Hne'. done.
Qed.

Lemma joinQueue_pairs_first_waiting_witness :
  exists st',
    joinQueue alice_waiting 1 "g2" "s2" "bob" "human"
      = Done (JoinPaired "g2" "alice", st') /\
    waitingPlayers st' = [].
Proof.
  assert (map_has (waitingPlayers alice_waiting) "s2" = false) as Hq by reflexivity.
  assert (username_in_game alice_waiting "bob" = false) as Hn by reflexivity.
  assert ("human" <> "bot")%string as Hm by done.
  destruct (joinQueue_pairs_first_waiting alice_waiting 1 "g2" "s2" "bob" "human"
              "s1" (Waiting "s1" "alice" "human" 0) [] eq_refl Hq Hn Hm)
    as (st' & Hj & _ & _ & Hw & _).
  by exists st'.
Defined.
End JoinOutcomes.

Section RoundTrip.
Import Matchmaking Handlers ServerState Lifecycle Invariants Examples.

(** X15.  Round trip of a dropped connection.  When a socket that plays
    in a session of a reachable state disconnects and its username comes
    back for that session on a new socket no later than 30000 ms after,
    the reconnection succeeds: the participant has the new socket id, is
    connected, has no disconnect time and no timer on record, the other
    participant and the engine are untouched, and the timers pending are
    those from before the disconnect, so no forfeit is left to fire.  The
    username must not also be the one of player 1 when the socket was
    player 2's. *)
Theorem disconnect_then_reconnect (st : t) (t0 t1 : Z)
    (sock sock' name key : string) (s : session) :
  reachable st ->
  map_has (waitingPlayers st) sock = false ->
  getSessionByPlayerId st sock = Some (key, s) ->
  let flag := same_socket (socketId (player1 s)) sock in
  username (this_participant s flag) = name ->
  (flag = true \/ username (player1 s) <> name) ->
  t1 - t0 <= grace_window ->
  exists s' st2,
    onReconnect (onDisconnect st t0 sock) t1 sock' name key = (Reconnected s', st2) /\
    getSession st2 key = Some s' /\
    this_participant s' flag =
      Participant (Some sock') name (isBot (this_participant s flag)) true None None /\
    other_participant s' flag = other_participant s flag /\
    gameEngine s' = gameEngine s /\
    pending (timers st2) = pending (timers st) /\
    waitingPlayers st2 = waitingPlayers st.
Proof.
  intros Hr Hq Hf flag Hname Hwho Hwin.
  pose proof (reachable_tracked st Hr) as [_ Hfree].
  unfold onDisconnect. rewrite Hq, Hf.
  unfold markDisconnected. rewrite Hf. fold flag.
  cbn [setTimeout snd fst].
  unfold onReconnect, reconnect. cbn [activeSessions with_timers with_activeSessions].
  rewrite map_get_set_eq.
  assert ((t1 - t0 >? 30000) = false) as Htime by (unfold grace_window in Hwin; lia).
  assert (delete (next_handle (timers st))
            (<[next_handle (timers st) := Timer (t0 + 30000)
                 (ForfeitGame (sessionId s) flag)]> (pending (timers st)))
          = pending (timers st)) as Hdel.
  { rewrite delete_insert_eq. apply delete_id. apply Hfree. lia. }
  clearbody flag. unfold this_participant, other_participant in *.
  destruct flag.
  - apply String.eqb_eq in Hname.
    repeat first
      [ rewrite Hname | rewrite Htime
      | progress cbn [player1 player2 with_player1 with_player2 username
                      disconnectTime reconnectTimeout to_number isBot negb andb] ].
    eexists _, _. split; [reflexivity|].
    unfold getSession, update_session.
    cbn [activeSessions with_timers with_activeSessions timers].
    split; [by rewrite map_get_set_eq|].
    cbn. apply String.eqb_eq in Hname as ->.
    split; [done|]. split; [done|]. split; [done|]. split; [exact Hdel|done].
  - destruct Hwho as [|Hwho]; [done|]. apply String.eqb_neq in Hwho.
    apply String.eqb_eq in Hname.
    repeat first
      [ rewrite Hname | rewrite Hwho | rewrite Htime
      | progress cbn [player1 player2 with_player1 with_player2 username
                      disconnectTime reconnectTimeout to_number isBot negb andb] ].
    eexists _, _. split; [reflexivity|].
    unfold getSession, update_session.
    cbn [activeSessions with_timers with_activeSessions timers].
    split; [by rewrite map_get_set_eq|].
    cbn. apply String.eqb_eq in Hname as ->.
    split; [done|]. split; [done|]. split; [done|]. split; [exact Hdel|done].
Qed.

Lemma disconnect_then_reconnect_witness :
  exists s' st2,
    onReconnect (onDisconnect alice_playing 1000 "s1") 2000 "s9" "alice" "g1"
      = (Reconnected s', st2) /\
    player1 s' = Participant (Some "s9") "alice" false true None None /\
    pending (timers st2) = pending (timers alice_playing).
Proof.
  assert (map_has (waitingPlayers alice_playing) "s1" = false) as Hq by reflexivity.
  assert (2000 - 1000 <= grace_window) as Hwin by (unfold grace_window; lia).
  destruct (disconnect_then_reconnect alice_playing 1000 2000 "s1" "s9" "alice" "g1" _
              alice_playing_reachable Hq eq_refl eq_refl (or_introl eq_refl) Hwin)
    as (s' & st2 & Hre & _ & Hp & _ & _ & Ht & _).
  by exists s', st2.
Defined.
End RoundTrip.

Section MoveGate.
Import Matchmaking Handlers ServerState Lifecycle Examples.




Lemma onMakeMove_accepted_spec (st : t) (now : Z) (sock sid : string) (col : Z)
    (r : GameEngine.drop_result) (st' : t) :
  onMakeMove st now sock sid col = Done (MoveDone r, st') ->
  exists s g row over won draw,
    getSession st sid = Some s /\ 0 <= col < 7 /\
    let isPlayer1 := same_socket (socketId (player1 s)) sock in
    same_socket (socketId (this_participant s isPlayer1)) sock = true /\
    GameEngine.currentPlayer (gameEngine s)
      = (if isPlayer1 then GameEngine.PLAYER1 else GameEngine.PLAYER2) /\
    GameEngine.dropPiece (gameEngine s) col = Done (r, g) /\
    r = GameEngine.Placed row col over won draw /\
    getSession st' sid =
      Some (if over
            then with_ending (with_gameEngine s g) (Some now)
                   (Some (if draw then "draw" else "win")%string)
                   (if draw then None
                    else Some (username (this_participant s isPlayer1)))
            else with_gameEngine s g) /\
    (forall k, k <> sid -> getSession st' k = getSession st k) /\
    waitingPlayers st' = waitingPlayers st /\
    matchmakingTimeouts st' = matchmakingTimeouts st /\
    pending (timers st') =
      (if negb over && isVsBot s
       then <[next_handle (timers st) := Timer (now + 500) (BotReply sid)]>
              (pending (timers st))
       else pending (timers st)).
Proof.
  unfold onMakeMove.
  destruct (getSession st sid) as [s|] eqn:Hg; [|done].
  destruct ((col <? 0) || (col >=? 7)) eqn:Hcol; [done|].
  assert (0 <= col < 7) as Hrange by lia.
  destruct (negb _ && negb _) eqn:Hwho; [done|].
  destruct (negb (_ =? _)) eqn:Hturn; [done|].
  apply negb_false_iff, Z.eqb_eq in Hturn.
  destruct (GameEngine.dropPiece (gameEngine s) col) as [[res g]| |] eqn:Hd; [|done..].
  rewrite bind_Done. intros Hres.
  pose proof Hd as Hstep. apply dropPiece_step in Hstep
    as [[_ [e ->]]|(row & b' & w & _ & _ & _ & _ & _ & _ & _ & Hexit)]; [done|].
  assert (same_socket (socketId
            (this_participant s (same_socket (socketId (player1 s)) sock))) sock = true)
    as Hsock.
  { unfold this_participant.
    destruct (same_socket (socketId (player1 s)) sock) eqn:E1; [done|].
    by destruct (same_socket (socketId (player2 s)) sock). }
  unfold getSession, update_session in *.
  destruct Hexit as [(-> & -> & Hp & _)|[(-> & _ & -> & _)|(-> & _ & -> & _)]].
  - injection Hres as <- <-. eexists s, g, row, true, _, false.
    split; [done|]. split; [done|]. cbv zeta. split; [done|]. split; [done|].
    split; [done|]. split; [reflexivity|].
    cbn [activeSessions with_activeSessions waitingPlayers matchmakingTimeouts timers
         negb andb].
    rewrite map_get_set_eq. split.
    { f_equal. f_equal. rewrite Hturn. unfold this_participant.
      by destruct (same_socket (socketId (player1 s)) sock). }
    split; [intros k Hk; by rewrite map_get_set_ne|]. done.
  - injection Hres as <- <-. eexists s, g, row, true, _, true.
    split; [done|]. split; [done|]. cbv zeta. split; [done|]. split; [done|].
    split; [done|]. split; [reflexivity|].
    cbn [activeSessions with_activeSessions waitingPlayers matchmakingTimeouts timers
         negb andb].
    rewrite map_get_set_eq. split; [done|].
    split; [intros k Hk; by rewrite map_get_set_ne|]. done.
  - destruct (isVsBot s) eqn:Hbot; injection Hres as <- <-;
      eexists s, g, row, false, _, false;
      (split; [done|]); (split; [done|]); cbv zeta; (split; [done|]);
      (split; [done|]); (split; [done|]); (split; [reflexivity|]);
      cbn [activeSessions with_activeSessions with_timers waitingPlayers
           matchmakingTimeouts timers negb andb setTimeout snd pending];
      rewrite map_get_set_eq; (split; [done|]);
      (split; [intros k Hk; by rewrite map_get_set_ne|]); by rewrite Hbot.
Qed.

(** X17.  A move that [onMakeMove] accepts is a move of the participant
    whose turn it is, made through that participant's socket in a column
    0..6: the session's engine becomes the one [dropPiece] gives, nothing
    else of the session changes unless the move ends the game, and then
    the end time is the time of the move, the result is 'win' with the
    mover's username as winner or 'draw' with no winner.  A move that does
    not end a game against the bot schedules the bot's reply 500 ms
    later. *)
Theorem onMakeMove_accepted (st : t) (now : Z) (sock sid : string) (col : Z)
    (r : GameEngine.drop_result) (st' : t) :
  onMakeMove st now sock sid col = Done (MoveDone r, st') ->
  exists s g row over won draw,
    getSession st sid = Some s /\ 0 <= col < 7 /\
    let isPlayer1 := same_socket (socketId (player1 s)) sock in
    same_socket (socketId (this_participant s isPlayer1)) sock = true /\
    GameEngine.currentPlayer (gameEngine s)
      = (if isPlayer1 then GameEngine.PLAYER1 else GameEngine.PLAYER2) /\
    GameEngine.dropPiece (gameEngine s) col = Done (r, g) /\
    r = GameEngine.Placed row col over won draw /\
    getSession st' sid =
      Some (if over
            then with_ending (with_gameEngine s g) (Some now)
                   (Some (if draw then "draw" else "win")%string)
                   (if draw then None
                    else Some (username (this_participant s isPlayer1)))
            else with_gameEngine s g) /\
    (forall k, k <> sid -> getSession st' k = getSession st k) /\
    waitingPlayers st' = waitingPlayers st /\
    matchmakingTimeouts st' = matchmakingTimeouts st /\
    pending (timers st') =
      (if negb over && isVsBot s
       then <[next_handle (timers st) := Timer (now + 500) (BotReply sid)]>
              (pending (timers st))
       else pending (timers st)).
Proof. exact (onMakeMove_accepted_spec st now sock sid col r st'). Qed.

Lemma onMakeMove_accepted_witness :
  exists st' s',
    onMakeMove alice_playing 5 "s1" "g1" 3
      = Done (MoveDone (GameEngine.Placed 5 3 false None false), st') /\
    getSession st' "g1" = Some s' /\
    GameEngine.currentPlayer (gameEngine s') = GameEngine.PLAYER2 /\
    pending (timers st') !! 0%nat = Some (Timer 505 (BotReply "g1")).
Proof.
  assert (onMakeMove alice_playing 5 "s1" "g1" 3
          = Done (MoveDone (GameEngine.Placed 5 3 false None false),
                  snd (returned (MoveError "", new)
                         (onMakeMove alice_playing 5 "s1" "g1" 3)))) as H
    by reflexivity.
  destruct (onMakeMove_accepted _ _ _ _ _ _ _ H)
    as (s & g & row & over & won & draw & Hg & _ & _ & _ & Hd & Hr & Hs' & _ & _ & _ & Ht).
  injection Hr as _ <- _ _.
  injection Hg as <-. eexists _, _. split; [exact H|]. split; [exact Hs'|].
  split.
  - cbn [with_gameEngine gameEngine]. cbn in Hd.
    injection Hd as <-. reflexivity.
  - rewrite Ht. reflexivity.
Defined.
End MoveGate.
Section Cleanup.
Import Matchmaking Handlers ServerState Housekeeping Examples.

Lemma filter_twice {A} (f g : A -> bool) (l : list A) :
  List.filter f (List.filter g l) = List.filter (fun x => g x && f x) l.
Proof.
  induction l as [|a l IH]; simpl; [done|].
  destruct (g a); simpl; [|done]. destruct (f a); by rewrite IH.
Qed.

Lemma filter_all {A} (l : list A) : List.filter (fun _ => true) l = l.
Proof. induction l as [|a l IH]; simpl; [done|]. by rewrite IH. Qed.

Lemma keys_filter_subset {V} (f : string * V -> bool) (m : list (string * V)) k :
  k ∈ keys (List.filter f m) -> k ∈ keys m.
Proof.
  induction m as [|[k0 v0] m IH]; simpl; [done|].
  destruct (f (k0, v0)); simpl.
  - rewrite !elem_of_cons. intros [->|H]; [by left|right; by apply IH].
  - intros H. apply elem_of_cons. right. by apply IH.
Qed.

Lemma NoDup_keys_filter {V} (f : string * V -> bool) (m : list (string * V)) :
  NoDup (keys m) -> NoDup (keys (List.filter f m)).
Proof.
  induction m as [|[k0 v0] m IH]; simpl; [done|].
  intros Hnd. apply NoDup_cons in Hnd as [Hk Hnd].
  destruct (f (k0, v0)); simpl; [|by apply IH].
  apply NoDup_cons. split; [|by apply IH].
  intros Hin. by apply keys_filter_subset in Hin.
Qed.

Lemma map_get_filter {V} (f : string * V -> bool) (m : list (string * V)) k v :
  NoDup (keys m) -> map_get m k = Some v ->
  map_get (List.filter f m) k = if f (k, v) then Some v else None.
Proof.
  induction m as [|[k0 v0] m IH]; simpl; [done|].
  intros Hnd. apply NoDup_cons in Hnd as [Hk Hnd].
  destruct (String.eqb k0 k) eqn:E.
  - apply String.eqb_eq in E as ->. intros [= ->].
    destruct (f (k, v)); simpl; [by rewrite String.eqb_refl|].
    apply map_get_None. intros Hin. by apply keys_filter_subset in Hin.
  - intros Hg. destruct (f (k0, v0)); simpl; rewrite ?E; by apply IH.
Qed.

Lemma map_get_filter_None {V} (f : string * V -> bool) (m : list (string * V)) k :
  map_get m k = None -> map_get (List.filter f m) k = None.
Proof.
  rewrite !map_get_None. intros Hk Hin. by apply keys_filter_subset in Hin.
Qed.

Lemma existsb_key_absent {V} (P : V -> bool) (m : list (string * V)) k :
  k ∉ keys m ->
  existsb (fun kv' => P (snd kv') && String.eqb k (fst kv')) m = false.
Proof.
  induction m as [|[k0 v0] m IH]; simpl; [done|].
  rewrite not_elem_of_cons. intros [Hne Hk].
  apply String.eqb_neq in Hne. rewrite Hne, andb_false_r. by apply IH.
Qed.

Lemma existsb_key_unique {V} (P : V -> bool) (m : list (string * V)) kv :
  NoDup (keys m) -> In kv m ->
  existsb (fun kv' => P (snd kv') && String.eqb (fst kv) (fst kv')) m = P (snd kv).
Proof.
  induction m as [|[k0 v0] m IH]; simpl; [done|].
  intros Hnd. apply NoDup_cons in Hnd as [Hk Hnd]. intros [<-|Hin].
  - simpl. rewrite String.eqb_refl, andb_true_r.
    rewrite (existsb_key_absent P m k0 Hk). apply orb_false_r.
  - assert (fst kv <> k0) as Hne.
    { intros <-. apply Hk. apply list_elem_of_In. unfold keys.
      apply in_map_iff. by exists kv. }
    apply String.eqb_neq in Hne. rewrite Hne, andb_false_r. simpl. by apply IH.
Qed.

Lemma cleanup_fold now maxAgeMs (l m : list (string * session)) :
  fold_left
    (fun m kv => if expired now maxAgeMs (snd kv) then map_delete m (fst kv) else m)
    l m
  = List.filter
      (fun kv => negb (existsb (fun kv' => expired now maxAgeMs (snd kv')
                                           && String.eqb (fst kv) (fst kv')) l)) m.
Proof.
  revert m. induction l as [|a l IH]; intros m; simpl.
  - by rewrite filter_all.
  - rewrite IH. destruct (expired now maxAgeMs (snd a)); simpl; [|done].
    unfold map_delete. rewrite filter_twice. apply List.filter_ext.
    intros kv. simpl. by destruct (String.eqb (fst kv) (fst a)), (existsb _ l).
Qed.

(** X18.  [cleanupOldSessions] on a map without repeated keys removes
    exactly the sessions whose game is over and whose end time lies more
    than [maxAgeMs] before now (an end time never set counting as 0) and
    keeps the others in their order; so it never removes a session whose
    game is not over; it leaves the queue and all timers alone, and
    running it twice at the same time is running it once. *)
Theorem cleanupOldSessions_removes_expired (st : t) (now maxAgeMs : Z) :
  NoDup (keys (activeSessions st)) ->
  activeSessions (cleanupOldSessions st now maxAgeMs)
    = List.filter (fun kv => negb (expired now maxAgeMs (snd kv))) (activeSessions st) /\
  (forall id, getSession (cleanupOldSessions st now maxAgeMs) id =
     match getSession st id with
     | Some s => if expired now maxAgeMs s then None else Some s
     | None => None
     end) /\
  (forall id s, getSession st id = Some s ->
     GameEngine.gameOver (gameEngine s) = false ->
     getSession (cleanupOldSessions st now maxAgeMs) id = Some s) /\
  waitingPlayers (cleanupOldSessions st now maxAgeMs) = waitingPlayers st /\
  matchmakingTimeouts (cleanupOldSessions st now maxAgeMs) = matchmakingTimeouts st /\
  timers (cleanupOldSessions st now maxAgeMs) = timers st /\
  cleanupOldSessions (cleanupOldSessions st now maxAgeMs) now maxAgeMs
    = cleanupOldSessions st now maxAgeMs.
Proof.
  intros Hnd.
  assert (forall m : list (string * session), NoDup (keys m) ->
            fold_left
              (fun m kv => if expired now maxAgeMs (snd kv)
                           then map_delete m (fst kv) else m) m m
            = List.filter (fun kv => negb (expired now maxAgeMs (snd kv))) m) as Hfold.
  { intros m Hm. rewrite cleanup_fold. apply List.filter_ext_in.
    intros kv Hin. by rewrite (existsb_key_unique _ m kv Hm Hin). }
  assert (forall id, getSession (cleanupOldSessions st now maxAgeMs) id =
            match getSession st id with
            | Some s => if expired now maxAgeMs s then None else Some s
            | None => None
            end) as Hget.
  { intros id. unfold getSession, cleanupOldSessions. simpl. rewrite (Hfold _ Hnd).
    destruct (map_get (activeSessions st) id) as [s|] eqn:Hg.
    - rewrite (map_get_filter _ _ _ _ Hnd Hg). simpl. by destruct (expired _ _ s).
    - by apply map_get_filter_None. }
  split; [by apply Hfold|]. split; [done|]. split.
  { intros id s Hg Hover. rewrite Hget, Hg. unfold expired. by rewrite Hover. }
  split; [done|]. split; [done|]. split; [done|].
  unfold cleanupOldSessions. simpl. rewrite (Hfold _ Hnd).
  rewrite Hfold by (by apply NoDup_keys_filter).
  rewrite filter_twice. f_equal. apply List.filter_ext. intros kv. by destruct (negb _).
Qed.

Lemma cleanupOldSessions_removes_expired_witness :
  getSession (cleanupOldSessions Scenes.alice_forfeited 4000000 3600000) "g1" = None /\
  getSession (cleanupOldSessions alice_dropped 4000000 3600000) "g1"
    = getSession alice_dropped "g1".
Proof.
  assert (NoDup (keys (activeSessions Scenes.alice_forfeited)))
    as Hnd1 by (apply (bool_decide_unpack _); by vm_compute).
  assert (NoDup (keys (activeSessions alice_dropped)))
    as Hnd2 by (apply (bool_decide_unpack _); by vm_compute).
  destruct (cleanupOldSessions_removes_expired _ 4000000 3600000 Hnd1)
    as (_ & Hget1 & _).
  destruct (cleanupOldSessions_removes_expired _ 4000000 3600000 Hnd2)
    as (_ & Hget2 & _).
  split; [by rewrite Hget1|by rewrite Hget2].
Defined.
End Cleanup.
Section EndGame.
Import Matchmaking Handlers ServerState Housekeeping Lifecycle Examples.

(** X19.  [endGame] agrees with what [onMakeMove] recorded.  When a move
    accepted in a session whose engine had no draw on record ends the
    game, a later call of [endGame] for that session finds the same
    result ('win' or 'draw') and the same winner again and only moves the
    end time to the time of the call; the engine and the participants stay
    as they are. *)
Theorem endGame_after_final_move (st : t) (now : Z) (sock sid : string)
    (col row c : Z) (won : option Z) (draw : bool) (st1 : t) (now' : Z) :
  (forall s, getSession st sid = Some s ->
             GameEngine.isDraw (gameEngine s) = false) ->
  onMakeMove st now sock sid col
    = Done (MoveDone (GameEngine.Placed row c true won draw), st1) ->
  exists s1,
    getSession st1 sid = Some s1 /\
    result s1 = Some (if draw then "draw" else "win")%string /\
    endGame st1 now' sid =
      (Some (with_ending s1 (Some now') (result s1) (winner s1)),
       update_session st1 sid (with_ending s1 (Some now') (result s1) (winner s1))).
Proof.
  intros Hnodraw Hmove.
  apply onMakeMove_accepted_spec in Hmove
    as (s & g & row' & over & won' & draw' & Hg & _ & _ & Hturn & Hd & Hr & Hs1 & _).
  injection Hr as -> -> <- -> ->. cbv zeta in *.
  specialize (Hnodraw s Hg).
  eexists. split; [exact Hs1|].
  unfold endGame. unfold getSession in Hs1. rewrite Hs1.
  apply dropPiece_step in Hd
    as [[_ [e He]]|(r0 & b' & w & _ & _ & _ & _ & _ & _ & _ & Hexit)]; [done|].
  destruct Hexit as [(_ & Hr & Hp & _ & Hw & Hdr)|[(_ & _ & Hr & _ & _ & _ & Hdr)|(_ & _ & Hr & _)]];
    [| |done].
  - injection Hr as -> -> ->. split; [done|].
    cbn [with_ending with_gameEngine gameEngine endTime result winner player1 player2].
    rewrite Hdr, Hnodraw, Hw, Hp, Hturn. unfold truthy, update_session, this_participant.
    by destruct (same_socket (socketId (player1 s)) sock).
  - injection Hr as -> -> ->. split; [done|].
    cbn [with_ending with_gameEngine gameEngine endTime result winner player1 player2].
    by rewrite Hdr.
Qed.

Lemma endGame_after_final_move_witness :
  exists st1 s1,
    onMakeMove Scenes.three_each_paired 20 "s2" "g2" 0
      = Done (MoveDone (GameEngine.Placed 2 0 true (Some 1) false), st1) /\
    getSession st1 "g2" = Some s1 /\
    result s1 = Some "win"%string /\
    fst (endGame st1 99 "g2")
      = Some (with_ending s1 (Some 99) (result s1) (winner s1)).
Proof.
  assert (forall s, getSession Scenes.three_each_paired "g2" = Some s ->
                    GameEngine.isDraw (gameEngine s) = false) as Hnodraw
    by (by intros s [= <-]).
  assert (onMakeMove Scenes.three_each_paired 20 "s2" "g2" 0
          = Done (MoveDone (GameEngine.Placed 2 0 true (Some 1) false),
                  snd (returned (MoveError "", new)
                         (onMakeMove Scenes.three_each_paired 20 "s2" "g2" 0)))) as H
    by reflexivity.
  destruct (endGame_after_final_move _ _ _ _ _ _ _ _ _ _ 99 Hnodraw H)
    as (s1 & Hg & Hres & Hend).
  eexists _, s1. split; [exact H|]. split; [exact Hg|]. split; [exact Hres|].
  by rewrite Hend.
Defined.
End EndGame.
Section BotReplies.
Import Matchmaking Handlers ServerState Lifecycle Invariants Examples.

(** X20.  The bot's reply.  When the human on player 1's socket makes an
    accepted move that does not end the game in a session against the bot
    of a reachable state, the reply timer the move leaves is due 500 ms
    later; fired before, it does nothing; fired from then on, the bot
    drops the mark of player 2 into the column [getBestMove] chooses,
    which is always accepted, and the timer is gone.  If that move ends
    the game, the session gets the time of the reply as end time and
    result 'win' with winner 'ConnectBot', or result 'draw' with the
    human's username as winner. *)
Theorem bot_reply_follows_move (st : t) (now : Z) (sock sid : string)
    (col row c : Z) (st1 : t) (now' : Z) (fresh : string) (s : session) :
  reachable st ->
  getSession st sid = Some s ->
  isVsBot s = true ->
  same_socket (socketId (player1 s)) sock = true ->
  onMakeMove st now sock sid col
    = Done (MoveDone (GameEngine.Placed row c false None false), st1) ->
  now + 500 <= now' ->
  let h := next_handle (timers st) in
  pending (timers st1) !! h = Some (Timer (now + 500) (BotReply sid)) /\
  (forall t0, t0 < now + 500 -> fire st1 t0 h fresh = Done st1) /\
  exists g1 g2 brow bcol over won draw st2,
    getSession st1 sid = Some (with_gameEngine s g1) /\
    GameEngine.currentPlayer g1 = GameEngine.PLAYER2 /\
    BotEngine.getBestMove g1 = Done (bcol, g1) /\
    GameEngine.dropPiece g1 bcol
      = Done (GameEngine.Placed brow bcol over won draw, g2) /\
    GameEngine.get_cell (GameEngine.brd g2) brow bcol = Some GameEngine.PLAYER2 /\
    fire st1 now' h fresh = Done st2 /\
    getSession st2 sid =
      Some (if over
            then with_ending (with_gameEngine s g2) (Some now')
                   (Some (if draw then "draw" else "win")%string)
                   (Some (if draw then username (player1 s)
                          else "ConnectBot"%string))
            else with_gameEngine s g2) /\
    pending (timers st2) = pending (timers st).
Proof.
  intros Hr Hg Hbot Hp1 Hmove Hdue h.
  pose proof (reachable_tracked st Hr) as [_ Hfree].
  pose proof (reachable_sessions st Hr) as [_ Hsound].
  apply map_get_In in Hg as Hin. apply Hsound in Hin as [_ Hs].
  apply onMakeMove_accepted_spec in Hmove
    as (s0 & g1 & row' & over0 & won0 & draw0 & Hg0 & _ & _ & Hturn & Hd & Hres
        & Hs1 & _ & _ & _ & Hpend).
  rewrite Hg in Hg0. injection Hg0 as <-. injection Hres as -> -> <- <- <-.
  cbv zeta in *. rewrite Hp1 in Hturn. rewrite Hbot in Hpend. simpl in Hpend.
  fold h in Hpend.
  assert (pending (timers st1) !! h = Some (Timer (now + 500) (BotReply sid))) as Hlook.
  { rewrite Hpend. apply lookup_insert_eq. }
  split; [done|]. split.
  { intros t0 Ht0. unfold fire. rewrite Hlook. simpl.
    by replace (t0 <? now + 500) with true by lia. }
  pose proof (sound_step _ _ _ _ Hs Hd) as Hs'.
  pose proof Hd as Hstep. apply dropPiece_step in Hstep
    as [[_ [e ?]]|(r0 & b' & w & _ & _ & _ & _ & _ & Hb & _ & Hexit)]; [done|].
  destruct Hexit as [(_ & ? & _)|[(_ & _ & ? & _)|(_ & Hfull & _ & Hcur & _)]];
    [done|done|].
  rewrite <- Hb in Hfull. rewrite Hturn in Hcur.
  destruct Hs' as (Hwf & _).
  destruct (proj2 (makeMove_spec g1 Hwf) Hfull)
    as (brow & bcol & over & won & draw & g2 & Hbest & _ & Hmake & Hdrop).
  assert (GameEngine.get_cell (GameEngine.brd g2) brow bcol = Some GameEngine.PLAYER2 /\
          (over = true -> draw = false -> won = Some GameEngine.PLAYER2) /\
          (over = true -> draw = true -> won = None)) as (Hcell & Hwon & Hdraw).
  { pose proof Hdrop as Hstep. apply dropPiece_step in Hstep
      as [[_ [e ?]]|(r1 & b2 & w2 & _ & _ & _ & [Hw _] & _ & Hb2 & _ & Hexit)]; [done|].
    rewrite Hcur in *. rewrite Hb2.
    destruct Hexit as [(_ & Hr1 & _)|[(_ & _ & Hr1 & _)|(_ & _ & Hr1 & _)]];
      injection Hr1 as -> -> -> ->; done. }
  assert (delete h (pending (timers st1)) = pending (timers st)) as Hgone.
  { rewrite Hpend, delete_insert_eq. apply delete_id, Hfree. unfold h. lia. }
  assert (exists st2,
            fire st1 now' h fresh = Done st2 /\
            getSession st2 sid =
              Some (if over
                    then with_ending (with_gameEngine s g2) (Some now')
                           (Some (if draw then "draw" else "win")%string)
                           (Some (if draw then username (player1 s)
                                  else "ConnectBot"%string))
                    else with_gameEngine s g2) /\
            pending (timers st2) = pending (timers st)) as (st2 & Hfire & Hs2 & Hp2).
  { unfold fire. rewrite Hlook. simpl.
    replace (now' <? now + 500) with false by lia.
    unfold onBotReply, getSession in *. cbn [activeSessions with_timers].
    rewrite Hs1. cbn [isVsBot with_gameEngine gameEngine negb]. rewrite Hbot.
    cbn [negb]. rewrite Hmake.
    destruct over.
    - eexists. split; [reflexivity|]. unfold update_session.
      cbn [activeSessions with_activeSessions with_timers timers clearTimeout pending].
      rewrite map_get_set_eq. split; [|done].
      destruct draw.
      + by rewrite (Hdraw eq_refl eq_refl).
      + by rewrite (Hwon eq_refl eq_refl).
    - eexists. split; [reflexivity|]. unfold update_session.
      cbn [activeSessions with_activeSessions with_timers timers clearTimeout pending].
      by rewrite map_get_set_eq. }
  exists g1, g2, brow, bcol, over, won, draw, st2. done.
Qed.

Lemma bot_reply_follows_move_witness :
  exists st1,
    onMakeMove alice_playing 5 "s1" "g1" 3
      = Done (MoveDone (GameEngine.Placed 5 3 false None false), st1) /\
    pending (timers st1) !! 0%nat = Some (Timer 505 (BotReply "g1")) /\
    exists g2 brow bcol st2,
      fire st1 505 0%nat "g9" = Done st2 /\
      GameEngine.get_cell (GameEngine.brd g2) brow bcol = Some GameEngine.PLAYER2.
Proof.
  assert (onMakeMove alice_playing 5 "s1" "g1" 3
          = Done (MoveDone (GameEngine.Placed 5 3 false None false),
                  snd (returned (MoveError "", new)
                         (onMakeMove alice_playing 5 "s1" "g1" 3)))) as H
    by reflexivity.
  assert (5 + 500 <= 505) as Hdue by lia.
  destruct (bot_reply_follows_move alice_playing 5 "s1" "g1" 3 5 3 _ 505 "g9" _
              alice_playing_reachable eq_refl eq_refl eq_refl H Hdue)
    as (Hlook & _ & g1 & g2 & brow & bcol & over & won & draw & st2
        & _ & _ & _ & _ & Hcell & Hfire & _).
  eexists. split; [exact H|]. split; [exact Hlook|].
  exists g2, brow, bcol, st2. split; [exact Hfire|exact Hcell].
Defined.
End BotReplies.
Section JoinGate.
Import Matchmaking Handlers ServerState Lifecycle Invariants Examples.



(** X22.  Waiting, then the bot.  A join in another mode than bot into an
    empty queue of a reachable state, under a username in no session,
    leaves the caller as the only one waiting, with a timer due 10000 ms
    later on record.  Fired before that time the timer does nothing; fired
    from then on it takes the caller off the queue and starts a session
    against ConnectBot with the caller as player 1, and neither the timer
    nor its record is left. *)
Theorem wait_then_bot (st : t) (now : Z) (fresh id name mode : string)
    (now' : Z) (fresh' : string) :
  reachable st ->
  waitingPlayers st = [] ->
  username_in_game st name = false ->
  mode <> "bot"%string ->
  now + 10000 <= now' ->
  let h := next_handle (timers st) in
  exists st1 st2,
    joinQueue st now fresh id name mode = Done (JoinWaiting, st1) /\
    waitingPlayers st1 = [(id, Waiting id name mode now)] /\
    activeSessions st1 = activeSessions st /\
    pending (timers st1) !! h = Some (Timer (now + 10000) (SpawnBot id)) /\
    matchmakingTimeouts st1 !! id = Some h /\
    (forall t0, t0 < now + 10000 -> fire st1 t0 h fresh' = Done st1) /\
    fire st1 now' h fresh' = Done st2 /\
    waitingPlayers st2 = [] /\
    getSession st2 fresh' =
      Some (Session fresh'
              (Participant (Some id) name false true None None)
              (Participant None "ConnectBot" true true None None)
              true GameEngine.new now' None None None now') /\
    matchmakingTimeouts st2 !! id = None /\
    pending (timers st2) = pending (timers st).
Proof.
  intros Hr Hw Hn Hmode Hdue h.
  pose proof (reachable_tracked st Hr) as [_ Hfree].
  assert (pending (timers st) !! h = None) as Hh by (apply Hfree; unfold h; lia).
  unfold joinQueue. rewrite Hw. cbn [map_has map_get]. rewrite Hn.
  apply String.eqb_neq in Hmode as ->.
  unfold tryPairPlayers. cbn [waitingPlayers with_waitingPlayers map_set List.find fst].
  rewrite String.eqb_refl. cbn [negb]. rewrite bind_Done.
  cbn [setTimeout timers with_waitingPlayers matchmakingTimeouts].
  eexists _, _. split; [reflexivity|].
  cbn [waitingPlayers activeSessions with_timers with_matchmakingTimeouts
       with_waitingPlayers timers pending matchmakingTimeouts].
  fold h.
  split; [done|]. split; [done|].
  split; [apply lookup_insert_eq|]. split; [apply lookup_insert_eq|].
  split.
  { intros t0 Ht0. unfold fire.
    cbn [timers with_timers with_matchmakingTimeouts pending].
    fold h. rewrite lookup_insert_eq. cbn [due].
    by replace (t0 <? now + 10000) with true by lia. }
  unfold fire. cbn [timers with_timers with_matchmakingTimeouts pending].
  fold h. rewrite lookup_insert_eq. cbn [due action].
  replace (now' <? now + 10000) with false by lia.
  unfold spawnBotOpponent.
  cbn [waitingPlayers with_timers with_matchmakingTimeouts with_waitingPlayers map_get].
  rewrite String.eqb_refl.
  cbn [createSession snd w_username].
  split; [reflexivity|].
  cbn [waitingPlayers activeSessions with_timers with_matchmakingTimeouts
       with_waitingPlayers with_activeSessions timers pending matchmakingTimeouts
       clearTimeout].
  unfold getSession.
  cbn [waitingPlayers activeSessions with_timers with_matchmakingTimeouts
       with_waitingPlayers with_activeSessions timers pending matchmakingTimeouts
       clearTimeout].
  split; [unfold map_delete; simpl; by rewrite String.eqb_refl|].
  split; [by rewrite map_get_set_eq|].
  split; [apply lookup_delete_eq|].
  rewrite delete_insert_eq. by apply delete_id.
Qed.

Lemma wait_then_bot_witness :
  exists st2,
    fire alice_waiting 10000 0%nat "g2" = Done st2 /\
    waitingPlayers st2 = [] /\
    getSession st2 "g2" =
      Some (Session "g2"
              (Participant (Some "s1") "alice" false true None None)
              (Participant None "ConnectBot" true true None None)
              true GameEngine.new 10000 None None None 10000).
Proof.
  assert ("human" <> "bot")%string as Hm by done.
  assert (0 + 10000 <= 10000) as Hdue by lia.
  destruct (wait_then_bot new 0 "g1" "s1" "alice" "human" 10000 "g2"
              reachable_new eq_refl eq_refl Hm Hdue)
    as (st1 & st2 & Hj & _ & _ & _ & _ & _ & Hfire & Hw & Hs & _).
  injection Hj as <-.
  by exists st2.
Defined.
End JoinGate.
Section UsernamesStick.
Import Matchmaking Handlers ServerState Lifecycle Invariants Examples.

Lemma username_in_game_spec st name :
  username_in_game st name = true <->
  exists key s, In (key, s) (activeSessions st) /\ plays_in s name.
Proof.
  unfold username_in_game, plays_in. rewrite existsb_exists. split.
  - intros ([key s] & Hin & Hor). exists key, s. split; [done|].
    apply orb_true_iff in Hor as [H|H]; apply String.eqb_eq in H; simpl in H; tauto.
  - intros (key & s & Hin & Hor). exists (key, s). split; [done|]. simpl.
    apply orb_true_iff. rewrite !String.eqb_eq. done.
Qed.

(** X23.  A username stays taken.  When a username is the one of a
    participant of some session of a reachable state, whether or not that
    game is over, it still is after any event whose new session id is not
    in use, and a join under it is then answered with an error and changes
    nothing. *)
Theorem username_stays_taken (st : t) (now : Z) (ev : event) (st' : t)
    (name : string) :
  reachable st ->
  (forall f, fresh_id ev = Some f -> getSession st f = None) ->
  deliver st now ev = Done st' ->
  username_in_game st name = true ->
  username_in_game st' name = true /\
  forall now' fresh sock mode,
    exists e, onJoinQueue st' now' fresh sock name mode = Done (JoinError e, st').
Proof.
  intros Hr Hfresh Hstep Hname.
  assert (username_in_game st' name = true) as Hname'.
  { apply username_in_game_spec in Hname as (key & s & Hin & Hplays).
    pose proof (reachable_sessions st Hr) as [Hnd _].
    apply (In_map_get _ _ _ Hnd) in Hin.
    apply deliver_sessions in Hstep.
    destruct (sessions_kept_change ev _ _ Hnd Hfresh Hstep key s Hin)
      as (s' & Hg' & (_ & Hu1 & Hu2 & _) & _).
    apply username_in_game_spec. exists key, s'. split; [by apply map_get_In|].
    unfold plays_in in *. rewrite Hu1, Hu2. done. }
  split; [done|]. intros now' fresh sock mode. unfold onJoinQueue, joinQueue.
  destruct (_ || _); [eauto|].
  destruct (map_has _ _); [eauto|]. rewrite Hname'. eauto.
Qed.

Lemma username_stays_taken_witness :
  username_in_game Scenes.alice_forfeited "alice" = true /\
  exists e,
    onJoinQueue Scenes.alice_forfeited 40000 "g3" "s7" "alice" "bot"
      = Done (JoinError e, Scenes.alice_forfeited).
Proof.
  assert (reachable alice_dropped) as Hr.
  { apply (reachable_deliver alice_playing 1000 (EvDisconnect "s1"));
      [apply alice_playing_reachable|reflexivity]. }
  assert (forall f, fresh_id (EvTimer 0 "g9") = Some f ->
                    getSession alice_dropped f = None) as Hfresh
    by (by intros f [= <-]).
  assert (deliver alice_dropped 31000 (EvTimer 0 "g9") = Done Scenes.alice_forfeited)
    as Hstep by reflexivity.
  destruct (username_stays_taken alice_dropped 31000 (EvTimer 0 "g9")
              Scenes.alice_forfeited "alice" Hr Hfresh Hstep eq_refl)
    as [Hname Hjoin].
  split; [exact Hname|]. exact (Hjoin 40000 "g3" "s7" "bot"%string).
Defined.
End UsernamesStick.
